(** * textual-reactive: the state / subscription / derivation engine

    A shallow embedding of [textual_reactive/state.py], [hooks.py],
    [effects.py], [context.py], [store.py] and [reducer_context.py].

    Python objects with identity (cells, widgets) live in an explicit
    store and are referred to by their index; operations are written in a
    small state-and-exception monad.  Calls that may recurse through
    watchers carry a fuel argument. *)

From Stdlib Require Import ZArith String Ascii List Bool Lia Sorted.
From stdpp Require Import base option list strings.
Import ListNotations.
Local Open Scope string_scope.
Local Open Scope list_scope.

(** ** Identities *)

Abbreviation cell_id := nat (only parsing).     (* a [State] object *)
Abbreviation widget_id := nat (only parsing).   (* a Textual [Widget] object *)
Abbreviation fn_id := nat (only parsing).       (* a Python callable object *)

(** ** Exceptions raised by the library or passing through it *)

Inductive exn :=
| NameError (name : string)
| AttributeError (cls attr : string)
| ValueError (msg : string)
| RuntimeError (msg : string)
| ContextNotFoundError (context : nat) (widget : widget_id) (msg : string)
| UserError (tag : nat).

Section Engine.

(** The structured-value collaborator (pydantic): [Model] is the type of
    [BaseModel] instances and [model_dump_eq a b] is the test
    [a.model_dump() == b.model_dump()]. *)
Context {Model : Type}.
Variable model_dump_eq : Model -> Model -> bool.

(** ** Values held by cells *)

Inductive value :=
| VNone
| VBool (b : bool)
| VInt (n : Z)
| VStr (s : string)
| VModel (m : Model)
| VFn (f : fn_id).

(** [callable(value)] *)
Definition callable (v : value) : bool :=
  match v with VFn _ => true | _ => false end.

(** Python's [a == b] on the values above when at most one side is a
    model.  [bool] is a subclass of [int]; functions compare by identity;
    a model never equals a non-model. *)
Definition py_eq (a b : value) : bool :=
  match a, b with
  | VNone, VNone => true
  | VBool x, VBool y => Bool.eqb x y
  | VBool x, VInt n => (n =? (if x then 1 else 0))%Z
  | VInt n, VBool x => (n =? (if x then 1 else 0))%Z
  | VInt x, VInt y => (x =? y)%Z
  | VStr x, VStr y => String.eqb x y
  | VFn f, VFn g => Nat.eqb f g
  | _, _ => false
  end.

(** The comparison at the head of [State._set_value]: both pydantic models
    are compared by their dict representation, anything else by [==]. *)
Definition unchanged (old_value new_value : value) : bool :=
  match old_value, new_value with
  | VModel a, VModel b => model_dump_eq a b
  | _, _ => py_eq old_value new_value
  end.

(** ** User code

    [call f args] is the result of calling the callable [f] (an updater, a
    selector or a reducer, all expected to be pure) on [args]. *)
Variable call : fn_id -> list value -> value + exn.

(** ** Watchers

    The callables found in a cell's [_watchers] list. *)
Inductive watcher :=
| WCallback (cb : fn_id)
    (* a callable handed to [State.watch] by user code *)
| WEffect (widget : widget_id) (method : string)
    (* [lambda old, new, m=method: m(old, new)] from [connect_effects] *)
| WSourceChange (derived : cell_id) (sources : list cell_id) (selector : fn_id).
    (* the closure [on_source_change] of [use_derived] *)

#[export] Instance watcher_eq_dec : EqDecision watcher.
Proof. solve_decision. Defined.

(** What a user callback does when invoked with [(old, new)]: it returns,
    or it raises.  User callbacks are taken not to call back into the
    library. *)
Variable user_raises : watcher -> value -> value -> option exn.

(** ** Cells: class [State] *)

Record State := mkState {
  _value : value;
  _subscribers : list widget_id;
    (* WeakSet[Widget]: one entry per widget.  The list is walked where
       the code iterates the set, in an order the source leaves open. *)
  _watchers : list watcher;
  _name : option string
}.

(** [State.__init__] *)
Definition State__init__ (initial_value : value) (name : option string) : State :=
  {| _value := initial_value; _subscribers := []; _watchers := []; _name := name |}.

(** ** Contexts and stores

    [Context] and [Store] objects are compared with [is]; [context_ref]
    and [store_ref] stand for the object's identity.  Their [_providers]
    registries are written by [on_mount] and read nowhere, and are left
    out. *)

Record Context := mkContext {
  context_ref : nat;
  _default_value : value;
  context_name : option string;      (* [Context._name] *)
  is_ModelContext : bool             (* [isinstance(context, ModelContext)] *)
}.

Record Store := mkStore {
  store_ref : nat;
  _reducer : fn_id;
  _initial : value;
  store_name : option string         (* [Store._name] *)
}.

(** ** Widget classes and the widget tree *)

(** A target of [@effect]: a state name or a [Store]. *)
Inductive target :=
| TName (name : string)
| TStore (store_ref : nat).

#[export] Instance target_eq_dec : EqDecision target.
Proof. solve_decision. Defined.

(** What a class body binds a name to: a function, with the targets of its
    [EffectRegistration] when it carries [__textual_reactive_effects__],
    or some other object ([is_None] tells whether it is [None]). *)
Inductive member :=
| Function (registration : option (list target))
| Attribute (is_None : bool).

Record pyclass := mkClass {
  class_name : string;                       (* [__name__] *)
  class_dict : list (string * member)        (* the class body *)
}.

Inductive provider_kind :=
| NotProvider
| IsContextProvider (_rx_context : Context) (_state : cell_id)
| IsStoreProvider (_store : Store) (_state : cell_id).

(** A widget: [mro] is [type(widget).__mro__], the widget's own class
    first; [parent] is the host's tree link. *)
Record Widget := mkWidget {
  mro : list pyclass;
  parent : option widget_id;
  kind : provider_kind
}.

(** ** What the outside observes *)

Inductive event :=
| Called (state : cell_id) (w : watcher) (old_value new_value : value)
    (* the watcher [w] of [state] is invoked with [(old, new)] *)
| Posted (widget : widget_id) (state : cell_id) (old_value new_value : value).
    (* [widget.post_message(StateChanged(state, old, new))] *)

Record world := mkWorld {
  cells : list State;
  widgets : list Widget;
  trace : list event
}.

Definition with_cells (f : list State -> list State) (w : world) : world :=
  {| cells := f (cells w); widgets := widgets w; trace := trace w |}.

Definition with_widgets (f : list Widget -> list Widget) (w : world) : world :=
  {| cells := cells w; widgets := f (widgets w); trace := trace w |}.

Definition with_event (e : event) (w : world) : world :=
  {| cells := cells w; widgets := widgets w; trace := trace w ++ [e] |}.

(** ** The monad: state, exceptions, and running out of fuel *)

Inductive outcome (A : Type) :=
| Returned (a : A) (w : world)
| Raised (e : exn) (w : world)
| Stuck.
Arguments Returned {A} a w.
Arguments Raised {A} e w.
Arguments Stuck {A}.

Definition M (A : Type) : Type := world -> outcome A.

Definition ret {A} (a : A) : M A := fun w => Returned a w.
Definition raise {A} (e : exn) : M A := fun w => Raised e w.
Definition stuck {A} : M A := fun _ => Stuck.
Definition bind {A B} (m : M A) (k : A -> M B) : M B :=
  fun w => match m w with
           | Returned a w' => k a w'
           | Raised e w' => Raised e w'
           | Stuck => Stuck
           end.

Notation "'let!' x ':=' m 'in' k" := (bind m (fun x => k))
  (at level 10, x name, m at level 100, k at level 200).
Notation "m '>>' k" := (bind m (fun _ => k))
  (at level 62, right associativity).

Fixpoint for_each {A} (body : A -> M unit) (l : list A) : M unit :=
  match l with
  | [] => ret tt
  | x :: rest => body x >> for_each body rest
  end.

Definition load (c : cell_id) : M State :=
  fun w => match cells w !! c with
           | Some st => Returned st w
           | None => Stuck
           end.

Definition update (c : cell_id) (f : State -> State) : M unit :=
  fun w => Returned tt (with_cells (alter f c) w).

Definition emit (e : event) : M unit :=
  fun w => Returned tt (with_event e w).

Definition lift (r : value + exn) : M value :=
  match r with inl v => ret v | inr e => raise e end.

Definition set__value (v : value) (st : State) : State :=
  {| _value := v; _subscribers := _subscribers st;
     _watchers := _watchers st; _name := _name st |}.

Definition set__watchers (ws : list watcher) (st : State) : State :=
  {| _value := _value st; _subscribers := _subscribers st;
     _watchers := ws; _name := _name st |}.

Definition set__subscribers (ss : list widget_id) (st : State) : State :=
  {| _value := _value st; _subscribers := ss;
     _watchers := _watchers st; _name := _name st |}.

(** ** [State] methods *)

(** [State.get] and the [value] property *)
Definition State_get (self : cell_id) : M value :=
  let! st := load self in ret (_value st).

(** [State.set], with [_set_value] passed in. *)
Definition State_set_with (_set_value : cell_id -> value -> M unit)
    (self : cell_id) (v : value) : M unit :=
  match v with
  | VFn f =>
      let! st := load self in
      let! new_value := lift (call f [_value st]) in
      _set_value self new_value
  | _ => _set_value self v
  end.

(** [[s.value for s in sources]] *)
Fixpoint get_values (sources : list cell_id) : M (list value) :=
  match sources with
  | [] => ret []
  | s :: rest =>
      let! v := State_get s in
      let! vs := get_values rest in
      ret (v :: vs)
  end.

(** [selector(values[0])] for one source, [selector( *values)] otherwise. *)
Definition apply_selector (selector : fn_id) (sources : list cell_id)
    (values : list value) : M value :=
  if (length sources =? 1)%nat
  then match values with
       | v0 :: _ => lift (call selector [v0])
       | [] => stuck
       end
  else lift (call selector values).

(** One iteration of [for watcher in self._watchers: watcher(old, new)]. *)
Definition call_watcher (_set_value : cell_id -> value -> M unit)
    (self : cell_id) (old_value new_value : value) (wt : watcher) : M unit :=
  emit (Called self wt old_value new_value) >>
  match wt with
  | WSourceChange derived sources selector =>
      let! values := get_values sources in
      let! new_computed := apply_selector selector sources values in
      State_set_with _set_value derived new_computed
  | _ =>
      match user_raises wt old_value new_value with
      | Some e => raise e
      | None => ret tt
      end
  end.

(** [State._set_value] *)
Fixpoint _set_value (fuel : nat) (self : cell_id) (new_value : value) : M unit :=
  match fuel with
  | O => stuck
  | S fuel =>
      let! st := load self in
      let old_value := _value st in
      if unchanged old_value new_value then ret tt
      else
        update self (set__value new_value) >>
        for_each (call_watcher (_set_value fuel) self old_value new_value)
                 (_watchers st) >>
        for_each (fun widget => emit (Posted widget self old_value new_value))
                 (_subscribers st)
  end.

Definition State_set (fuel : nat) : cell_id -> value -> M unit :=
  State_set_with (_set_value fuel).

(** The [value] property setter: [self._set_value(new_value)]. *)
Definition State_value_setter (fuel : nat) : cell_id -> value -> M unit :=
  _set_value fuel.

(** [State.subscribe]: [self._subscribers.add(widget)] *)
Definition State_subscribe (self : cell_id) (widget : widget_id) : M unit :=
  update self (fun st =>
    if bool_decide (widget ∈ _subscribers st) then st
    else set__subscribers (_subscribers st ++ [widget]) st).

(** [State.unsubscribe]: [self._subscribers.discard(widget)] *)
Definition State_unsubscribe (self : cell_id) (widget : widget_id) : M unit :=
  update self (fun st =>
    set__subscribers (filter (fun x => x <> widget) (_subscribers st)) st).

(** [list.remove(x)]: drop the first item equal to [x]; [None] stands for
    the [ValueError] raised when there is none. *)
Fixpoint list_remove_first (x : watcher) (l : list watcher) : option (list watcher) :=
  match l with
  | [] => None
  | y :: rest =>
      if decide (y = x) then Some rest
      else option_map (cons y) (list_remove_first x rest)
  end.

(** The closure [unwatch] returned by [State.watch]:
    [self._watchers.remove(callback)]. *)
Definition unwatch (self : cell_id) (callback : watcher) : M unit :=
  let! st := load self in
  match list_remove_first callback (_watchers st) with
  | Some ws => update self (set__watchers ws)
  | None => raise (ValueError "list.remove(x): x not in list")
  end.

(** [State.watch]: [self._watchers.append(callback)]; the result is the
    closure [unwatch], given by what it captured. *)
Definition State_watch (self : cell_id) (callback : watcher) : M (M unit) :=
  update self (fun st => set__watchers (_watchers st ++ [callback]) st) >>
  ret (unwatch self callback).

(** [State(initial_value, name=name)]: a new object. *)
Definition new_State (initial_value : value) (name : option string) : M cell_id :=
  fun w => Returned (length (cells w))
             (with_cells (fun cs => cs ++ [State__init__ initial_value name]) w).

(** ** The widget tree (host collaborator) *)

Definition load_widget (widget : widget_id) : M Widget :=
  fun w => match widgets w !! widget with
           | Some wd => Returned wd w
           | None => Stuck
           end.

(** A new widget object: [Widget.__init__], not yet mounted. *)
Definition new_widget (classes : list pyclass) (k : provider_kind) : M widget_id :=
  fun w => Returned (length (widgets w))
             (with_widgets (fun ws => ws ++ [mkWidget classes None k]) w).

(** Mounting [child] under [p] sets the host's [parent] link. *)
Definition mount (p child : widget_id) : M unit :=
  fun w => Returned tt
    (with_widgets (alter (fun wd => mkWidget (mro wd) (Some p) (kind wd)) child) w).

(** The provider's own attributes ([_store] or [_rx_context], and
    [_state]) assigned in its [__init__]. *)
Definition set_kind (self : widget_id) (k : provider_kind) : M unit :=
  fun w => Returned tt
    (with_widgets (alter (fun wd => mkWidget (mro wd) (parent wd) k) self) w).

(** [widget.__class__.__name__] *)
Definition type_name (wd : Widget) : string :=
  match mro wd with
  | c :: _ => class_name c
  | [] => "object"
  end.

(** The loop shared by the three [_find_provider] functions: starting at
    [current], test the widget, else move to [current.parent], until there
    is no parent.  [None] when the fuel does not reach the root. *)
Fixpoint walk_up (fuel : nat) (is_provider : Widget -> bool)
    (ws : list Widget) (current : widget_id) : option (option widget_id) :=
  match fuel with
  | O => None
  | S fuel =>
      match ws !! current with
      | None => None
      | Some wd =>
          if is_provider wd then Some (Some current)
          else match parent wd with
               | Some p => walk_up fuel is_provider ws p
               | None => Some None
               end
      end
  end.

Definition walk (fuel : nat) (is_provider : Widget -> bool)
    (widget : widget_id) : M (option widget_id) :=
  fun w => match walk_up fuel is_provider (widgets w) widget with
           | Some r => Returned r w
           | None => Stuck
           end.

(** ** [effects.py] *)

(** [effect( *targets)(method)]: the registration on [method] is created
    or extended.  Only functions are decorated: what [setattr] does on
    another kind of object is not modelled, and such a member is returned
    as it is. *)
Definition effect (targets : list target) (method : member) : member + exn :=
  match targets with
  | [] => inr (ValueError "@effect requires at least one target")
  | _ =>
      match method with
      | Function registration =>
          inl (Function (Some (default [] registration ++ targets)))
      | Attribute b => inl (Attribute b)
      end
  end.

Fixpoint insert_sorted (x : string) (l : list string) : list string :=
  match l with
  | [] => [x]
  | y :: rest =>
      match String.compare x y with
      | Lt => x :: l
      | Eq => l
      | Gt => y :: insert_sorted x rest
      end
  end.

(** [dir(cls)]: the names bound in the class and in its bases, sorted,
    each once. *)
Definition dir (classes : list pyclass) : list string :=
  foldr insert_sorted [] (concat (map (fun c => map fst (class_dict c)) classes)).

Fixpoint assoc {A} (name : string) (l : list (string * A)) : option A :=
  match l with
  | [] => None
  | (k, v) :: rest => if String.eqb k name then Some v else assoc name rest
  end.

(** [getattr(cls, attr_name, None)]: the first class of the MRO that binds
    the name. *)
Fixpoint class_getattr (classes : list pyclass) (attr_name : string) : option member :=
  match classes with
  | [] => None
  | c :: rest =>
      match assoc attr_name (class_dict c) with
      | Some m => Some m
      | None => class_getattr rest attr_name
      end
  end.

(** [attr_name.startswith("_")] *)
Definition startswith_underscore (attr_name : string) : bool :=
  match attr_name with
  | String c _ => Ascii.eqb c "_"%char
  | EmptyString => false
  end.

(** The body shared by [connect_effects] and [connect_store_effects]. *)
Definition connect (widget : widget_id) (wanted : target) (state : cell_id) : M unit :=
  let! wd := load_widget widget in
  for_each (fun attr_name =>
    if startswith_underscore attr_name then ret tt
    else
      match class_getattr (mro wd) attr_name with
      | Some (Function (Some targets)) =>
          if bool_decide (wanted ∈ targets)
          then State_watch state (WEffect widget attr_name) >> ret tt
          else ret tt
      | _ => ret tt
      end)
    (dir (mro wd)).

Definition connect_effects (widget : widget_id) (state_name : string)
    (state : cell_id) : M unit :=
  connect widget (TName state_name) state.

Definition connect_store_effects (widget : widget_id) (store : Store)
    (state : cell_id) : M unit :=
  connect widget (TStore (store_ref store)) state.

(** ** [hooks.py] *)

Record StateHandle := mkStateHandle {
  state : cell_id;
  handle_name : option string
}.

(** The [dispatch] closures. *)
Inductive dispatcher :=
| ReducerDispatch (state : cell_id) (reducer : fn_id)        (* [use_reducer] *)
| ModelReducerDispatch (state : cell_id) (reducer : fn_id)   (* [use_model_reducer] *)
| ProviderDispatch (self : widget_id) (store : Store).       (* [StoreProvider.__init__] *)

Record ReducerHandle := mkReducerHandle {
  reducer_state : cell_id;
  _dispatch : dispatcher;
  reducer_name : option string
}.

(** [if name: connect_effects(widget, name, state)] *)
Definition connect_if_named (widget : widget_id) (name : option string)
    (state : cell_id) : M unit :=
  match name with
  | Some n => if String.eqb n "" then ret tt else connect_effects widget n state
  | None => ret tt
  end.

Definition use_state (widget : widget_id) (initial_value : value)
    (name : option string) : M StateHandle :=
  let! state := new_State initial_value name in
  State_subscribe state widget >>
  connect_if_named widget name state >>
  ret (mkStateHandle state name).

Definition use_reducer (widget : widget_id) (reducer : fn_id)
    (initial_value : value) (name : option string) : M ReducerHandle :=
  let! state := new_State initial_value name in
  State_subscribe state widget >>
  connect_if_named widget name state >>
  ret (mkReducerHandle state (ReducerDispatch state reducer) name).

Definition use_model_reducer (widget : widget_id) (reducer : fn_id)
    (initial_value : value) (name : option string) : M ReducerHandle :=
  let! state := new_State initial_value name in
  State_subscribe state widget >>
  connect_if_named widget name state >>
  ret (mkReducerHandle state (ModelReducerDispatch state reducer) name).

(** [use_derived]; [sources] are the [.state] of the source handles. *)
Definition use_derived (widget : widget_id) (sources : list cell_id)
    (selector : fn_id) (name : option string) : M StateHandle :=
  let! initial_values := get_values sources in
  let! initial_computed := apply_selector selector sources initial_values in
  let! derived_state := new_State initial_computed name in
  State_subscribe derived_state widget >>
  for_each (fun src =>
      State_watch src (WSourceChange derived_state sources selector) >> ret tt)
    sources >>
  connect_if_named widget name derived_state >>
  ret (mkStateHandle derived_state name).

(** Calling a [dispatch] closure. *)
Definition dispatch (fuel : nat) (d : dispatcher) (action : value) : M unit :=
  match d with
  | ReducerDispatch state reducer =>
      let! current := State_get state in
      let! new_value := lift (call reducer [current; action]) in
      State_set fuel state new_value
  | ModelReducerDispatch state reducer =>
      let! current := State_get state in
      let! new_value := lift (call reducer [current; action]) in
      _set_value fuel state new_value            (* [state.replace] *)
  | ProviderDispatch self store =>
      let! wd := load_widget self in
      match kind wd with
      | IsStoreProvider _ state =>
          let! current := State_get state in
          let! new_value := lift (call (_reducer store) [current; action]) in
          State_set fuel state new_value
      | _ => stuck
      end
  end.

(** ** [store.py] *)

Record StoreHandle := mkStoreHandle {
  store_state : cell_id;          (* [_state] *)
  store_dispatch : dispatcher;    (* [_dispatch] *)
  handle_store : Store            (* [_store] *)
}.

(** [StoreProvider.__init__]: the provider creates its own cell from
    [store._initial] ([ModelState] and [State] share [__init__]) and its
    own [dispatch] closure. *)
Definition StoreProvider__init__ (classes : list pyclass) (store : Store) : M widget_id :=
  (* super().__init__(name=name, id=id, classes=classes) *)
  let! self := new_widget classes NotProvider in
  let! st := new_State (_initial store) (store_name store) in
  set_kind self (IsStoreProvider store st) >>
  ret self.

(** [isinstance(current, StoreProvider) and current._store is self] *)
Definition provides_store (self : Store) (wd : Widget) : bool :=
  match kind wd with
  | IsStoreProvider s _ => Nat.eqb (store_ref s) (store_ref self)
  | _ => false
  end.

(** [Store._find_provider] *)
Definition Store__find_provider (fuel : nat) (self : Store)
    (widget : widget_id) : M (option widget_id) :=
  walk fuel (provides_store self) widget.

(** [self._name or 'unnamed'] *)
Definition or_unnamed (name : option string) : string :=
  match name with
  | Some n => if String.eqb n "" then "unnamed" else n
  | None => "unnamed"
  end.

(** [Store.use] *)
Definition Store_use (fuel : nat) (self : Store) (widget : widget_id)
    (subscribe : bool) : M StoreHandle :=
  let! provider := Store__find_provider fuel self widget in
  match provider with
  | None =>
      let! wd := load_widget widget in
      raise (RuntimeError
        ("Store '" ++ or_unnamed (store_name self) ++
         "' not found in widget tree. Make sure a provider is mounted above " ++
         type_name wd ++ "."))
  | Some p =>
      let! pw := load_widget p in
      match kind pw with
      | IsStoreProvider _ st =>
          (if subscribe then State_subscribe st widget else ret tt) >>
          connect_store_effects widget self st >>
          ret (mkStoreHandle st (ProviderDispatch p self) self)
      | _ => stuck
      end
  end.

(** [StoreHandle.dispatch] *)
Definition StoreHandle_dispatch (fuel : nat) (h : StoreHandle) (action : value) : M unit :=
  dispatch fuel (store_dispatch h) action.

(** ** [context.py] *)

(** Names bound at module level in [context.py] (imports, type variables,
    classes and functions). *)
Definition context_py_globals : list string :=
  [ "annotations"; "Any"; "Callable"; "Generic"; "TypeVar"; "overload";
    "WeakValueDictionary"; "BaseModel"; "Widget"; "Container"; "App";
    "ModelState"; "State"; "StateChanged"; "T"; "S";
    "ContextNotFoundError"; "Context"; "ModelContext"; "create_context";
    "create_model_context"; "ContextProvider"; "ContextHandle";
    "ModelContextHandle"; "_find_provider"; "use_context"; "provide_context" ].

(** The functions and constants of Python's [builtins] module. *)
Definition python_builtins : list string :=
  [ "abs"; "aiter"; "all"; "anext"; "any"; "ascii"; "bin"; "bool";
    "breakpoint"; "bytearray"; "bytes"; "callable"; "chr"; "classmethod";
    "compile"; "complex"; "delattr"; "dict"; "dir"; "divmod"; "enumerate";
    "eval"; "exec"; "filter"; "float"; "format"; "frozenset"; "getattr";
    "globals"; "hasattr"; "hash"; "help"; "hex"; "id"; "input"; "int";
    "isinstance"; "issubclass"; "iter"; "len"; "list"; "locals"; "map";
    "max"; "memoryview"; "min"; "next"; "object"; "oct"; "open"; "ord";
    "pow"; "print"; "property"; "range"; "repr"; "reversed"; "round";
    "set"; "setattr"; "slice"; "sorted"; "staticmethod"; "str"; "sum";
    "super"; "tuple"; "type"; "vars"; "zip"; "__import__";
    "None"; "True"; "False"; "Ellipsis"; "NotImplemented" ].

(** What a name may denote inside [ContextProvider.__init__]. *)
Inductive pyobj :=
| OContext (c : Context)
| OValue (v : value)
| OWidget (w : widget_id)
| OModuleLevel (name : string).

(** Name lookup in a function body: locals, then module globals, then
    builtins; [NameError] otherwise. *)
Definition load_name (locals : list (string * pyobj)) (globals : list string)
    (x : string) : M pyobj :=
  match assoc x locals with
  | Some o => ret o
  | None =>
      if bool_decide (x ∈ globals ++ python_builtins)
      then ret (OModuleLevel x)
      else raise (NameError x)
  end.

(** The attribute [.name]: the property of [Context]. *)
Definition getattr_name (o : pyobj) : M (option string) :=
  match o with
  | OContext c => ret (context_name c)
  | OValue _ => raise (AttributeError "value" "name")
  | OWidget _ => ret None
  | OModuleLevel x => raise (AttributeError x "name")
  end.

(** [ContextProvider.__init__(self, reactive_context, value, *children,
    name, id, classes)] *)
Definition ContextProvider__init__ (classes : list pyclass)
    (reactive_context : Context) (v : value) : M widget_id :=
  (* super().__init__(name=name, id=id, classes=classes) *)
  let! self := new_widget classes NotProvider in
  let locals := [ ("self", OWidget self);
                  ("reactive_context", OContext reactive_context);
                  ("value", OValue v);
                  ("children", OValue VNone); ("name", OValue VNone);
                  ("id", OValue VNone); ("classes", OValue VNone) ] in
  (* self._rx_context = reactive_context *)
  (* self._state = State(value, name=context.name) *)
  let! o := load_name locals context_py_globals "context" in
  let! name := getattr_name o in
  let! st := new_State v name in
  set_kind self (IsContextProvider reactive_context st) >>
  ret self.

(** How instances of a class store attributes: in the slots the class
    declares, or in a [__dict__]. *)
Inductive layout :=
| Slots (names : list string)
| HasDict.

(** [self.attr = ...] on an instance of [cls]. *)
Definition object_setattr (cls : string) (l : layout) (attr : string) : M unit :=
  match l with
  | HasDict => ret tt
  | Slots names =>
      if bool_decide (attr ∈ names) then ret tt
      else raise (AttributeError cls attr)
  end.

(** [ContextHandle.__slots__]; [Generic] has empty [__slots__], so a
    [ContextHandle] has no [__dict__].  [ModelContextHandle] declares no
    [__slots__] and so has one. *)
Definition ContextHandle__slots__ : list string :=
  [ "_state"; "_widget"; "_context"; "_is_default" ].

Definition ContextHandle_layout : layout := Slots ContextHandle__slots__.
Definition ModelContextHandle_layout : layout := HasDict.

Record ContextHandle := mkContextHandle {
  handle_class : string;
  handle_state : cell_id;       (* [_state] *)
  handle_widget : widget_id;    (* [_widget] *)
  handle_context : Context;     (* [_rx_context] *)
  _is_default : bool
}.

(** [ContextHandle.__init__], run for an instance of [cls]. *)
Definition ContextHandle__init__ (cls : string) (l : layout) (st : cell_id)
    (widget : widget_id) (context : Context) (is_default : bool) : M ContextHandle :=
  object_setattr cls l "_state" >>
  object_setattr cls l "_widget" >>
  object_setattr cls l "_rx_context" >>
  object_setattr cls l "_is_default" >>
  ret (mkContextHandle cls st widget context is_default).

(** [ContextHandle.value] and [ContextHandle.is_default] *)
Definition ContextHandle_value (h : ContextHandle) : M value :=
  State_get (handle_state h).
Definition is_default (h : ContextHandle) : bool := _is_default h.

(** [isinstance(current, ContextProvider) and current._rx_context is context] *)
Definition provides_context (context : Context) (wd : Widget) : bool :=
  match kind wd with
  | IsContextProvider c _ => Nat.eqb (context_ref c) (context_ref context)
  | _ => false
  end.

(** [_find_provider] of [context.py] *)
Definition _find_provider (fuel : nat) (widget : widget_id)
    (context : Context) : M (option widget_id) :=
  walk fuel (provides_context context) widget.

(** The message of [ContextNotFoundError]. *)
Definition ContextNotFoundError_message (context : Context) (wd : Widget) : string :=
  "Context '" ++ or_unnamed (context_name context) ++
  "' not found in widget tree for " ++ type_name wd ++
  ". Make sure a ContextProvider is mounted above this widget.".

(** [use_context] *)
Definition use_context (fuel : nat) (widget : widget_id) (context : Context)
    (subscribe required : bool) : M ContextHandle :=
  let! provider := _find_provider fuel widget context in
  let! found :=
    match provider with
    | Some p =>
        let! pw := load_widget p in
        match kind pw with
        | IsContextProvider _ st => ret (st, false)
        | _ => stuck
        end
    | None =>
        if required then
          let! wd := load_widget widget in
          raise (ContextNotFoundError (context_ref context) widget
                   (ContextNotFoundError_message context wd))
        else
          let! st := new_State (_default_value context) (context_name context) in
          ret (st, true)
    end in
  (if subscribe then State_subscribe (fst found) widget else ret tt) >>
  if is_ModelContext context
  then ContextHandle__init__ "ModelContextHandle" ModelContextHandle_layout
         (fst found) widget context (snd found)
  else ContextHandle__init__ "ContextHandle" ContextHandle_layout
         (fst found) widget context (snd found).

(** ** [ModelState] and the handles that update a model *)

(** The structured-value collaborator, continued: [model_copy m kwargs]
    is [m.model_copy(update=kwargs)]. *)
Variable model_copy : Model -> list (string * value) -> Model.

(** [type(v).__name__], for the message of an [AttributeError]. *)
Definition py_type_name (v : value) : string :=
  match v with
  | VNone => "NoneType"
  | VBool _ => "bool"
  | VInt _ => "int"
  | VStr _ => "str"
  | VModel _ => "BaseModel"
  | VFn _ => "function"
  end.

(** [current.model_copy(update=kwargs)]: only a model has the method. *)
Definition value_model_copy (current : value) (kwargs : list (string * value))
    : value + exn :=
  match current with
  | VModel m => inl (VModel (model_copy m kwargs))
  | v => inr (AttributeError (py_type_name v) "model_copy")
  end.

(** [ModelState.update( **kwargs)] *)
Definition ModelState_update (fuel : nat) (self : cell_id)
    (kwargs : list (string * value)) : M unit :=
  let! st := load self in
  let! new_value := lift (value_model_copy (_value st) kwargs) in
  _set_value fuel self new_value.

(** [ModelState.replace(new_model)] *)
Definition ModelState_replace (fuel : nat) (self : cell_id) (new_model : value) : M unit :=
  _set_value fuel self new_model.

(** [use_model_state]: as [use_state], over a [ModelState]. *)
Definition use_model_state (widget : widget_id) (initial_value : value)
    (name : option string) : M StateHandle :=
  let! state := new_State initial_value name in
  State_subscribe state widget >>
  connect_if_named widget name state >>
  ret (mkStateHandle state name).

(** [StateHandle.set] and [ModelStateHandle.set] *)
Definition StateHandle_set (fuel : nat) (h : StateHandle) (v : value) : M unit :=
  State_set fuel (state h) v.

(** [ModelStateHandle.update( **kwargs)] *)
Definition ModelStateHandle_update (fuel : nat) (h : StateHandle)
    (kwargs : list (string * value)) : M unit :=
  ModelState_update fuel (state h) kwargs.

(** [ContextHandle.set] *)
Definition ContextHandle_set (fuel : nat) (h : ContextHandle) (v : value) : M unit :=
  State_set fuel (handle_state h) v.

(** [ModelContextHandle.update( **kwargs)]: the copy goes through [set]. *)
Definition ModelContextHandle_update (fuel : nat) (h : ContextHandle)
    (kwargs : list (string * value)) : M unit :=
  let! current := State_get (handle_state h) in
  let! new_value := lift (value_model_copy current kwargs) in
  State_set fuel (handle_state h) new_value.

(** ** [reducer_context.py] *)

Record ReducerContext := mkReducerContext {
  reducer_context_ref : nat;                 (* the object's identity *)
  reducer_context_name : option string       (* [_name] *)
}.

(** The attributes that [ReducerProvider.__init__] assigns. *)
Record ReducerProvider := mkReducerProvider {
  provider_context : ReducerContext;         (* [_rx_context] *)
  _reducer_handle : ReducerHandle
}.

(** The [ReducerProvider] instances, by widget.  In [widgets] such a
    widget has the kind [NotProvider]: it is neither a [ContextProvider]
    nor a [StoreProvider].  The table is kept beside the world and passed
    to the functions that read or extend it. *)
Definition reducer_providers := list (widget_id * ReducerProvider).

Fixpoint provider_at (providers : reducer_providers) (current : widget_id)
    : option ReducerProvider :=
  match providers with
  | [] => None
  | (k, rp) :: rest => if Nat.eqb k current then Some rp else provider_at rest current
  end.

(** [ReducerProvider.__init__(self, reactive_context, reducer_handle,
    *children, name, id, classes)] *)
Definition ReducerProvider__init__ (classes : list pyclass)
    (reactive_context : ReducerContext) (reducer_handle : ReducerHandle)
    (providers : reducer_providers) : M (widget_id * reducer_providers) :=
  (* super().__init__(name=name, id=id, classes=classes) *)
  let! self := new_widget classes NotProvider in
  ret (self, (self, mkReducerProvider reactive_context reducer_handle) :: providers).

(** [isinstance(current, ReducerProvider) and current._rx_context is context] *)
Definition provides_reducer (providers : reducer_providers) (context : ReducerContext)
    (current : widget_id) : bool :=
  match provider_at providers current with
  | Some rp => Nat.eqb (reducer_context_ref (provider_context rp))
                       (reducer_context_ref context)
  | None => false
  end.

(** The loop of [_find_provider] in [reducer_context.py]; [None] when the
    fuel does not reach the root. *)
Fixpoint reducer_walk_up (fuel : nat) (is_provider : widget_id -> bool)
    (ws : list Widget) (current : widget_id) : option (option widget_id) :=
  match fuel with
  | O => None
  | S fuel =>
      match ws !! current with
      | None => None
      | Some wd =>
          if is_provider current then Some (Some current)
          else match parent wd with
               | Some p => reducer_walk_up fuel is_provider ws p
               | None => Some None
               end
      end
  end.

(** [_find_provider] of [reducer_context.py] *)
Definition reducer_find_provider (fuel : nat) (providers : reducer_providers)
    (widget : widget_id) (context : ReducerContext) : M (option widget_id) :=
  fun w => match reducer_walk_up fuel (provides_reducer providers context)
                   (widgets w) widget with
           | Some r => Returned r w
           | None => Stuck
           end.

(** The message of the [RuntimeError] of [use_reducer_context]. *)
Definition ReducerContext_not_found_message (context : ReducerContext)
    (wd : Widget) : string :=
  "ReducerContext '" ++ or_unnamed (reducer_context_name context) ++
  "' not found. Make sure a ReducerProvider is mounted above " ++
  type_name wd ++ ".".

(** [use_reducer_context] *)
Definition use_reducer_context (fuel : nat) (providers : reducer_providers)
    (widget : widget_id) (context : ReducerContext) (subscribe : bool)
    : M ReducerHandle :=
  let! provider := reducer_find_provider fuel providers widget context in
  match provider with
  | None =>
      let! wd := load_widget widget in
      raise (RuntimeError (ReducerContext_not_found_message context wd))
  | Some p =>
      match provider_at providers p with
      | Some rp =>
          let handle := _reducer_handle rp in
          (if subscribe then State_subscribe (reducer_state handle) widget
           else ret tt) >>
          (* if handle.name: connect_effects(widget, handle.name, handle.state) *)
          connect_if_named widget (reducer_name handle) (reducer_state handle) >>
          ret handle
      | None => stuck
      end
  end.

(** [ReducerProvider.dispatch] and [ReducerHandle.dispatch] *)
Definition ReducerHandle_dispatch (fuel : nat) (h : ReducerHandle)
    (action : value) : M unit :=
  dispatch fuel (_dispatch h) action.

(** * Properties *)

(** ** Vocabulary of the statements *)

Definition add_events (evs : list event) (w : world) : world :=
  {| cells := cells w; widgets := widgets w; trace := trace w ++ evs |}.

(** The world an outcome ends in, if any. *)
Definition final {A} (o : outcome A) : option world :=
  match o with
  | Returned _ w => Some w
  | Raised _ w => Some w
  | Stuck => None
  end.

Definition is_user (wt : watcher) : bool :=
  match wt with WSourceChange _ _ _ => false | _ => true end.

(** A user watcher that returns on [(old, new)]. *)
Definition quiet (old_value new_value : value) (wt : watcher) : Prop :=
  is_user wt = true /\ user_raises wt old_value new_value = None.

Definition shape (st : State) : list widget_id * list watcher * option string :=
  (_subscribers st, _watchers st, _name st).

Definition same_shape (w w' : world) : Prop :=
  map shape (cells w') = map shape (cells w) /\ widgets w' = widgets w.

Definition cell_of (ev : event) : cell_id :=
  match ev with
  | Called c _ _ _ => c
  | Posted _ c _ _ => c
  end.

Definition closed (w : world) (T : cell_id -> Prop) : Prop :=
  forall i st d srcs sel,
    T i -> cells w !! i = Some st ->
    WSourceChange d srcs sel ∈ _watchers st -> T d.

Definition frame (T : cell_id -> Prop) (Q : event -> Prop) (w w' : world) : Prop :=
  same_shape w w' /\
  (forall k, ~ T k -> cells w' !! k = cells w !! k) /\
  exists evs, trace w' = trace w ++ evs /\ Forall Q evs.

Definition well_formed (w : world) : Prop :=
  forall i st d srcs sel,
    cells w !! i = Some st ->
    WSourceChange d srcs sel ∈ _watchers st ->
    i < d /\ d < length (cells w) /\ Forall (fun s => s < length (cells w)) srcs.

(** The events of [w'] that [w] did not have yet. *)
Definition since (w w' : world) : list event :=
  drop (length (trace w)) (trace w').

(** The events that concern cell [c]. *)
Definition about (c : cell_id) (evs : list event) : list event :=
  filter (fun ev => cell_of ev = c) evs.

Definition later (self : cell_id) : cell_id -> Prop := fun k => self < k.
Definition on_later (self : cell_id) : event -> Prop := fun ev => self < cell_of ev.

(** [ran self evs w w']: from [w] to [w'] the cells up to [self] were
    left alone, no cell changed shape, and [evs] are the new events that
    concern [self]. *)
Definition ran (self : cell_id) (evs : list event) (w w' : world) : Prop :=
  same_shape w w' /\
  (forall k, k <= self -> cells w' !! k = cells w !! k) /\
  trace w' = trace w ++ since w w' /\
  about self (since w w') = evs.

(** Whether [connect] registers the method named [m]. *)
Definition connects (classes : list pyclass) (wanted : target) (m : string) : bool :=
  negb (startswith_underscore m) &&
  match class_getattr classes m with
  | Some (Function (Some targets)) => bool_decide (wanted ∈ targets)
  | _ => false
  end.

Definition effect_methods (classes : list pyclass) (wanted : target) : list string :=
  List.filter (connects classes wanted) (dir classes).

Definition add_watchers (ws : list watcher) (st : State) : State :=
  set__watchers (_watchers st ++ ws) st.

(** [chain ws c l]: [l] is [c] followed by its ancestors, up to the
    root. *)
Inductive chain (ws : list Widget) : widget_id -> list widget_id -> Prop :=
| chain_root c wd :
    ws !! c = Some wd -> parent wd = None -> chain ws c [c]
| chain_step c wd p l :
    ws !! c = Some wd -> parent wd = Some p -> chain ws p l -> chain ws c (c :: l).

(** The first widget of [l] that is a provider. *)
Fixpoint nearest (is_provider : Widget -> bool) (ws : list Widget)
    (l : list widget_id) : option widget_id :=
  match l with
  | [] => None
  | x :: rest =>
      match ws !! x with
      | Some wd => if is_provider wd then Some x else nearest is_provider ws rest
      | None => nearest is_provider ws rest
      end
  end.

(** [is_target w c]: some derivation registered in [w] assigns cell [c]. *)
Definition is_target (w : world) (c : cell_id) : Prop :=
  exists i st srcs sel,
    cells w !! i = Some st /\ WSourceChange c srcs sel ∈ _watchers st.

(** The cell of a store provider exists, is no derivation's target, and
    belongs to that provider alone. *)
Definition providers_own_cells (w : world) : Prop :=
  forall p pw s c,
    widgets w !! p = Some pw -> kind pw = IsStoreProvider s c ->
    c < length (cells w) /\ ~ is_target w c /\
    forall p' pw' s', widgets w !! p' = Some pw' ->
                      kind pw' = IsStoreProvider s' c -> p' = p.

(** The invariant of the worlds the library builds. *)
Definition inv (w : world) : Prop := well_formed w /\ providers_own_cells w.

Definition apart (c : cell_id) : cell_id -> Prop := fun k => k <> c.
Definition off (c : cell_id) : event -> Prop := fun ev => cell_of ev <> c.

(** [extends allowed w w']: [w'] has the cells of [w] and maybe more, no
    new store provider, and no derivation registered that [w] did not
    have, except those [allowed]. *)
Definition extends (allowed : cell_id -> watcher -> Prop) (w w' : world) : Prop :=
  length (cells w) <= length (cells w') /\
  (forall p pw' s c,
     widgets w' !! p = Some pw' -> kind pw' = IsStoreProvider s c ->
     exists pw, widgets w !! p = Some pw /\ kind pw = IsStoreProvider s c) /\
  (forall i st' d srcs sel,
     cells w' !! i = Some st' -> WSourceChange d srcs sel ∈ _watchers st' ->
     (exists st, cells w !! i = Some st /\ WSourceChange d srcs sel ∈ _watchers st) \/
     allowed i (WSourceChange d srcs sel)).

Definition steps (allowed : cell_id -> watcher -> Prop) {A} (m : M A) : Prop :=
  forall w w', final (m w) = Some w' -> extends allowed w w'.

Definition nothing : cell_id -> watcher -> Prop := fun _ _ => False.

(** The operations of the library, as a client calls them. *)
Inductive api :=
| ApiNewWidget (classes : list pyclass)
| ApiMount (p child : widget_id)
| ApiUseState (widget : widget_id) (v : value) (name : option string)
| ApiUseReducer (widget : widget_id) (reducer : fn_id) (v : value) (name : option string)
| ApiUseModelReducer (widget : widget_id) (reducer : fn_id) (v : value)
    (name : option string)
| ApiUseDerived (widget : widget_id) (sources : list cell_id) (selector : fn_id)
    (name : option string)
| ApiSet (fuel : nat) (c : cell_id) (v : value)
| ApiValueSetter (fuel : nat) (c : cell_id) (v : value)
| ApiDispatch (fuel : nat) (d : dispatcher) (action : value)
| ApiWatch (c : cell_id) (cb : fn_id)
| ApiUnwatch (c : cell_id) (cb : fn_id)
| ApiSubscribe (c : cell_id) (widget : widget_id)
| ApiUnsubscribe (c : cell_id) (widget : widget_id)
| ApiStoreProvider (classes : list pyclass) (store : Store)
| ApiStoreUse (fuel : nat) (store : Store) (widget : widget_id) (subscribe : bool)
| ApiContextProvider (classes : list pyclass) (context : Context) (v : value)
| ApiUseContext (fuel : nat) (widget : widget_id) (context : Context)
    (subscribe required : bool).

Definition perform (c : api) : M unit :=
  match c with
  | ApiNewWidget classes => new_widget classes NotProvider >> ret tt
  | ApiMount p child => mount p child
  | ApiUseState widget v name => use_state widget v name >> ret tt
  | ApiUseReducer widget reducer v name => use_reducer widget reducer v name >> ret tt
  | ApiUseModelReducer widget reducer v name =>
      use_model_reducer widget reducer v name >> ret tt
  | ApiUseDerived widget sources selector name =>
      use_derived widget sources selector name >> ret tt
  | ApiSet fuel c v => State_set fuel c v
  | ApiValueSetter fuel c v => State_value_setter fuel c v
  | ApiDispatch fuel d action => dispatch fuel d action
  | ApiWatch c cb => State_watch c (WCallback cb) >> ret tt
  | ApiUnwatch c cb => unwatch c (WCallback cb)
  | ApiSubscribe c widget => State_subscribe c widget
  | ApiUnsubscribe c widget => State_unsubscribe c widget
  | ApiStoreProvider classes store => StoreProvider__init__ classes store >> ret tt
  | ApiStoreUse fuel store widget subscribe =>
      Store_use fuel store widget subscribe >> ret tt
  | ApiContextProvider classes context v =>
      ContextProvider__init__ classes context v >> ret tt
  | ApiUseContext fuel widget context subscribe required =>
      use_context fuel widget context subscribe required >> ret tt
  end.

(** The worlds a client can build. *)
Inductive reachable : world -> Prop :=
| reachable_empty : reachable (mkWorld [] [] [])
| reachable_step c w w' :
    reachable w -> final (perform c w) = Some w' -> reachable w'.

(** A script of calls, run until one does not end. *)
Fixpoint run_all (script : list api) (w : world) : option world :=
  match script with
  | [] => Some w
  | c :: rest =>
      match final (perform c w) with
      | Some w' => run_all rest w'
      | None => None
      end
  end.

(** [depends w self c]: cell [c] is [self] or is derived from it, through
    one or more derivations registered in [w]. *)
Inductive depends (w : world) (self : cell_id) : cell_id -> Prop :=
| depends_self : depends w self self
| depends_step i st d srcs sel :
    depends w self i -> cells w !! i = Some st ->
    WSourceChange d srcs sel ∈ _watchers st -> depends w self d.

(** The effect methods that [if name: connect_effects(...)] connects. *)
Definition named_effects (widget : widget_id) (wd : Widget)
    (name : option string) : list watcher :=
  match name with
  | Some n =>
      if String.eqb n "" then []
      else map (WEffect widget) (effect_methods (mro wd) (TName n))
  | None => []
  end.

(** The cell a [dispatch] closure assigns, the reducer it applies, and
    whether it assigns through [set] (rather than [replace]). *)
Definition binding (w : world) (d : dispatcher) : option (cell_id * fn_id * bool) :=
  match d with
  | ReducerDispatch c reducer => Some (c, reducer, true)
  | ModelReducerDispatch c reducer => Some (c, reducer, false)
  | ProviderDispatch p store =>
      match kind <$> widgets w !! p with
      | Some (IsStoreProvider _ c) => Some (c, _reducer store, true)
      | _ => None
      end
  end.

(** What is handed to [_set_value] for the reducer's result [r] when the
    cell holds [s]: through [set] a callable result is applied to [s]. *)
Definition assigned (through_set : bool) (s r : value) : value + exn :=
  match through_set, r with
  | true, VFn g => call g [s]
  | _, _ => inl r
  end.

(** The fold of a reducer over a list of actions, as the cell sees it: a
    result that compares equal to the current value is dropped. *)
Fixpoint reduce (through_set : bool) (reducer : fn_id) (s : value)
    (actions : list value) : value + exn :=
  match actions with
  | [] => inl s
  | action :: rest =>
      match call reducer [s; action] with
      | inl r =>
          match assigned through_set s r with
          | inl r' => reduce through_set reducer (if unchanged s r' then s else r') rest
          | inr e => inr e
          end
      | inr e => inr e
      end
  end.

(** What [State.subscribe] does to the cell: a set keeps one entry per
    widget. *)
Definition subscribed (widget : widget_id) (st : State) : State :=
  if bool_decide (widget ∈ _subscribers st) then st
  else set__subscribers (_subscribers st ++ [widget]) st.

(** The watchers that [connect_store_effects] appends for a widget. *)
Definition store_effects (widget : widget_id) (wd : Widget) (store : Store)
    : list watcher :=
  map (WEffect widget) (effect_methods (mro wd) (TStore (store_ref store))).

(** The store's name as the error message shows it. *)
Definition Store_not_found_message (store : Store) (wd : Widget) : string :=
  "Store '" ++ or_unnamed (store_name store) ++
  "' not found in widget tree. Make sure a provider is mounted above " ++
  type_name wd ++ ".".

(** [kept default w w']: [w'] has the events of [w]; the cells of [w]
    have in [w'] the value and the watchers they had, and a cell of [w']
    that [w] did not have holds [default] and has no watcher. *)
Definition kept (default : value) (w w' : world) : Prop :=
  trace w' = trace w /\
  forall c st', cells w' !! c = Some st' ->
    match cells w !! c with
    | Some st => _value st' = _value st /\ _watchers st' = _watchers st
    | None => _value st' = default /\ _watchers st' = []
    end.

(** [derivation w d srcs f]: some cell of [w] carries the watcher of the
    derivation of [d] from [srcs] by [f]. *)
Definition derivation (w : world) (d : cell_id) (srcs : list cell_id) (f : fn_id) : Prop :=
  exists i st, cells w !! i = Some st /\ WSourceChange d srcs f ∈ _watchers st.

(** The arguments a derivation's selector is called with for the values
    read from its sources: the one value for a single source, all of
    them in the order of the source list otherwise. *)
Definition arguments (sources : list cell_id) (values : list value) : list value :=
  if (length sources =? 1)%nat then take 1 values else values.

(** [up_to_date w d srcs f]: the selector returns on the current values of
    the sources, and [d] holds its result or a value that compares equal
    to it. *)
Definition up_to_date (w : world) (d : cell_id) (srcs : list cell_id) (f : fn_id) : Prop :=
  exists values r sd,
    get_values srcs w = Returned values w /\
    call f (arguments srcs values) = inl r /\
    cells w !! d = Some sd /\
    (_value sd = r \/ unchanged (_value sd) r = true).

(** What [use_derived] sets up: the watcher of a derivation is on every
    one of its sources, and a cell is derived in one way only. *)
Definition registered_on_sources (w : world) : Prop :=
  forall d srcs f s,
    derivation w d srcs f -> s ∈ srcs ->
    exists st, cells w !! s = Some st /\ WSourceChange d srcs f ∈ _watchers st.

Definition unique_targets (w : world) : Prop :=
  forall d srcs f srcs' f',
    derivation w d srcs f -> derivation w d srcs' f' -> srcs = srcs' /\ f = f'.

Definition wired (w : world) : Prop :=
  well_formed w /\ registered_on_sources w /\ unique_targets w.

(** A selector that returns values, not callables. *)
Definition returns_values (f : fn_id) : Prop :=
  forall args r, call f args = inl r -> callable r = false.

(** [settles fuel]: an assignment that returns leaves up to date the
    derivations that were, those in [D] apart. *)
Definition settles (fuel : nat) : Prop :=
  forall self v w w' (D : cell_id -> list cell_id -> fn_id -> Prop),
    wired w ->
    (forall d srcs f, derivation w d srcs f -> ~ D d srcs f -> returns_values f) ->
    (forall d srcs f, derivation w d srcs f -> ~ D d srcs f -> d <> self ->
                      up_to_date w d srcs f) ->
    _set_value fuel self v w = Returned tt w' ->
    forall d srcs f, derivation w d srcs f -> ~ D d srcs f -> d <> self ->
                     up_to_date w' d srcs f.

(** [has w i wt]: the watcher [wt] is in the watcher list of cell [i]. *)
Definition has (w : world) (i : cell_id) (wt : watcher) : Prop :=
  exists st, cells w !! i = Some st /\ wt ∈ _watchers st.

(** [grows w w']: no derivation's watcher of [w] is missing in [w']. *)
Definition grows (w w' : world) : Prop :=
  forall i wt, is_user wt = false -> has w i wt -> has w' i wt.

Definition growing {A} (m : M A) : Prop :=
  forall w w', final (m w) = Some w' -> grows w w'.

(** [preserving P m]: in whatever world [m] ends, [P] still holds. *)
Definition preserving (P : world -> Prop) {A} (m : M A) : Prop :=
  forall w w', P w -> final (m w) = Some w' -> P w'.

(** No subscriber set lists a widget twice. *)
Definition subscribed_once (w : world) : Prop :=
  forall c st, cells w !! c = Some st -> NoDup (_subscribers st).

(** How many times the watcher [wt] is in the watcher list of cell [i]. *)
Definition times (w : world) (i : cell_id) (wt : watcher) : nat :=
  match cells w !! i with
  | Some st => count_occ watcher_eq_dec (_watchers st) wt
  | None => 0
  end.

(** A cell carries the watcher of a derivation once for each time it
    occurs in the derivation's source list, and a cell that is no source
    does not carry it. *)
Definition registered_exactly (w : world) : Prop :=
  forall d srcs f i,
    derivation w d srcs f ->
    times w i (WSourceChange d srcs f) = count_occ Nat.eq_dec srcs i.

(** [same_derivations w w']: the cells of [w'] carry the watchers of
    derivations that they carry in [w], as many times. *)
Definition same_derivations (w w' : world) : Prop :=
  forall i wt, is_user wt = false -> times w' i wt = times w i wt.

Definition neutral {A} (m : M A) : Prop :=
  forall w w', final (m w) = Some w' -> same_derivations w w'.

(** [passes c evs w w']: from [w] to [w'] the trace has grown, and [evs]
    are the new events that concern cell [c]. *)
Definition passes (c : cell_id) (evs : list event) (w w' : world) : Prop :=
  trace w' = trace w ++ since w w' /\ about c (since w w') = evs.

(** ** Running the monad *)

Ltac run :=
  unfold State_set, State_set_with, State_value_setter, State_get, bind, ret,
         raise, load, update, emit, lift in *; simpl in *.

Lemma add_events_nil w : add_events [] w = w.
Proof. destruct w; unfold add_events; simpl. by rewrite app_nil_r. Qed.

Lemma add_events_app evs1 evs2 w :
  add_events evs2 (add_events evs1 w) = add_events (evs1 ++ evs2) w.
Proof. unfold add_events; simpl. by rewrite app_assoc. Qed.

Lemma with_event_add e w : with_event e w = add_events [e] w.
Proof. reflexivity. Qed.

Lemma load_cell self st w :
  cells w !! self = Some st -> load self w = Returned st w.
Proof. intros H. unfold load. by rewrite H. Qed.

Lemma bind_Returned {A B} (m : M A) (k : A -> M B) w a w1 :
  m w = Returned a w1 -> bind m k w = k a w1.
Proof. intros H. unfold bind. by rewrite H. Qed.

Lemma with_cells_alter_eq f c w :
  cells (with_cells (alter f c) w) !! c = f <$> cells w !! c.
Proof. simpl. apply list_lookup_alter_eq. Qed.

Lemma with_cells_alter_ne f c k w :
  c <> k -> cells (with_cells (alter f c) w) !! k = cells w !! k.
Proof. intros. simpl. by apply list_lookup_alter_ne. Qed.

Lemma get_values_add_events sources evs values w :
  get_values sources w = Returned values w ->
  get_values sources (add_events evs w) = Returned values (add_events evs w).
Proof.
  revert values. induction sources as [|s rest IH]; intros values H; simpl in *.
  { unfold ret in *. by simplify_eq. }
  unfold bind at 1, State_get, bind at 1, load, ret in H.
  unfold bind at 1, State_get, bind at 1, load, ret. simpl.
  destruct (cells w !! s) as [st|]; [|done].
  unfold bind at 1 in H. unfold bind at 1.
  destruct (get_values rest w) as [vs w1|e w1|] eqn:Hr; [|done|done].
  simpl in H. injection H as <- <-. by rewrite (IH vs eq_refl).
Qed.

Lemma for_each_cons {A} (body : A -> M unit) x l w :
  for_each body (x :: l) w =
  match body x w with
  | Returned _ w1 => for_each body l w1
  | Raised e w1 => Raised e w1
  | Stuck => Stuck
  end.
Proof. reflexivity. Qed.

Lemma for_each_app {A} (body : A -> M unit) l1 l2 w :
  for_each body (l1 ++ l2) w =
  match for_each body l1 w with
  | Returned _ w1 => for_each body l2 w1
  | Raised e w1 => Raised e w1
  | Stuck => Stuck
  end.
Proof.
  revert w. induction l1 as [|x l1 IH]; intros w; simpl; [done|].
  unfold bind. destruct (body x w) as [[] w1|e w1|]; [apply IH|done|done].
Qed.

(** ** User watchers *)

Lemma call_watcher_user sv self old_value new_value wt w :
  is_user wt = true ->
  call_watcher sv self old_value new_value wt w =
  match user_raises wt old_value new_value with
  | Some e => Raised e (add_events [Called self wt old_value new_value] w)
  | None => Returned tt (add_events [Called self wt old_value new_value] w)
  end.
Proof.
  intros Hu. destruct wt; try discriminate; unfold call_watcher; run;
    by destruct (user_raises _ _ _).
Qed.

Lemma for_each_quiet sv self old_value new_value ws w :
  Forall (quiet old_value new_value) ws ->
  for_each (call_watcher sv self old_value new_value) ws w =
  Returned tt (add_events (map (fun wt => Called self wt old_value new_value) ws) w).
Proof.
  intros H. revert w. induction H as [|wt ws [Hu Hq] _ IH]; intros w; simpl.
  - unfold ret. by rewrite add_events_nil.
  - unfold bind. rewrite call_watcher_user, Hq by done.
    rewrite IH, add_events_app. reflexivity.
Qed.

Lemma for_each_posts self old_value new_value subs w :
  for_each (fun widget => emit (Posted widget self old_value new_value)) subs w =
  Returned tt
    (add_events (map (fun widget => Posted widget self old_value new_value) subs) w).
Proof.
  revert w. induction subs as [|x subs IH]; intros w; simpl.
  - unfold ret. by rewrite add_events_nil.
  - unfold bind, emit. rewrite IH, with_event_add, add_events_app. reflexivity.
Qed.

(** ** The equality gate of [_set_value] *)

Lemma _set_value_unchanged fuel self v st w :
  cells w !! self = Some st ->
  unchanged (_value st) v = true ->
  _set_value (S fuel) self v w = Returned tt w.
Proof. intros Hc Hu. simpl. run. by rewrite Hc, Hu. Qed.

Lemma State_set_literal fuel self v w :
  callable v = false -> State_set fuel self v w = _set_value fuel self v w.
Proof. by destruct v. Qed.

(** C2 (as amended): for every cell and every non-callable value [v] that
    the cell's comparison finds equal to the current value, [set(v)]
    returns with the world untouched: no watcher is invoked, no
    notification is posted, and the stored value is the one it was. *)
Theorem set_equal_value_is_noop fuel self v st w :
  cells w !! self = Some st ->
  callable v = false ->
  unchanged (_value st) v = true ->
  State_set (S fuel) self v w = Returned tt w.
Proof.
  intros Hc Hv Hu. rewrite State_set_literal by done.
  by apply _set_value_unchanged with st.
Qed.

(** ** What a cascade may touch

    A change of one cell runs the derivations registered on it, which
    assign their derived cells, and so on.  [frame T Q w w'] says that
    [w'] differs from [w] at most in the values of the cells in [T] and
    in new events satisfying [Q]. *)

Lemma same_shape_lookup w w' i st' :
  same_shape w w' -> cells w' !! i = Some st' ->
  exists st, cells w !! i = Some st /\ shape st = shape st'.
Proof.
  intros [Hs _] Hi.
  assert (map shape (cells w') !! i = Some (shape st')) as H
    by (by rewrite list_lookup_fmap, Hi).
  rewrite Hs, list_lookup_fmap in H.
  destruct (cells w !! i) as [st|]; simpl in H; [|discriminate].
  exists st. split; [done|congruence].
Qed.

Lemma same_shape_lookup_inv w w' i st :
  same_shape w w' -> cells w !! i = Some st ->
  exists st', cells w' !! i = Some st' /\ shape st = shape st'.
Proof.
  intros [Hs _] Hi.
  assert (map shape (cells w) !! i = Some (shape st)) as H
    by (by rewrite list_lookup_fmap, Hi).
  rewrite <- Hs, list_lookup_fmap in H.
  destruct (cells w' !! i) as [st'|]; simpl in H; [|discriminate].
  exists st'. split; [done|congruence].
Qed.

Lemma same_shape_length w w' :
  same_shape w w' -> length (cells w') = length (cells w).
Proof. intros [Hs _]. by rewrite <- (length_map shape), Hs, length_map. Qed.

Lemma shape_watchers st st' : shape st = shape st' -> _watchers st = _watchers st'.
Proof. unfold shape. congruence. Qed.

Lemma frame_refl T Q w : frame T Q w w.
Proof.
  split; [by split|]. split; [done|].
  exists []. split; [by rewrite app_nil_r|constructor].
Qed.

Lemma frame_trans T Q w1 w2 w3 :
  frame T Q w1 w2 -> frame T Q w2 w3 -> frame T Q w1 w3.
Proof.
  intros ([Hs1 Hw1] & Hk1 & evs1 & Ht1 & Hq1) ([Hs2 Hw2] & Hk2 & evs2 & Ht2 & Hq2).
  split; [split; congruence|]. split.
  - intros k Hk. by rewrite Hk2, Hk1.
  - exists (evs1 ++ evs2). split; [by rewrite Ht2, Ht1, app_assoc|].
    by apply Forall_app.
Qed.

Lemma frame_closed T Q w w' : frame T Q w w' -> closed w T -> closed w' T.
Proof.
  intros (Hs & _) Hc i st' d srcs sel Ti Hi Hin.
  destruct (same_shape_lookup _ _ _ _ Hs Hi) as (st & Hst & Hsh).
  apply (Hc i st d srcs sel Ti Hst). by rewrite (shape_watchers _ _ Hsh).
Qed.

Lemma frame_add_events T Q evs w : Forall Q evs -> frame T Q w (add_events evs w).
Proof. intros H. split; [by split|]. split; [done|]. by exists evs. Qed.

Lemma frame_set_value T Q self v w :
  T self -> frame T Q w (with_cells (alter (set__value v) self) w).
Proof.
  intros Ts. split; [split; [simpl|done]|split]; simpl.
  - apply list_eq. intros i. rewrite !list_lookup_fmap.
    destruct (decide (i = self)) as [->|Hne].
    + rewrite list_lookup_alter_eq. destruct (cells w !! self); reflexivity.
    + by rewrite list_lookup_alter_ne by congruence.
  - intros k Hk. apply list_lookup_alter_ne. congruence.
  - exists []. split; [by rewrite app_nil_r|constructor].
Qed.

Lemma final_bind {A B} (m : M A) (k : A -> M B) w w' :
  final (bind m k w) = Some w' ->
  (exists e, m w = Raised e w') \/
  (exists a w1, m w = Returned a w1 /\ final (k a w1) = Some w').
Proof.
  unfold bind. destruct (m w) as [a w1|e w1|]; simpl; intros H.
  - right; eauto.
  - left; exists e; congruence.
  - discriminate.
Qed.

(** Reading does not change the world. *)
Lemma get_values_pure sources w :
  match get_values sources w with
  | Returned vs w' => w' = w /\ length vs = length sources
  | Raised _ _ => False
  | Stuck => True
  end.
Proof.
  induction sources as [|s rest IH]; simpl; [done|]. run.
  destruct (cells w !! s); [|done].
  destruct (get_values rest w) as [vs w'|e w'|]; [|done|done].
  destruct IH as [-> Hl]. simpl. auto.
Qed.

Lemma apply_selector_pure selector sources values w w' :
  final (apply_selector selector sources values w) = Some w' -> w' = w.
Proof.
  unfold apply_selector.
  destruct (length sources =? 1)%nat; [destruct values|];
    try destruct (call _ _); simpl; unfold stuck; simpl; congruence.
Qed.

Lemma State_set_with_frame T Q sv d v w w' :
  (forall v w w', closed w T -> final (sv d v w) = Some w' -> frame T Q w w') ->
  closed w T ->
  final (State_set_with sv d v w) = Some w' -> frame T Q w w'.
Proof.
  intros Hsv Hc H. destruct v; try (by apply Hsv in H).
  unfold State_set_with in H. run.
  destruct (cells w !! d); [|done].
  destruct (call f _); simpl in H; [by apply Hsv in H|].
  simplify_eq. apply frame_refl.
Qed.

Lemma call_watcher_frame_after T Q sv self old_value new_value wt w w' :
  (forall d v w w', T d -> closed w T -> final (sv d v w) = Some w' -> frame T Q w w') ->
  closed w T ->
  (forall d srcs sel, wt = WSourceChange d srcs sel -> T d) ->
  final (call_watcher sv self old_value new_value wt w) = Some w' ->
  frame T Q (add_events [Called self wt old_value new_value] w) w'.
Proof.
  intros Hsv Hc Ht H.
  destruct (is_user wt) eqn:Hu.
  { rewrite call_watcher_user in H by done.
    destruct (user_raises _ _ _); simpl in H; simplify_eq; apply frame_refl. }
  destruct wt as [| |d srcs sel]; try discriminate.
  unfold call_watcher in H.
  apply final_bind in H as [[e He]|(a & w1 & Hm & H)]; [discriminate|].
  unfold emit in Hm. simplify_eq. rewrite with_event_add in H.
  set (w1 := add_events _ w) in *.
  assert (closed w1 T) as Hc1 by done.
  apply final_bind in H as [[e He]|(vs & w2 & Hm & H)].
  { pose proof (get_values_pure srcs w1) as Hp. by rewrite He in Hp. }
  pose proof (get_values_pure srcs w1) as Hp. rewrite Hm in Hp. destruct Hp as [-> _].
  apply final_bind in H as [[e He]|(r & w2 & Hm2 & H)].
  { assert (w' = w1) as -> by (eapply apply_selector_pure; by rewrite He).
    apply frame_refl. }
  assert (w2 = w1) as -> by (eapply apply_selector_pure; by rewrite Hm2).
  eapply State_set_with_frame; [|exact Hc1|exact H].
  intros v0 w0 w0' Hc0 H0. eapply Hsv; eauto.
Qed.

Lemma call_watcher_frame T Q sv self old_value new_value wt w w' :
  (forall d v w w', T d -> closed w T -> final (sv d v w) = Some w' -> frame T Q w w') ->
  closed w T ->
  Q (Called self wt old_value new_value) ->
  (forall d srcs sel, wt = WSourceChange d srcs sel -> T d) ->
  final (call_watcher sv self old_value new_value wt w) = Some w' ->
  frame T Q w w'.
Proof.
  intros Hsv Hc Hq Ht H. eapply frame_trans.
  - apply (frame_add_events T Q [Called self wt old_value new_value]). by constructor.
  - eapply call_watcher_frame_after; eauto.
Qed.

Lemma watchers_frame T Q sv self old_value new_value :
  (forall d v w w', T d -> closed w T -> final (sv d v w) = Some w' -> frame T Q w w') ->
  forall ws w w',
    closed w T ->
    (forall wt, wt ∈ ws -> Q (Called self wt old_value new_value)) ->
    (forall d srcs sel, WSourceChange d srcs sel ∈ ws -> T d) ->
    final (for_each (call_watcher sv self old_value new_value) ws w) = Some w' ->
    frame T Q w w'.
Proof.
  intros Hsv. induction ws as [|wt ws IH]; intros w w' Hc Hq Ht H; simpl in H.
  { unfold ret in H. simpl in H. simplify_eq. apply frame_refl. }
  apply final_bind in H as [[e He]|([] & w1 & Hm & H)].
  - eapply call_watcher_frame; eauto.
    + apply Hq. by left.
    + intros d srcs sel ->. eapply Ht. by left.
    + by rewrite He.
  - assert (frame T Q w w1) as F1.
    { eapply call_watcher_frame; eauto.
      + apply Hq. by left.
      + intros d srcs sel ->. eapply Ht. by left.
      + by rewrite Hm. }
    eapply frame_trans; [exact F1|].
    apply IH; [by eapply frame_closed| | |done].
    + intros wt' Hin. apply Hq. by right.
    + intros d srcs sel Hin. eapply Ht. by right.
Qed.

Lemma posts_frame T Q self old_value new_value subs w w' :
  (forall widget, Q (Posted widget self old_value new_value)) ->
  final (for_each (fun widget => emit (Posted widget self old_value new_value)) subs w)
    = Some w' ->
  frame T Q w w'.
Proof.
  intros Hq. rewrite for_each_posts. simpl. intros [= <-].
  apply frame_add_events. apply Forall_fmap, Forall_true. intros x. apply Hq.
Qed.

(** The frame of [_set_value]: the cell itself and what derives from it. *)
Lemma _set_value_frame T Q :
  (forall ev, T (cell_of ev) -> Q ev) ->
  forall fuel self v w w',
    T self -> closed w T ->
    final (_set_value fuel self v w) = Some w' -> frame T Q w w'.
Proof.
  intros HQ. induction fuel as [|fuel IH]; intros self v w w' Ts Hc H; [done|].
  simpl in H. apply final_bind in H as [[e He]|(st & w1 & Hm & H)].
  { unfold load in He. by destruct (cells w !! self). }
  unfold load in Hm. destruct (cells w !! self) as [st0|] eqn:Hst; simplify_eq.
  destruct (unchanged _ _).
  { unfold ret in H. simpl in H. simplify_eq. apply frame_refl. }
  apply final_bind in H as [[e He]|([] & w2 & Hm & H)]; [discriminate|].
  unfold update in Hm. simplify_eq.
  assert (frame T Q w1 (with_cells (alter (set__value v) self) w1)) as F1
    by by apply frame_set_value.
  eapply frame_trans; [exact F1|].
  assert (closed (with_cells (alter (set__value v) self) w1) T) as Hc1
    by by eapply frame_closed.
  assert (forall w0 w0',
    closed w0 T ->
    final (for_each (call_watcher (_set_value fuel) self (_value st) v)
                    (_watchers st) w0) = Some w0' -> frame T Q w0 w0') as Hws.
  { intros w0 w0' Hc0 H0. eapply watchers_frame; [|exact Hc0| | |exact H0].
    - intros d v0 wa wb Td Hca Ha. by eapply IH.
    - intros wt _. by apply HQ.
    - intros d srcs sel Hin. by eapply (Hc self st d srcs sel). }
  apply final_bind in H as [[e He]|([] & w3 & Hm & H)].
  { apply Hws; [done|]. by rewrite He. }
  eapply frame_trans; [apply Hws; [done|by rewrite Hm]|].
  eapply posts_frame; [|exact H]. intros widget. by apply HQ.
Qed.

(** ** Well-formed worlds

    A derivation is registered on cells that exist when the derived cell
    is created, so its target is a later cell; all cells it mentions
    exist. *)

Lemma well_formed_same_shape w w' :
  same_shape w w' -> well_formed w -> well_formed w'.
Proof.
  intros Hs Hwf i st' d srcs sel Hi Hin.
  destruct (same_shape_lookup _ _ _ _ Hs Hi) as (st & Hst & Hsh).
  rewrite (same_shape_length _ _ Hs).
  apply (Hwf i st d srcs sel Hst). by rewrite (shape_watchers _ _ Hsh).
Qed.

Lemma well_formed_closed_later w self : well_formed w -> closed w (later self).
Proof.
  intros Hwf i st d srcs sel Ti Hi Hin. unfold later in *.
  destruct (Hwf i st d srcs sel Hi Hin) as [? _]. lia.
Qed.

Lemma frame_since T Q w w' :
  frame T Q w w' -> trace w' = trace w ++ since w w' /\ Forall Q (since w w').
Proof.
  intros (_ & _ & evs & Ht & Hq). unfold since.
  rewrite Ht, drop_app_length. done.
Qed.

Lemma since_trans w1 w2 w3 :
  trace w2 = trace w1 ++ since w1 w2 ->
  trace w3 = trace w2 ++ since w2 w3 ->
  since w1 w3 = since w1 w2 ++ since w2 w3.
Proof.
  intros H12 H23. unfold since at 1. rewrite H23, H12 at 1.
  by rewrite <- app_assoc, drop_app_length.
Qed.

Lemma about_on_later self evs : Forall (on_later self) evs -> about self evs = [].
Proof.
  induction 1 as [|ev evs Hev _ IH]; [done|]. unfold about in *.
  rewrite filter_cons_False; [done|]. unfold on_later in Hev. lia.
Qed.

Lemma since_add_events evs w : since w (add_events evs w) = evs.
Proof. unfold since. simpl. by rewrite drop_app_length. Qed.

Lemma since_refl w : since w w = [].
Proof. unfold since. by rewrite drop_all. Qed.

(** The frame of a nested [_set_value], specialised to later cells. *)
Lemma _set_value_later self fuel d v w w' :
  self < d -> well_formed w ->
  final (_set_value fuel d v w) = Some w' ->
  frame (later self) (on_later self) w w'.
Proof.
  intros Hd Hwf H.
  eapply (_set_value_frame (later self) (on_later self)); eauto.
  by apply well_formed_closed_later.
Qed.

(** One watcher of [self], run in a well-formed world. *)
Lemma call_watcher_later fuel self st old_value new_value wt w w' :
  well_formed w -> cells w !! self = Some st -> wt ∈ _watchers st ->
  final (call_watcher (_set_value fuel) self old_value new_value wt w) = Some w' ->
  frame (later self) (on_later self)
        (add_events [Called self wt old_value new_value] w) w'.
Proof.
  intros Hwf Hst Hin H.
  eapply call_watcher_frame_after; [| | |exact H].
  - intros d v0 wa wb Td Hca Ha.
    eapply (_set_value_frame (later self) (on_later self)); eauto.
  - by apply well_formed_closed_later.
  - intros d srcs sel ->. unfold later.
    by destruct (Hwf self st d srcs sel Hst Hin) as [? _].
Qed.

Lemma ran_refl self w : ran self [] w w.
Proof.
  split; [by split|]. split; [done|].
  rewrite since_refl, app_nil_r. done.
Qed.

Lemma ran_trans self evs1 evs2 w1 w2 w3 :
  ran self evs1 w1 w2 -> ran self evs2 w2 w3 -> ran self (evs1 ++ evs2) w1 w3.
Proof.
  intros ([Hs1 Hw1] & Hk1 & Ht1 & Ha1) ([Hs2 Hw2] & Hk2 & Ht2 & Ha2).
  split; [split; congruence|]. split; [|split].
  - intros k Hk. by rewrite Hk2, Hk1.
  - rewrite (since_trans w1 w2 w3) by done. rewrite Ht2, Ht1 at 1.
    by rewrite app_assoc.
  - rewrite (since_trans w1 w2 w3) by done. unfold about in *.
    by rewrite filter_app, Ha1, Ha2.
Qed.

Lemma ran_frame_later self w w' :
  frame (later self) (on_later self) w w' -> ran self [] w w'.
Proof.
  intros F. destruct (frame_since _ _ _ _ F) as [Ht Hq].
  destruct F as (Hs & Hk & _). split; [done|]. split; [|split]; [|done|].
  - intros k Hle. apply Hk. unfold later. lia.
  - by apply about_on_later.
Qed.

Lemma ran_add_event self ev w :
  cell_of ev = self -> ran self [ev] w (add_events [ev] w).
Proof.
  intros He. split; [by split|]. split; [done|].
  rewrite since_add_events. split; [done|].
  unfold about. by rewrite filter_cons_True.
Qed.

Lemma call_watcher_ran fuel self st old_value new_value wt w w' :
  well_formed w -> cells w !! self = Some st -> wt ∈ _watchers st ->
  final (call_watcher (_set_value fuel) self old_value new_value wt w) = Some w' ->
  ran self [Called self wt old_value new_value] w w'.
Proof.
  intros Hwf Hst Hin H.
  apply (ran_trans self [_] [] w (add_events [Called self wt old_value new_value] w)).
  - by apply ran_add_event.
  - apply ran_frame_later. by eapply call_watcher_later.
Qed.

Lemma ran_well_formed self evs w w' : ran self evs w w' -> well_formed w -> well_formed w'.
Proof. intros [Hs _]. by apply well_formed_same_shape. Qed.

Lemma ran_lookup self evs w w' :
  ran self evs w w' -> cells w' !! self = cells w !! self.
Proof. intros (_ & Hk & _). by apply Hk. Qed.

Lemma watchers_ran fuel self st old_value new_value ws :
  forall w w',
    well_formed w -> cells w !! self = Some st ->
    (forall wt, wt ∈ ws -> wt ∈ _watchers st) ->
    for_each (call_watcher (_set_value fuel) self old_value new_value) ws w
      = Returned tt w' ->
    ran self (map (fun wt => Called self wt old_value new_value) ws) w w'.
Proof.
  induction ws as [|wt ws IH]; intros w w' Hwf Hst Hsub H; simpl in H.
  { unfold ret in H. simplify_eq. apply ran_refl. }
  unfold bind in H.
  destruct (call_watcher _ _ _ _ wt w) as [[] w1|e w1|] eqn:Hcw; try discriminate.
  assert (ran self [Called self wt old_value new_value] w w1) as R1.
  { eapply call_watcher_ran; eauto.
    - apply Hsub. by left.
    - by rewrite Hcw. }
  apply (ran_trans self [_] _ w w1 w'); [done|].
  apply IH; [by eapply ran_well_formed| |intros x Hx; apply Hsub; by right|done].
  by rewrite (ran_lookup _ _ _ _ R1).
Qed.

(** [_set_value] on a value that differs: the value is assigned, then the
    watchers run, then the subscribers are notified. *)
Lemma _set_value_changed fuel self v st w :
  cells w !! self = Some st ->
  unchanged (_value st) v = false ->
  _set_value (S fuel) self v w =
  (for_each (call_watcher (_set_value fuel) self (_value st) v) (_watchers st) >>
   for_each (fun widget => emit (Posted widget self (_value st) v)) (_subscribers st))
    (with_cells (alter (set__value v) self) w).
Proof. intros Hst Hu. simpl. run. by rewrite Hst, Hu. Qed.

Lemma committed_lookup self v st w :
  cells w !! self = Some st ->
  cells (with_cells (alter (set__value v) self) w) !! self = Some (set__value v st).
Proof. intros H. simpl. by rewrite list_lookup_alter_eq, H. Qed.

Lemma committed_well_formed self v w :
  well_formed w -> well_formed (with_cells (alter (set__value v) self) w).
Proof.
  apply well_formed_same_shape.
  by destruct (frame_set_value (fun _ => True) (fun _ => True) self v w I) as [? _].
Qed.

Lemma watchers_final_ran fuel self st old_value new_value ws :
  forall w w',
    well_formed w -> cells w !! self = Some st ->
    (forall wt, wt ∈ ws -> wt ∈ _watchers st) ->
    final (for_each (call_watcher (_set_value fuel) self old_value new_value) ws w)
      = Some w' ->
    exists evs, ran self evs w w'.
Proof.
  induction ws as [|wt ws IH]; intros w w' Hwf Hst Hsub H; simpl in H.
  { unfold ret in H. simpl in H. simplify_eq. eexists. apply ran_refl. }
  apply final_bind in H as [[e He]|([] & w1 & Hm & H)].
  - eexists. eapply call_watcher_ran; eauto.
    + apply Hsub. by left.
    + by rewrite He.
  - assert (ran self [Called self wt old_value new_value] w w1) as R1.
    { eapply call_watcher_ran; eauto.
      - apply Hsub. by left.
      - by rewrite Hm. }
    destruct (IH w1 w') as [evs R2];
      [by eapply ran_well_formed| |intros x Hx; apply Hsub; by right|done|].
    { by rewrite (ran_lookup _ _ _ _ R1). }
    eexists. eapply ran_trans; eauto.
Qed.

Lemma ran_posts self old_value new_value subs w :
  ran self (map (fun widget => Posted widget self old_value new_value) subs) w
    (add_events (map (fun widget => Posted widget self old_value new_value) subs) w).
Proof.
  split; [by split|]. split; [done|]. rewrite since_add_events. split; [done|].
  unfold about. induction subs as [|x subs IH]; [done|].
  simpl. by rewrite filter_cons_True, IH.
Qed.

(** An accepted value is the cell's value in whatever world the call ends:
    the cascade it starts only assigns later cells. *)
Lemma _set_value_commits fuel self v st w w' :
  well_formed w ->
  cells w !! self = Some st ->
  unchanged (_value st) v = false ->
  final (_set_value (S fuel) self v w) = Some w' ->
  State_get self w' = Returned v w' /\ well_formed w'.
Proof.
  intros Hwf Hst Hu H.
  rewrite (_set_value_changed fuel self v st) in H by done.
  set (w1 := with_cells (alter (set__value v) self) w) in *.
  assert (cells w1 !! self = Some (set__value v st)) as Hst1
    by by apply committed_lookup.
  assert (well_formed w1) as Hwf1 by by apply committed_well_formed.
  assert (exists evs, ran self evs w1 w') as [evs R].
  { apply final_bind in H as [[e He]|([] & w2 & Hm & H)].
    - apply (watchers_final_ran fuel self (set__value v st) (_value st) v
               (_watchers st) w1 w'); [done|done|done|by rewrite He].
    - destruct (watchers_final_ran fuel self (set__value v st) (_value st) v
                  (_watchers st) w1 w2) as [evs R1]; [done|done|done|by rewrite Hm|].
      rewrite for_each_posts in H. simpl in H. simplify_eq.
      eexists. eapply ran_trans; [exact R1|apply ran_posts]. }
  split; [|by eapply ran_well_formed].
  unfold State_get, bind, load, ret. by rewrite (ran_lookup _ _ _ _ R), Hst1.
Qed.

(** ** Termination: fuel that covers the later cells is enough *)

Lemma get_values_valid sources w :
  Forall (fun s => s < length (cells w)) sources ->
  exists vs, get_values sources w = Returned vs w /\ length vs = length sources.
Proof.
  induction 1 as [|s rest Hs _ [vs [IH Hl]]]; simpl; [by exists []|].
  apply lookup_lt_is_Some in Hs as [st Hst]. run. rewrite Hst, IH.
  exists (_value st :: vs). simpl. auto.
Qed.

Lemma apply_selector_settles selector sources values w :
  length values = length sources ->
  exists w', final (apply_selector selector sources values w) = Some w'.
Proof.
  intros Hl. unfold apply_selector.
  destruct (length sources =? 1)%nat eqn:E.
  - apply Nat.eqb_eq in E. destruct values; [simpl in Hl; lia|].
    destruct (call _ _); simpl; eauto.
  - destruct (call _ _); simpl; eauto.
Qed.

Lemma _set_value_total fuel :
  forall self v w,
    well_formed w -> self < length (cells w) ->
    length (cells w) - self <= fuel ->
    exists w', final (_set_value fuel self v w) = Some w'.
Proof.
  induction fuel as [|fuel IH]; intros self v w Hwf Hlt Hf; [lia|].
  destruct (lookup_lt_is_Some_2 _ _ Hlt) as [st Hst].
  destruct (unchanged (_value st) v) eqn:Hu.
  { rewrite (_set_value_unchanged fuel self v st) by done. simpl. eauto. }
  rewrite (_set_value_changed fuel self v st) by done.
  set (w1 := with_cells (alter (set__value v) self) w).
  assert (cells w1 !! self = Some (set__value v st)) as Hst1
    by by apply committed_lookup.
  assert (well_formed w1) as Hwf1 by by apply committed_well_formed.
  assert (length (cells w1) = length (cells w)) as Hlen
    by (unfold w1; simpl; by rewrite length_alter).
  assert (forall ws w0,
    well_formed w0 -> cells w0 !! self = Some (set__value v st) ->
    length (cells w0) = length (cells w) ->
    (forall wt, wt ∈ ws -> wt ∈ _watchers st) ->
    exists w', final (for_each (call_watcher (_set_value fuel) self (_value st) v)
                               ws w0) = Some w') as Hloop.
  { induction ws as [|wt ws IHws]; intros w0 Hwf0 Hst0 Hlen0 Hsub; simpl.
    { unfold ret. simpl. eauto. }
    assert (wt ∈ _watchers st) as Hwt by (apply Hsub; by left).
    assert (exists w0', final (call_watcher (_set_value fuel) self (_value st) v wt w0)
                        = Some w0') as [w0' Hcw].
    { destruct (is_user wt) eqn:Huser.
      { rewrite call_watcher_user by done. destruct (user_raises _ _ _); simpl; eauto. }
      destruct wt as [| |d srcs sel]; try discriminate.
      destruct (Hwf0 self _ d srcs sel Hst0 Hwt) as (Hd1 & Hd2 & Hsrcs).
      unfold call_watcher. unfold bind at 1. unfold emit. rewrite with_event_add.
      set (wa := add_events _ w0).
      destruct (get_values_valid srcs wa) as (vs & Hgv & Hvl); [done|].
      unfold bind at 1. rewrite Hgv.
      destruct (apply_selector_settles sel srcs vs wa Hvl) as [wb Hsel].
      unfold bind at 1.
      destruct (apply_selector sel srcs vs wa) as [r wb'|e wb'|] eqn:Hap;
        [|simpl; eauto|discriminate].
      assert (wb' = wa) as -> by (eapply apply_selector_pure; by rewrite Hap).
      assert (forall r', exists w', final (_set_value fuel d r' wa) = Some w') as Hnest.
      { intros r'. apply IH; [done|done|]. simpl in *. lia. }
      destruct (lookup_lt_is_Some_2 (cells wa) d Hd2) as [sd Hsd].
      destruct r; try apply Hnest.
      unfold State_set_with. run. rewrite Hsd.
      destruct (call f _); simpl; [apply Hnest|eauto]. }
    unfold bind.
    destruct (call_watcher _ _ _ _ wt w0) as [[] wn|e wn|] eqn:Hcw'; simpl in *;
      [|eauto|discriminate].
    assert (ran self [Called self wt (_value st) v] w0 wn) as R.
    { eapply call_watcher_ran; eauto. by rewrite Hcw'. }
    apply IHws.
    - by eapply ran_well_formed.
    - by rewrite (ran_lookup _ _ _ _ R).
    - destruct R as [Hs _]. by rewrite (same_shape_length _ _ Hs).
    - intros x Hx. apply Hsub. by right. }
  destruct (Hloop (_watchers st) w1) as [w2 H2]; [done|done|done|done|].
  unfold bind.
  destruct (for_each _ (_watchers st) w1) as [[] w2'|e w2'|]; simpl in *; [|eauto|done].
  rewrite for_each_posts. simpl. eauto.
Qed.

(** C10: when a watcher raises during an accepted change (the watchers
    registered before it having returned), [set] raises that exception in
    the world the watcher left: the new value is committed and [get]
    returns it, the only events about the cell are the calls of the
    watchers up to the raising one, so the watchers registered after it
    are not called and no subscriber is notified. *)
Theorem watcher_failure_after_commit fuel self v st ws1 wt ws2 e w w2 w3 :
  well_formed w ->
  cells w !! self = Some st ->
  callable v = false ->
  unchanged (_value st) v = false ->
  _watchers st = ws1 ++ wt :: ws2 ->
  for_each (call_watcher (_set_value fuel) self (_value st) v) ws1
    (with_cells (alter (set__value v) self) w) = Returned tt w2 ->
  call_watcher (_set_value fuel) self (_value st) v wt w2 = Raised e w3 ->
  State_set (S fuel) self v w = Raised e w3 /\
  State_get self w3 = Returned v w3 /\
  about self (since w w3) =
    map (fun x => Called self x (_value st) v) (ws1 ++ [wt]).
Proof.
  intros Hwf Hst Hv Hu Hws H1 H2.
  set (w1 := with_cells (alter (set__value v) self) w) in *.
  assert (cells w1 !! self = Some (set__value v st)) as Hst1
    by by apply committed_lookup.
  assert (well_formed w1) as Hwf1 by by apply committed_well_formed.
  assert (ran self (map (fun x => Called self x (_value st) v) ws1) w1 w2) as R1.
  { eapply watchers_ran; eauto. intros x Hx. simpl. rewrite Hws.
    apply elem_of_app. by left. }
  assert (ran self [Called self wt (_value st) v] w2 w3) as R2.
  { eapply call_watcher_ran.
    - by eapply ran_well_formed.
    - by rewrite (ran_lookup _ _ _ _ R1).
    - simpl. rewrite Hws. apply elem_of_app. right. by left.
    - by rewrite H2. }
  pose proof (ran_trans _ _ _ _ _ _ R1 R2) as R.
  split; [|split].
  - rewrite State_set_literal by done.
    rewrite (_set_value_changed fuel self v st) by done. fold w1.
    unfold bind at 1. rewrite Hws, for_each_app, H1. simpl.
    unfold bind at 1. by rewrite H2.
  - unfold State_get, bind, load, ret.
    by rewrite (ran_lookup _ _ _ _ R), Hst1.
  - rewrite map_app. simpl.
    destruct R as (_ & _ & Ht & Ha). rewrite <- Ha.
    unfold since. simpl. done.
Qed.

Lemma apply_selector_arguments selector sources values :
  length values = length sources ->
  apply_selector selector sources values =
  lift (call selector (arguments sources values)).
Proof.
  intros Hl. unfold apply_selector, arguments.
  destruct (length sources =? 1)%nat eqn:E; [|done].
  apply Nat.eqb_eq in E. rewrite E in Hl.
  destruct values as [|v0 [|v1 rest]]; simpl in Hl; try lia. done.
Qed.

(** C3 (as amended): an updater handed to [set], or the transition
    function of a [dispatch] closure, that raises on the current value
    makes the call raise that exception with the world as it was: the
    cell keeps its value and nothing is invoked or posted.  A selector
    that raises when its derivation is created makes [use_derived] raise
    with nothing created.  A selector that raises when a source changes
    makes that source's [set] raise the exception, and no cell is assigned
    by the failed recomputation, so the derived cell keeps its value; but
    the source has been assigned by then and [get] returns the new value,
    the watchers registered before the derivation's have run, and the
    watchers after it and the notifications are skipped. *)
Theorem raising_function_is_not_applied fuel self st w :
  cells w !! self = Some st ->
  (forall f e, call f [_value st] = inr e ->
     State_set fuel self (VFn f) w = Raised e w) /\
  (forall reducer action e, call reducer [_value st; action] = inr e ->
     dispatch fuel (ReducerDispatch self reducer) action w = Raised e w /\
     dispatch fuel (ModelReducerDispatch self reducer) action w = Raised e w) /\
  (forall p pw store s0 action e,
     widgets w !! p = Some pw -> kind pw = IsStoreProvider s0 self ->
     call (_reducer store) [_value st; action] = inr e ->
     dispatch fuel (ProviderDispatch p store) action w = Raised e w) /\
  (forall widget sources selector name values e,
     get_values sources w = Returned values w ->
     call selector (arguments sources values) = inr e ->
     use_derived widget sources selector name w = Raised e w) /\
  (forall v d srcs sel ws1 ws2 w2 values e,
     well_formed w ->
     callable v = false -> unchanged (_value st) v = false ->
     _watchers st = ws1 ++ WSourceChange d srcs sel :: ws2 ->
     for_each (call_watcher (_set_value fuel) self (_value st) v) ws1
       (with_cells (alter (set__value v) self) w) = Returned tt w2 ->
     get_values srcs w2 = Returned values w2 ->
     call sel (arguments srcs values) = inr e ->
     let w3 := add_events [Called self (WSourceChange d srcs sel) (_value st) v] w2 in
     State_set (S fuel) self v w = Raised e w3 /\
     State_get self w3 = Returned v w3 /\
     cells w3 !! d = cells w2 !! d /\
     (Forall (quiet (_value st) v) ws1 ->
      cells w3 = alter (set__value v) self (cells w) /\
      trace w3 = trace w ++
                 map (fun wt => Called self wt (_value st) v)
                     (ws1 ++ [WSourceChange d srcs sel]))).
Proof.
  intros Hc. split; [|split; [|split; [|split]]].
  - intros f e He. unfold State_set, State_set_with, bind, load, lift.
    by rewrite Hc, He.
  - intros reducer action e He. unfold dispatch, State_get, bind, load, ret, lift.
    by rewrite Hc, He.
  - intros p pw store s0 action e Hp Hk He.
    unfold dispatch, load_widget, bind at 1. rewrite Hp, Hk.
    unfold State_get, bind, load, ret, lift. by rewrite Hc, He.
  - intros widget sources selector name values e Hgv He.
    pose proof (get_values_pure sources w) as Hp. rewrite Hgv in Hp.
    destruct Hp as [_ Hl].
    unfold use_derived. rewrite (bind_Returned _ _ w values w) by done.
    unfold bind. by rewrite apply_selector_arguments, He.
  - intros v d srcs sel ws1 ws2 w2 values e Hwf Hv Hu Hws H1 Hgv He w3.
    set (W := WSourceChange d srcs sel) in *.
    set (w1 := with_cells (alter (set__value v) self) w) in *.
    assert (cells w1 !! self = Some (set__value v st)) as Hst1
      by by apply committed_lookup.
    assert (well_formed w1) as Hwf1 by by apply committed_well_formed.
    assert (ran self (map (fun x => Called self x (_value st) v) ws1) w1 w2) as R1.
    { eapply watchers_ran; eauto. intros x Hx. simpl. rewrite Hws.
      apply elem_of_app. by left. }
    pose proof (get_values_pure srcs w2) as Hp. rewrite Hgv in Hp.
    destruct Hp as [_ Hl].
    assert (call_watcher (_set_value fuel) self (_value st) v W w2 = Raised e w3) as H2.
    { unfold call_watcher, W.
      rewrite (bind_Returned _ _ w2 tt w3) by done.
      rewrite (bind_Returned _ _ w3 values w3) by by apply get_values_add_events.
      unfold bind. by rewrite apply_selector_arguments, He. }
    split; [|split; [|split; [done|]]].
    + rewrite State_set_literal by done.
      rewrite (_set_value_changed fuel self v st) by done. fold w1.
      unfold bind at 1. rewrite Hws, for_each_app, H1. simpl.
      unfold bind at 1. by rewrite H2.
    + unfold State_get, bind, load, ret. unfold w3. simpl.
      by rewrite (ran_lookup _ _ _ _ R1), Hst1.
    + intros Hq. rewrite for_each_quiet in H1 by done. simplify_eq.
      split; [done|]. simpl. by rewrite map_app, <- app_assoc.
Qed.

(** C9 (as amended): a callable handed to [set] is run as an updater:
    the call is the assignment of its result [r], so that when [r]
    differs from the current value it is [r] that the cell holds
    afterwards, whatever [r] is; the [value] setter makes no such test and
    assigns a callable as it is. *)
Theorem set_callable_runs_updater fuel self st f w :
  well_formed w ->
  cells w !! self = Some st ->
  length (cells w) - self <= S fuel ->
  (forall r, call f [_value st] = inl r ->
     State_set (S fuel) self (VFn f) w = State_value_setter (S fuel) self r w /\
     (unchanged (_value st) r = false ->
      exists w', final (State_set (S fuel) self (VFn f) w) = Some w' /\
                 State_get self w' = Returned r w')) /\
  (unchanged (_value st) (VFn f) = false ->
   exists w', final (State_value_setter (S fuel) self (VFn f) w) = Some w' /\
              State_get self w' = Returned (VFn f) w').
Proof.
  intros Hwf Hst Hf.
  assert (self < length (cells w)) as Hlt by (by eapply lookup_lt_Some).
  assert (forall v, unchanged (_value st) v = false ->
    exists w', final (_set_value (S fuel) self v w) = Some w' /\
               State_get self w' = Returned v w') as Hset.
  { intros v Hu.
    destruct (_set_value_total (S fuel) self v w Hwf Hlt Hf) as [w' Hw'].
    exists w'. split; [done|].
    by destruct (_set_value_commits fuel self v st w w' Hwf Hst Hu Hw'). }
  split.
  - intros r Hr.
    assert (State_set (S fuel) self (VFn f) w = _set_value (S fuel) self r w) as E.
    { unfold State_set, State_set_with, bind, load, lift. by rewrite Hst, Hr. }
    split; [exact E|]. intros Hu. rewrite E. by apply Hset.
  - apply Hset.
Qed.

(** ** [watch] and [unwatch] *)

Lemma list_remove_first_None (x : watcher) l :
  x ∉ l -> list_remove_first x l = None.
Proof.
  induction l as [|y l IH]; intros Hx; simpl; [done|].
  apply not_elem_of_cons in Hx as [Hne Hx].
  rewrite decide_False by congruence. by rewrite IH.
Qed.

Lemma unwatch_run self callback st w :
  cells w !! self = Some st ->
  unwatch self callback w =
  match list_remove_first callback (_watchers st) with
  | Some ws => Returned tt (with_cells (alter (set__watchers ws) self) w)
  | None => Raised (ValueError "list.remove(x): x not in list") w
  end.
Proof.
  intros Hst. unfold unwatch, bind, load. rewrite Hst.
  by destruct (list_remove_first _ _).
Qed.

Lemma list_remove_first_split (x : watcher) l1 l2 :
  x ∉ l1 -> list_remove_first x (l1 ++ x :: l2) = Some (l1 ++ l2).
Proof.
  induction l1 as [|y l1 IH]; intros Hx; simpl.
  - by rewrite decide_True.
  - apply not_elem_of_cons in Hx as [Hne Hx].
    rewrite decide_False by congruence. by rewrite IH.
Qed.

Lemma alter_set__watchers_twice self ws ws' (w : world) :
  with_cells (alter (set__watchers ws') self)
    (with_cells (alter (add_watchers ws) self) w) =
  with_cells (alter (set__watchers ws') self) w.
Proof.
  destruct w as [cs wd tr]. unfold with_cells. simpl. f_equal.
  apply list_eq. intros i. destruct (decide (i = self)) as [->|Hne].
  - rewrite !list_lookup_alter_eq. by destruct (cs !! self).
  - by rewrite !list_lookup_alter_ne by congruence.
Qed.

Lemma alter_set__watchers_same self st (w : world) :
  cells w !! self = Some st ->
  with_cells (alter (set__watchers (_watchers st)) self) w = w.
Proof.
  intros Hst. destruct w as [cs wd tr]. unfold with_cells. simpl in *. f_equal.
  apply list_eq. intros i. destruct (decide (i = self)) as [->|Hne].
  - rewrite list_lookup_alter_eq, Hst. by destruct st.
  - by rewrite list_lookup_alter_ne by congruence.
Qed.

(** C5 (as amended): [watch(callback)] appends the callback and returns a
    closure that, in whatever state of the list it is called, removes the
    first entry equal to the callback and keeps the others, and raises
    [ValueError] (changing nothing) when there is none.  So when the
    callback was already registered it is the earlier registration that
    goes.  When it was not, one call of the closure restores the cell and
    a second call raises; and if the callback has been registered again
    in between, the second call removes that later registration, whose
    own closure then raises. *)
Theorem unwatch_removes_first_equal self st callback w :
  cells w !! self = Some st ->
  exists u w1,
    State_watch self callback w = Returned u w1 /\
    w1 = with_cells (alter (add_watchers [callback]) self) w /\
    (forall w2 st2 l1 l2,
       cells w2 !! self = Some st2 ->
       _watchers st2 = l1 ++ callback :: l2 -> callback ∉ l1 ->
       u w2 = Returned tt (with_cells (alter (set__watchers (l1 ++ l2)) self) w2)) /\
    (forall w2 st2,
       cells w2 !! self = Some st2 -> callback ∉ _watchers st2 ->
       u w2 = Raised (ValueError "list.remove(x): x not in list") w2) /\
    (forall l1 l2,
       _watchers st = l1 ++ callback :: l2 -> callback ∉ l1 ->
       u w1 = Returned tt
                (with_cells (alter (set__watchers (l1 ++ l2 ++ [callback])) self) w)) /\
    (callback ∉ _watchers st ->
       u w1 = Returned tt w /\
       (u >> u) w1 = Raised (ValueError "list.remove(x): x not in list") w /\
       (u >> let! later := State_watch self callback in u) w1 = Returned tt w /\
       (u >> let! later := State_watch self callback in u >> later) w1 =
         Raised (ValueError "list.remove(x): x not in list") w).
Proof.
  intros Hst.
  set (w1 := with_cells (alter (add_watchers [callback]) self) w).
  assert (State_watch self callback w = Returned (unwatch self callback) w1) as Hw
    by reflexivity.
  assert (cells w1 !! self = Some (add_watchers [callback] st)) as H1
    by (unfold w1; simpl; by rewrite list_lookup_alter_eq, Hst).
  assert (forall w2 st2 l1 l2,
    cells w2 !! self = Some st2 ->
    _watchers st2 = l1 ++ callback :: l2 -> callback ∉ l1 ->
    unwatch self callback w2 =
      Returned tt (with_cells (alter (set__watchers (l1 ++ l2)) self) w2)) as Hrm.
  { intros w2 st2 l1 l2 H2 Hl Hx. rewrite (unwatch_run _ _ _ _ H2), Hl.
    by rewrite list_remove_first_split. }
  assert (forall w2 st2,
    cells w2 !! self = Some st2 -> callback ∉ _watchers st2 ->
    unwatch self callback w2 = Raised (ValueError "list.remove(x): x not in list") w2)
    as Hnone.
  { intros w2 st2 H2 Hx. rewrite (unwatch_run _ _ _ _ H2).
    by rewrite list_remove_first_None. }
  exists (unwatch self callback), w1.
  split; [exact Hw|]. split; [reflexivity|]. split; [exact Hrm|]. split; [exact Hnone|].
  split.
  - intros l1 l2 Hl Hx.
    rewrite (Hrm w1 _ l1 (l2 ++ [callback]) H1); [|simpl; by rewrite Hl, <- app_assoc|done].
    unfold w1. by rewrite alter_set__watchers_twice.
  - intros Hfresh.
    assert (unwatch self callback w1 = Returned tt w) as E.
    { rewrite (Hrm w1 _ (_watchers st) [] H1); [|done|done].
      unfold w1. rewrite alter_set__watchers_twice, app_nil_r.
      by rewrite (alter_set__watchers_same self st). }
    assert (unwatch self callback w =
            Raised (ValueError "list.remove(x): x not in list") w) as E'
      by by apply (Hnone w st).
    repeat split.
    + exact E.
    + unfold bind. by rewrite E, E'.
    + unfold bind at 1. rewrite E. unfold bind. rewrite Hw. exact E.
    + unfold bind at 1. rewrite E. unfold bind at 1. rewrite Hw.
      unfold bind. by rewrite E, E'.
Qed.

(** ** Effects *)

Lemma add_watchers_nil st : add_watchers [] st = st.
Proof. destruct st. unfold add_watchers, set__watchers. simpl. by rewrite app_nil_r. Qed.

Lemma add_watchers_app ws1 ws2 st :
  add_watchers ws2 (add_watchers ws1 st) = add_watchers (ws1 ++ ws2) st.
Proof. unfold add_watchers, set__watchers. simpl. by rewrite app_assoc. Qed.

Lemma alter_add_watchers_nil self (l : list State) :
  alter (add_watchers []) self l = l.
Proof. apply list_alter_id. apply add_watchers_nil. Qed.

Lemma alter_add_watchers_app ws1 ws2 self (l : list State) :
  alter (add_watchers ws2) self (alter (add_watchers ws1) self l)
  = alter (add_watchers (ws1 ++ ws2)) self l.
Proof.
  apply list_eq. intros i. destruct (decide (i = self)) as [->|Hne].
  - rewrite !list_lookup_alter_eq. destruct (l !! self); simpl; [|done].
    by rewrite add_watchers_app.
  - by rewrite !list_lookup_alter_ne by congruence.
Qed.

Lemma connect_run widget wanted st_id wd w :
  widgets w !! widget = Some wd ->
  connect widget wanted st_id w =
  Returned tt (with_cells
    (alter (add_watchers (map (WEffect widget) (effect_methods (mro wd) wanted))) st_id) w).
Proof.
  intros Hwd. unfold connect, bind at 1, load_widget. rewrite Hwd.
  unfold effect_methods. generalize (dir (mro wd)) as names. intros names.
  revert w Hwd. induction names as [|m names IH]; intros w Hwd; simpl.
  { unfold ret. f_equal. destruct w. unfold with_cells. simpl.
    by rewrite alter_add_watchers_nil. }
  destruct (startswith_underscore m) eqn:E1.
  { assert (connects (mro wd) wanted m = false) as ->
      by (unfold connects; by rewrite E1).
    rewrite <- (IH w Hwd). reflexivity. }
  destruct (connects (mro wd) wanted m) eqn:E.
  - unfold connects in E. rewrite E1 in E. simpl in E.
    destruct (class_getattr (mro wd) m) as [[[targets|]|]|]; try discriminate.
    rewrite E.
    transitivity (for_each
      (fun attr_name : string =>
         if startswith_underscore attr_name then ret tt
         else match class_getattr (mro wd) attr_name with
              | Some (Function (Some targets)) =>
                  if bool_decide (wanted ∈ targets)
                  then State_watch st_id (WEffect widget attr_name) >> ret tt
                  else ret tt
              | _ => ret tt
              end) names
      (with_cells (alter (add_watchers [WEffect widget m]) st_id) w));
      [reflexivity|].
    rewrite IH by done. f_equal. destruct w. unfold with_cells. simpl. f_equal.
    apply (alter_add_watchers_app [WEffect widget m]).
  - rewrite <- (IH w Hwd). unfold connects in E. rewrite E1 in E. simpl in E.
    destruct (class_getattr (mro wd) m) as [[[targets|]|]|]; try reflexivity.
    by rewrite E.
Qed.

Lemma insert_sorted_elem x y l : x ∈ insert_sorted y l <-> x = y \/ x ∈ l.
Proof.
  induction l as [|z l IH]; simpl.
  - rewrite list_elem_of_singleton, elem_of_nil. tauto.
  - destruct (String.compare y z) eqn:E.
    + apply String.compare_eq_iff in E as ->. rewrite elem_of_cons. tauto.
    + rewrite !elem_of_cons. tauto.
    + rewrite !elem_of_cons, IH. tauto.
Qed.

Lemma dir_elem classes m :
  m ∈ dir classes <-> exists c, c ∈ classes /\ m ∈ map fst (class_dict c).
Proof.
  unfold dir.
  assert (forall l, m ∈ foldr insert_sorted [] l <-> m ∈ l) as H.
  { induction l as [|y l IH]; simpl; [done|].
    rewrite insert_sorted_elem, IH, elem_of_cons. tauto. }
  rewrite H. induction classes as [|c classes IH]; simpl.
  - rewrite elem_of_nil. split; [done|]. intros (c & Hc & _).
    by apply elem_of_nil in Hc.
  - rewrite elem_of_app, IH. split.
    + intros [Hm|(c' & Hc' & Hm)]; [exists c|exists c'];
        (split; [|done]); [by left|by right].
    + intros (c' & Hc' & Hm). apply elem_of_cons in Hc' as [->|Hc']; [by left|].
      right. eauto.
Qed.

Lemma assoc_Some_elem {A} m (l : list (string * A)) x :
  assoc m l = Some x -> m ∈ map fst l.
Proof.
  induction l as [|[k v] l IH]; simpl; [done|].
  destruct (String.eqb k m) eqn:E.
  - apply String.eqb_eq in E as ->. intros _. by left.
  - intros H. right. by apply IH.
Qed.

Lemma class_getattr_dir classes m x :
  class_getattr classes m = Some x -> m ∈ dir classes.
Proof.
  intros H. apply dir_elem. induction classes as [|c classes IH]; [done|].
  simpl in H. destruct (assoc m (class_dict c)) eqn:E.
  - exists c. split; [by left|]. by eapply assoc_Some_elem.
  - destruct (IH H) as (c' & Hc' & Hm). exists c'. split; [by right|done].
Qed.

(** C4 (what the code does): a method decorated with [@effect(n)] that
    the widget's own class does not define and a superclass does is found
    by [connect_effects] through [dir(type(widget))] and is registered as
    a watcher of the state named [n]. *)
Theorem inherited_effect_is_connected widget own bases par k m targets n
    state st w :
  widgets w !! widget = Some (mkWidget (own :: bases) par k) ->
  cells w !! state = Some st ->
  assoc m (class_dict own) = None ->
  class_getattr bases m = Some (Function (Some targets)) ->
  TName n ∈ targets ->
  startswith_underscore m = false ->
  exists w' st',
    connect_effects widget n state w = Returned tt w' /\
    cells w' !! state = Some st' /\
    WEffect widget m ∈ _watchers st'.
Proof.
  intros Hwd Hst Hown Hbase Hn Hm.
  unfold connect_effects. rewrite (connect_run _ _ _ _ _ Hwd). simpl.
  eexists _, _. split; [reflexivity|]. split.
  { simpl. rewrite list_lookup_alter_eq, Hst. reflexivity. }
  simpl. apply elem_of_app. right. apply list_elem_of_fmap.
  exists m. split; [done|]. unfold effect_methods.
  assert (class_getattr (own :: bases) m = Some (Function (Some targets))) as Hga
    by (simpl; by rewrite Hown).
  apply list_elem_of_In, filter_In. split.
  - apply list_elem_of_In. by eapply class_getattr_dir.
  - unfold connects. rewrite Hm, Hga. simpl. by apply bool_decide_eq_true.
Qed.

(** ** The walk up the widget tree *)

Lemma walk_up_chain is_provider ws c l :
  chain ws c l ->
  forall fuel, length l <= fuel ->
  walk_up fuel is_provider ws c = Some (nearest is_provider ws l).
Proof.
  induction 1 as [c wd Hc Hp|c wd p l Hc Hp _ IH]; intros [|fuel] Hf;
    simpl in *; try lia; rewrite Hc.
  - destruct (is_provider wd); [done|]. by rewrite Hp.
  - destruct (is_provider wd); [done|]. rewrite Hp. apply IH. lia.
Qed.

Lemma nearest_Some is_provider ws l p :
  nearest is_provider ws l = Some p ->
  exists l1 l2 wd,
    l = l1 ++ p :: l2 /\ ws !! p = Some wd /\ is_provider wd = true /\
    forall x wdx, x ∈ l1 -> ws !! x = Some wdx -> is_provider wdx = false.
Proof.
  induction l as [|x l IH]; simpl; [done|].
  destruct (ws !! x) as [wd|] eqn:Hx.
  - destruct (is_provider wd) eqn:Hp.
    + intros [= <-]. exists [], l, wd. repeat split; try done.
      intros y wdy Hy. by apply elem_of_nil in Hy.
    + intros H. destruct (IH H) as (l1 & l2 & wd' & -> & Hw & Hpw & Hbefore).
      exists (x :: l1), l2, wd'. repeat split; try done.
      intros y wdy Hy Hwy. apply elem_of_cons in Hy as [->|Hy]; [congruence|eauto].
  - intros H. destruct (IH H) as (l1 & l2 & wd' & -> & Hw & Hpw & Hbefore).
    exists (x :: l1), l2, wd'. repeat split; try done.
    intros y wdy Hy Hwy. apply elem_of_cons in Hy as [->|Hy]; [congruence|eauto].
Qed.

(** X1: The walk of [_find_provider] returns the nearest enclosing provider
    of the context: it is on the consumer's ancestor chain, it provides
    that very context object, and no widget between the consumer and it
    does. *)
Lemma _find_provider_nearest fuel widget context l w :
  chain (widgets w) widget l -> length l <= fuel ->
  _find_provider fuel widget context w =
    Returned (nearest (provides_context context) (widgets w) l) w /\
  forall p, nearest (provides_context context) (widgets w) l = Some p ->
    exists l1 l2 c st,
      l = l1 ++ p :: l2 /\
      kind <$> widgets w !! p = Some (IsContextProvider c st) /\
      context_ref c = context_ref context /\
      forall x wdx, x ∈ l1 -> widgets w !! x = Some wdx ->
        provides_context context wdx = false.
Proof.
  intros Hch Hf. split.
  - unfold _find_provider, walk. by rewrite (walk_up_chain _ _ _ _ Hch).
  - intros p Hp.
    destruct (nearest_Some _ _ _ _ Hp) as (l1 & l2 & wd & -> & Hw & Hpw & Hb).
    unfold provides_context in Hpw. destruct (kind wd) as [|c st|] eqn:Hk; try done.
    exists l1, l2, c, st. repeat split; try done.
    + by rewrite Hw, <- Hk.
    + by apply Nat.eqb_eq.
Qed.

Lemma ContextProvider__init__run classes reactive_context v w :
  ContextProvider__init__ classes reactive_context v w =
  Raised (NameError "context")
         (with_widgets (fun ws => ws ++ [mkWidget classes None NotProvider]) w).
Proof. reflexivity. Qed.

(** C1 (what the code does): [ContextProvider.__init__] evaluates
    [context.name], and [context] is neither a parameter (that is
    [reactive_context]) nor a module-level name nor a builtin: every
    construction of a [ContextProvider] raises [NameError] before the
    provider has a cell. *)
Theorem ContextProvider_init_raises_NameError classes reactive_context v w :
  ContextProvider__init__ classes reactive_context v w =
  Raised (NameError "context")
         (with_widgets (fun ws => ws ++ [mkWidget classes None NotProvider]) w).
Proof. apply ContextProvider__init__run. Qed.

(** ** [use_context] *)

Lemma use_context_required fuel widget wd context subscribe w :
  walk_up fuel (provides_context context) (widgets w) widget = Some None ->
  widgets w !! widget = Some wd ->
  use_context fuel widget context subscribe true w =
  Raised (ContextNotFoundError (context_ref context) widget
            ("Context '" ++ or_unnamed (context_name context) ++
             "' not found in widget tree for " ++ type_name wd ++
             ". Make sure a ContextProvider is mounted above this widget.")) w.
Proof.
  intros Hwalk Hwd. unfold use_context, _find_provider, walk, bind at 1.
  rewrite Hwalk. unfold bind, load_widget. by rewrite Hwd.
Qed.

Lemma use_context_model_default fuel widget context subscribe w :
  walk_up fuel (provides_context context) (widgets w) widget = Some None ->
  is_ModelContext context = true ->
  exists h w',
    use_context fuel widget context subscribe false w = Returned h w' /\
    is_default h = true /\
    handle_state h = length (cells w) /\
    ContextHandle_value h w' = Returned (_default_value context) w'.
Proof.
  intros Hwalk Hm. unfold use_context, _find_provider, walk, bind at 1.
  rewrite Hwalk, Hm. unfold bind at 1. unfold bind at 2. unfold new_State.
  destruct subscribe; eexists _, _; (split; [reflexivity|]); simpl;
    (split; [done|]); (split; [done|]);
    unfold ContextHandle_value, State_get, bind, load, ret; simpl.
  - rewrite list_lookup_alter_eq, lookup_app_r, Nat.sub_diag by done. done.
  - rewrite lookup_app_r, Nat.sub_diag by done. done.
Qed.

Lemma use_context_model_found fuel widget context subscribe required p pw c st w :
  walk_up fuel (provides_context context) (widgets w) widget = Some (Some p) ->
  widgets w !! p = Some pw -> kind pw = IsContextProvider c st ->
  is_ModelContext context = true ->
  exists h w',
    use_context fuel widget context subscribe required w = Returned h w' /\
    is_default h = false /\ handle_state h = st.
Proof.
  intros Hwalk Hp Hk Hm. unfold use_context, _find_provider, walk, bind at 1.
  rewrite Hwalk, Hm. unfold bind, load_widget. rewrite Hp, Hk.
  destruct subscribe; eexists _, _; (split; [reflexivity|]); done.
Qed.

(** With a plain context the failure is the same when a provider is
    found. *)
Lemma use_context_plain_found_raises fuel widget context subscribe required
    p pw c st w :
  walk_up fuel (provides_context context) (widgets w) widget = Some (Some p) ->
  widgets w !! p = Some pw -> kind pw = IsContextProvider c st ->
  is_ModelContext context = false ->
  exists w',
    use_context fuel widget context subscribe required w =
    Raised (AttributeError "ContextHandle" "_rx_context") w'.
Proof.
  intros Hwalk Hp Hk Hm. unfold use_context, _find_provider, walk, bind at 1.
  rewrite Hwalk, Hm. unfold bind, load_widget. rewrite Hp, Hk.
  destruct subscribe; eexists; reflexivity.
Qed.

(** C7 (what the code does): for a plain [Context] (not a
    [ModelContext]) with no provider above the widget and
    [required=False], [use_context] creates the local cell and then fails
    in [ContextHandle.__init__]: the attribute [_rx_context] is not among
    the [__slots__] of [ContextHandle], so the caller gets
    [AttributeError] instead of a handle. *)
Theorem use_context_plain_default_raises fuel widget context subscribe w :
  walk_up fuel (provides_context context) (widgets w) widget = Some None ->
  is_ModelContext context = false ->
  exists w',
    use_context fuel widget context subscribe false w =
    Raised (AttributeError "ContextHandle" "_rx_context") w'.
Proof.
  intros Hwalk Hm. unfold use_context, _find_provider, walk, bind at 1.
  rewrite Hwalk, Hm. destruct subscribe; eexists; reflexivity.
Qed.

(** ** Stores: each provider owns its cell *)

Lemma is_target_same_shape w w' c :
  same_shape w w' -> is_target w' c -> is_target w c.
Proof.
  intros Hs (i & st' & srcs & sel & Hi & Hin).
  destruct (same_shape_lookup _ _ _ _ Hs Hi) as (st & Hst & Hsh).
  exists i, st, srcs, sel. split; [done|]. by rewrite (shape_watchers _ _ Hsh).
Qed.

Lemma inv_same_shape w w' : same_shape w w' -> inv w -> inv w'.
Proof.
  intros Hs [Hwf Hp]. split; [by eapply well_formed_same_shape|].
  intros p pw s c Hw Hk. destruct Hs as [Hsc Hsw]. rewrite Hsw in Hw.
  destruct (Hp p pw s c Hw Hk) as (Hlt & Hnt & Hinj).
  split; [by rewrite (same_shape_length w w' (conj Hsc Hsw))|]. split.
  - intros Ht. apply Hnt. by apply (is_target_same_shape w w' c (conj Hsc Hsw)).
  - intros p' pw' s' Hw' Hk'. rewrite Hsw in Hw'. eauto.
Qed.

Lemma closed_apart w c : ~ is_target w c -> closed w (apart c).
Proof.
  intros Hnt i st d srcs sel _ Hi Hin Hd. subst d.
  apply Hnt. by exists i, st, srcs, sel.
Qed.

Lemma about_off c evs : Forall (off c) evs -> about c evs = [].
Proof.
  induction 1 as [|ev evs Hev _ IH]; [done|]. unfold about in *.
  by rewrite filter_cons_False.
Qed.

(** [set] on one cell leaves a cell that is no derivation's target as it
    was, and says nothing about it. *)
Lemma State_set_apart fuel self v c w w' :
  self <> c -> ~ is_target w c ->
  final (State_set fuel self v w) = Some w' ->
  frame (apart c) (off c) w w'.
Proof.
  intros Hne Hnt H. unfold State_set in H.
  eapply (State_set_with_frame (apart c) (off c)); [|by apply closed_apart|exact H].
  intros v0 w0 w0' Hc0 H0.
  eapply (_set_value_frame (apart c) (off c)); eauto.
Qed.

Lemma State_set_total fuel self v w :
  well_formed w -> self < length (cells w) ->
  length (cells w) - self <= fuel ->
  exists w', final (State_set fuel self v w) = Some w'.
Proof.
  intros Hwf Hlt Hf. unfold State_set.
  destruct (lookup_lt_is_Some_2 _ _ Hlt) as [st Hst].
  destruct v; try by apply _set_value_total.
  unfold State_set_with, bind, load, lift. rewrite Hst.
  destruct (call f _); simpl; [by apply _set_value_total|eauto].
Qed.

(** One [dispatch] through the closure of provider [p1]. *)
Lemma provider_dispatch_apart fuel store p1 pw1 s1 c1 c action w :
  inv w ->
  widgets w !! p1 = Some pw1 -> kind pw1 = IsStoreProvider s1 c1 ->
  c1 <> c -> ~ is_target w c ->
  length (cells w) <= fuel ->
  exists w',
    final (dispatch fuel (ProviderDispatch p1 store) action w) = Some w' /\
    frame (apart c) (off c) w w'.
Proof.
  intros [Hwf Hp] Hw1 Hk1 Hne Hnt Hf.
  destruct (Hp p1 pw1 s1 c1 Hw1 Hk1) as (Hlt & _ & _).
  destruct (lookup_lt_is_Some_2 _ _ Hlt) as [st Hst].
  unfold dispatch, bind at 1, load_widget. rewrite Hw1, Hk1.
  unfold bind at 1, State_get, bind at 1, load, ret. rewrite Hst.
  unfold bind at 1. destruct (call (_reducer store) _) as [r|e]; simpl.
  - destruct (State_set_total fuel c1 r w Hwf Hlt) as [w' Hw']; [lia|].
    exists w'. split; [done|]. by eapply State_set_apart.
  - eexists. split; [done|]. apply frame_refl.
Qed.

(** C8: two distinct [StoreProvider] widgets of one store hold distinct
    cells, and any sequence of actions dispatched through the closure of
    one of them ends (given fuel for the cells there are) in a world in
    which the other provider's cell is exactly as it was: same value,
    same subscribers and watchers, and no watcher call or notification
    about it. *)
Theorem store_providers_are_independent fuel store p1 p2 pw1 pw2 c1 c2 actions w :
  inv w ->
  widgets w !! p1 = Some pw1 -> kind pw1 = IsStoreProvider store c1 ->
  widgets w !! p2 = Some pw2 -> kind pw2 = IsStoreProvider store c2 ->
  p1 <> p2 ->
  length (cells w) <= fuel ->
  c1 <> c2 /\
  exists w',
    final (for_each (dispatch fuel (ProviderDispatch p1 store)) actions w) = Some w' /\
    cells w' !! c2 = cells w !! c2 /\
    State_get c2 w' = match State_get c2 w with
                      | Returned v _ => Returned v w'
                      | o => o
                      end /\
    about c2 (since w w') = [].
Proof.
  intros Hinv Hw1 Hk1 Hw2 Hk2 Hp Hf.
  destruct Hinv as [Hwf Hown].
  destruct (Hown p2 pw2 store c2 Hw2 Hk2) as (Hlt2 & Hnt2 & Hinj2).
  assert (c1 <> c2) as Hne.
  { intros ->. apply Hp. by eapply Hinj2. }
  split; [done|].
  assert (exists w', final (for_each (dispatch fuel (ProviderDispatch p1 store))
                              actions w) = Some w' /\
                     frame (apart c2) (off c2) w w') as (w' & Hfin & F).
  { assert (inv w) as Hinv by done. clear Hwf Hown Hinj2 Hw2 Hk2 Hlt2.
    revert w Hinv Hw1 Hnt2 Hf.
    induction actions as [|a actions IH]; intros w Hinv Hw1 Hnt2 Hf.
    { eexists. split; [done|]. apply frame_refl. }
    destruct (provider_dispatch_apart fuel store p1 pw1 store c1 c2 a w)
      as (w1 & H1 & F1); try done.
    rewrite for_each_cons.
    destruct (dispatch fuel _ a w) as [[] w1'|e w1'|]; simpl in H1;
      [|simplify_eq; eauto|done].
    simplify_eq.
    assert (same_shape w w1) as Hs by (by destruct F1).
    destruct (IH w1) as (w' & H' & F').
    - by eapply inv_same_shape.
    - destruct Hs as [_ Hsw]. by rewrite Hsw.
    - intros Ht. apply Hnt2. by eapply is_target_same_shape.
    - by rewrite (same_shape_length _ _ Hs).
    - exists w'. split; [exact H'|]. by eapply frame_trans. }
  exists w'. split; [done|].
  destruct (frame_since _ _ _ _ F) as [_ Hoff].
  destruct F as (_ & Hk & _).
  assert (cells w' !! c2 = cells w !! c2) as E by (apply Hk; unfold apart; tauto).
  split; [done|]. split.
  - unfold State_get, bind, load, ret. rewrite E. by destruct (cells w !! c2).
  - by apply about_off.
Qed.

(** ** The invariant is kept by every operation *)

Lemma extends_refl allowed w : extends allowed w w.
Proof. split; [done|]. split; [eauto|]. intros. left. eauto. Qed.

Lemma extends_trans allowed w1 w2 w3 :
  extends allowed w1 w2 -> extends allowed w2 w3 -> extends allowed w1 w3.
Proof.
  intros (Hl1 & Hp1 & Hd1) (Hl2 & Hp2 & Hd2). split; [lia|]. split.
  - intros p pw' s c Hw Hk. destruct (Hp2 p pw' s c Hw Hk) as (pw & Hw2 & Hk2). eauto.
  - intros i st' d srcs sel Hi Hin.
    destruct (Hd2 i st' d srcs sel Hi Hin) as [(st & Hst & Hin2)|Ha]; [|by right].
    eauto.
Qed.

Lemma extends_mono (allowed allowed' : cell_id -> watcher -> Prop) w w' :
  (forall i wt, allowed i wt -> allowed' i wt) ->
  extends allowed w w' -> extends allowed' w w'.
Proof.
  intros Hsub (Hl & Hp & Hd). split; [done|]. split; [done|].
  intros i st' d srcs sel Hi Hin.
  destruct (Hd i st' d srcs sel Hi Hin) as [?|?]; [by left|right; eauto].
Qed.

Lemma extends_same_shape allowed w w' : same_shape w w' -> extends allowed w w'.
Proof.
  intros Hs. split; [by rewrite (same_shape_length _ _ Hs)|]. split.
  - intros p pw' s c Hw Hk. destruct Hs as [_ Hsw]. rewrite Hsw in Hw. eauto.
  - intros i st' d srcs sel Hi Hin. left.
    destruct (same_shape_lookup _ _ _ _ Hs Hi) as (st & Hst & Hsh).
    exists st. split; [done|]. by rewrite (shape_watchers _ _ Hsh).
Qed.

Lemma inv_extends allowed w w' :
  inv w -> extends allowed w w' ->
  (forall i d srcs sel, allowed i (WSourceChange d srcs sel) ->
     i < d /\ d < length (cells w') /\
     Forall (fun s => s < length (cells w')) srcs /\
     forall p pw s, widgets w !! p = Some pw -> kind pw <> IsStoreProvider s d) ->
  inv w'.
Proof.
  intros [Hwf Hown] (Hl & Hp & Hd) Hal. split.
  - intros i st' d srcs sel Hi Hin.
    destruct (Hd i st' d srcs sel Hi Hin) as [(st & Hst & Hin0)|Ha].
    + destruct (Hwf i st d srcs sel Hst Hin0) as (H1 & H2 & H3).
      split; [done|]. split; [lia|].
      eapply Forall_impl; [exact H3|]. simpl. intros. lia.
    + destruct (Hal i d srcs sel Ha) as (? & ? & ? & _). done.
  - intros p pw' s c Hw Hk.
    destruct (Hp p pw' s c Hw Hk) as (pw & Hw0 & Hk0).
    destruct (Hown p pw s c Hw0 Hk0) as (Hlt & Hnt & Hinj).
    split; [lia|]. split.
    + intros (i & st' & srcs & sel & Hi & Hin).
      destruct (Hd i st' c srcs sel Hi Hin) as [(st & Hst & Hin0)|Ha].
      * apply Hnt. by exists i, st, srcs, sel.
      * destruct (Hal i c srcs sel Ha) as (_ & _ & _ & Hnp).
        by apply (Hnp p pw s Hw0).
    + intros p' pw'' s' Hw' Hk'.
      destruct (Hp p' pw'' s' c Hw' Hk') as (pw0 & Hw00 & Hk00). eauto.
Qed.

Lemma inv_steps_nothing w w' : inv w -> extends nothing w w' -> inv w'.
Proof. intros Hi He. eapply inv_extends; eauto. intros i d srcs sel []. Qed.

Lemma steps_bind allowed {A B} (m : M A) (k : A -> M B) :
  steps allowed m -> (forall a, steps allowed (k a)) -> steps allowed (bind m k).
Proof.
  intros Hm Hk w w' H. apply final_bind in H as [[e He]|(a & w1 & H1 & H2)].
  - apply Hm. by rewrite He.
  - eapply extends_trans; [apply Hm; by rewrite H1|by eapply Hk].
Qed.

Lemma steps_unchanged allowed {A} (m : M A) :
  (forall w w', final (m w) = Some w' -> w' = w) -> steps allowed m.
Proof. intros H w w' Hf. rewrite (H w w' Hf). apply extends_refl. Qed.

Lemma steps_ret allowed {A} (a : A) : steps allowed (ret a).
Proof. apply steps_unchanged. unfold ret. simpl. congruence. Qed.

Lemma steps_raise allowed {A} e : steps allowed (raise (A:=A) e).
Proof. apply steps_unchanged. unfold raise. simpl. congruence. Qed.

Lemma steps_stuck allowed {A} : steps allowed (stuck (A:=A)).
Proof. intros w w' H. discriminate. Qed.

Lemma steps_load allowed c : steps allowed (load c).
Proof.
  apply steps_unchanged. unfold load. intros w w'.
  destruct (cells w !! c); simpl; congruence.
Qed.

Lemma steps_load_widget allowed p : steps allowed (load_widget p).
Proof.
  apply steps_unchanged. unfold load_widget. intros w w'.
  destruct (widgets w !! p); simpl; congruence.
Qed.

Lemma steps_walk allowed fuel is_provider widget :
  steps allowed (walk fuel is_provider widget).
Proof.
  apply steps_unchanged. unfold walk. intros w w'.
  destruct (walk_up _ _ _ _); simpl; congruence.
Qed.

Lemma steps_lift allowed r : steps allowed (lift r).
Proof. destruct r; [apply steps_ret|apply steps_raise]. Qed.

Lemma steps_emit allowed ev : steps allowed (emit ev).
Proof.
  intros w w' H. unfold emit in H. simpl in H. simplify_eq.
  by apply extends_same_shape.
Qed.

Lemma steps_State_get allowed c : steps allowed (State_get c).
Proof.
  unfold State_get. apply steps_bind; [apply steps_load|]. intros. apply steps_ret.
Qed.

Lemma steps_for_each allowed {A} (body : A -> M unit) l :
  (forall x, x ∈ l -> steps allowed (body x)) -> steps allowed (for_each body l).
Proof.
  induction l as [|x l IH]; intros Hb; simpl; [apply steps_ret|].
  apply steps_bind; [apply Hb; by left|]. intros _. apply IH.
  intros y Hy. apply Hb. by right.
Qed.

(** An update of one cell that registers no derivation beyond those
    [allowed]. *)
Lemma steps_update (allowed : cell_id -> watcher -> Prop) c f :
  (forall st d srcs sel,
     WSourceChange d srcs sel ∈ _watchers (f st) ->
     WSourceChange d srcs sel ∈ _watchers st \/ allowed c (WSourceChange d srcs sel)) ->
  steps allowed (update c f).
Proof.
  intros Hf w w' H. unfold update in H. simpl in H. simplify_eq.
  split; [simpl; by rewrite length_alter|]. split; [simpl; eauto|].
  intros i st' d srcs sel Hi Hin. simpl in Hi.
  destruct (decide (i = c)) as [->|Hne].
  - rewrite list_lookup_alter_eq in Hi.
    destruct (cells w !! c) as [st|] eqn:Hst; simpl in Hi; [|done]. simplify_eq.
    destruct (Hf st d srcs sel Hin) as [?|?]; [left; eauto|by right].
  - rewrite list_lookup_alter_ne in Hi by congruence. left. eauto.
Qed.

Lemma steps_new_State allowed v name : steps allowed (new_State v name).
Proof.
  intros w w' H. unfold new_State in H. simpl in H. simplify_eq.
  split; [simpl; rewrite length_app; lia|]. split; [simpl; eauto|].
  intros i st' d srcs sel Hi Hin. simpl in Hi. left.
  destruct (decide (i < length (cells w))) as [Hlt|Hge].
  - rewrite lookup_app_l in Hi by done. eauto.
  - rewrite lookup_app_r in Hi by lia.
    destruct (i - length (cells w)); simpl in Hi; [|done].
    simplify_eq. simpl in Hin. by apply elem_of_nil in Hin.
Qed.

Lemma steps_new_widget allowed classes k :
  (forall s c, k <> IsStoreProvider s c) -> steps allowed (new_widget classes k).
Proof.
  intros Hk w w' H. unfold new_widget in H. simpl in H. simplify_eq.
  split; [done|]. split; [|intros; left; eauto].
  intros p pw' s c Hw Hkind. simpl in Hw.
  destruct (decide (p < length (widgets w))) as [Hlt|Hge].
  - rewrite lookup_app_l in Hw by done. eauto.
  - rewrite lookup_app_r in Hw by lia.
    destruct (p - length (widgets w)); simpl in Hw; [|done].
    simplify_eq. simpl in Hkind. by apply Hk in Hkind.
Qed.

Lemma steps_mount allowed p child : steps allowed (mount p child).
Proof.
  intros w w' H. unfold mount in H. simpl in H. simplify_eq.
  split; [done|]. split; [|intros; left; eauto].
  intros q pw' s c Hw Hkind. simpl in Hw.
  destruct (decide (q = child)) as [->|Hne].
  - rewrite list_lookup_alter_eq in Hw.
    destruct (widgets w !! child) as [pw|]; simpl in Hw; [|done].
    simplify_eq. simpl in Hkind. eauto.
  - rewrite list_lookup_alter_ne in Hw by congruence. eauto.
Qed.

Lemma steps_set_kind allowed p k :
  (forall s c, k <> IsStoreProvider s c) -> steps allowed (set_kind p k).
Proof.
  intros Hk w w' H. unfold set_kind in H. simpl in H. simplify_eq.
  split; [done|]. split; [|intros; left; eauto].
  intros q pw' s c Hw Hkind. simpl in Hw.
  destruct (decide (q = p)) as [->|Hne].
  - rewrite list_lookup_alter_eq in Hw.
    destruct (widgets w !! p) as [pw|]; simpl in Hw; [|done].
    simplify_eq. simpl in Hkind. by apply Hk in Hkind.
  - rewrite list_lookup_alter_ne in Hw by congruence. eauto.
Qed.

Lemma steps_State_subscribe allowed c widget : steps allowed (State_subscribe c widget).
Proof.
  apply steps_update. intros st d srcs sel Hin. left.
  by destruct (bool_decide _).
Qed.

Lemma steps_State_unsubscribe allowed c widget :
  steps allowed (State_unsubscribe c widget).
Proof. apply steps_update. intros st d srcs sel Hin. by left. Qed.

Lemma steps_State_watch (allowed : cell_id -> watcher -> Prop) c wt :
  is_user wt = true \/ allowed c wt -> steps allowed (State_watch c wt).
Proof.
  intros Hwt. unfold State_watch. apply steps_bind; [|intros; apply steps_ret].
  apply steps_update. intros st d srcs sel Hin. simpl in Hin.
  apply elem_of_app in Hin as [Hin|Hin]; [by left|].
  apply list_elem_of_singleton in Hin as <-. destruct Hwt as [Hu|Ha]; [done|by right].
Qed.

Lemma list_remove_first_sub (x : watcher) l l' :
  list_remove_first x l = Some l' -> forall y, y ∈ l' -> y ∈ l.
Proof.
  revert l'. induction l as [|z l IH]; intros l' H y Hy; simpl in H; [done|].
  destruct (decide (z = x)).
  - simplify_eq. by right.
  - destruct (list_remove_first x l) as [l0|]; simpl in H; [|done]. simplify_eq.
    apply elem_of_cons in Hy as [->|Hy]; [by left|]. right. eauto.
Qed.

Lemma steps_unwatch allowed c wt : steps allowed (unwatch c wt).
Proof.
  intros w w' H. unfold unwatch, bind, load in H.
  destruct (cells w !! c) as [st|] eqn:Hst; [|done].
  destruct (list_remove_first wt (_watchers st)) as [ws|] eqn:Hrm; simpl in H.
  - unfold update in H. simpl in H. simplify_eq.
    split; [simpl; by rewrite length_alter|]. split; [simpl; eauto|].
    intros i st' d srcs sel Hi Hin. simpl in Hi. left.
    destruct (decide (i = c)) as [->|Hne].
    + rewrite list_lookup_alter_eq, Hst in Hi. simpl in Hi. simplify_eq.
      exists st. split; [done|]. by eapply list_remove_first_sub.
    + rewrite list_lookup_alter_ne in Hi by congruence. eauto.
  - unfold raise in H. simpl in H. simplify_eq. apply extends_refl.
Qed.

Lemma steps_connect allowed widget wanted c : steps allowed (connect widget wanted c).
Proof.
  unfold connect. apply steps_bind; [apply steps_load_widget|]. intros wd.
  apply steps_for_each. intros m _.
  destruct (startswith_underscore m); [apply steps_ret|].
  destruct (class_getattr (mro wd) m) as [[[targets|]|]|]; try apply steps_ret.
  destruct (bool_decide _); [|apply steps_ret].
  apply steps_bind; [|intros; apply steps_ret]. apply steps_State_watch. by left.
Qed.

Lemma steps_connect_if_named allowed widget name c :
  steps allowed (connect_if_named widget name c).
Proof.
  unfold connect_if_named. destruct name as [n|]; [|apply steps_ret].
  destruct (String.eqb n ""); [apply steps_ret|apply steps_connect].
Qed.

Lemma steps_use_state widget v name : steps nothing (use_state widget v name).
Proof.
  unfold use_state. apply steps_bind; [apply steps_new_State|]. intros c.
  apply steps_bind; [apply steps_State_subscribe|]. intros _.
  apply steps_bind; [apply steps_connect_if_named|]. intros _. apply steps_ret.
Qed.

Lemma steps_use_reducer widget reducer v name :
  steps nothing (use_reducer widget reducer v name).
Proof.
  unfold use_reducer. apply steps_bind; [apply steps_new_State|]. intros c.
  apply steps_bind; [apply steps_State_subscribe|]. intros _.
  apply steps_bind; [apply steps_connect_if_named|]. intros _. apply steps_ret.
Qed.

Lemma steps_use_model_reducer widget reducer v name :
  steps nothing (use_model_reducer widget reducer v name).
Proof.
  unfold use_model_reducer. apply steps_bind; [apply steps_new_State|]. intros c.
  apply steps_bind; [apply steps_State_subscribe|]. intros _.
  apply steps_bind; [apply steps_connect_if_named|]. intros _. apply steps_ret.
Qed.

Lemma steps_Store_use fuel store widget subscribe :
  steps nothing (Store_use fuel store widget subscribe).
Proof.
  unfold Store_use. apply steps_bind; [apply steps_walk|]. intros [p|].
  - apply steps_bind; [apply steps_load_widget|]. intros pw.
    destruct (kind pw); try apply steps_stuck.
    apply steps_bind; [destruct subscribe; [apply steps_State_subscribe|apply steps_ret]|].
    intros _. apply steps_bind; [apply steps_connect|]. intros _. apply steps_ret.
  - apply steps_bind; [apply steps_load_widget|]. intros wd. apply steps_raise.
Qed.

Lemma steps_ContextHandle__init__ cls l st widget context d :
  steps nothing (ContextHandle__init__ cls l st widget context d).
Proof.
  assert (forall attr, steps nothing (object_setattr cls l attr)) as Hset.
  { intros attr. unfold object_setattr. destruct l; [|apply steps_ret].
    destruct (bool_decide _); [apply steps_ret|apply steps_raise]. }
  unfold ContextHandle__init__.
  repeat (apply steps_bind; [apply Hset|intros _]). apply steps_ret.
Qed.

Lemma steps_use_context fuel widget context subscribe required :
  steps nothing (use_context fuel widget context subscribe required).
Proof.
  unfold use_context, _find_provider.
  apply steps_bind; [apply steps_walk|]. intros provider.
  apply steps_bind.
  - destruct provider as [p|].
    + apply steps_bind; [apply steps_load_widget|]. intros pw.
      destruct (kind pw); try apply steps_stuck. apply steps_ret.
    + destruct required.
      * apply steps_bind; [apply steps_load_widget|]. intros. apply steps_raise.
      * apply steps_bind; [apply steps_new_State|]. intros. apply steps_ret.
  - intros found.
    apply steps_bind; [destruct subscribe; [apply steps_State_subscribe|apply steps_ret]|].
    intros _. destruct (is_ModelContext context); apply steps_ContextHandle__init__.
Qed.

Lemma steps_ContextProvider__init__ classes context v :
  steps nothing (ContextProvider__init__ classes context v).
Proof.
  intros w w' H. rewrite ContextProvider__init__run in H.
  simpl in H. simplify_eq.
  apply (steps_new_widget nothing classes NotProvider); [done|].
  unfold new_widget. simpl. reflexivity.
Qed.

Lemma _set_value_same_shape fuel c v w w' :
  final (_set_value fuel c v w) = Some w' -> same_shape w w'.
Proof.
  intros H.
  by destruct (_set_value_frame (fun _ => True) (fun _ => True) (fun _ _ => I)
                 fuel c v w w' I (fun _ _ _ _ _ _ _ _ => I) H) as [? _].
Qed.

Lemma State_set_same_shape fuel c v w w' :
  final (State_set fuel c v w) = Some w' -> same_shape w w'.
Proof.
  intros H. unfold State_set in H.
  assert (frame (fun _ => True) (fun _ => True) w w') as [? _]; [|done].
  eapply State_set_with_frame; [|by intros ? ? ? ? ? ? ? ?|exact H].
  intros v0 w0 w0' _ H0.
  by apply (_set_value_frame (fun _ => True) (fun _ => True) (fun _ _ => I)
              fuel c v0 w0 w0' I (fun _ _ _ _ _ _ _ _ => I)).
Qed.

Lemma dispatch_same_shape fuel d action w w' :
  final (dispatch fuel d action w) = Some w' -> same_shape w w'.
Proof.
  intros H. destruct d as [c reducer|c reducer|p store]; unfold dispatch in H.
  - unfold bind at 1, State_get, bind at 1, load, ret in H.
    destruct (cells w !! c); [|done]. unfold bind at 1 in H.
    destruct (call reducer _); simpl in H; [by eapply State_set_same_shape|].
    by simplify_eq.
  - unfold bind at 1, State_get, bind at 1, load, ret in H.
    destruct (cells w !! c); [|done]. unfold bind at 1 in H.
    destruct (call reducer _); simpl in H; [by eapply _set_value_same_shape|].
    by simplify_eq.
  - unfold bind at 1, load_widget in H.
    destruct (widgets w !! p) as [pw|]; [|done].
    destruct (kind pw) as [| |s c]; try done.
    unfold bind at 1, State_get, bind at 1, load, ret in H.
    destruct (cells w !! c); [|done]. unfold bind at 1 in H.
    destruct (call _ _); simpl in H; [by eapply State_set_same_shape|].
    by simplify_eq.
Qed.

(** [StoreProvider.__init__] creates a widget and a cell of its own. *)
Lemma StoreProvider__init__run classes store w :
  StoreProvider__init__ classes store w =
  Returned (length (widgets w))
    (mkWorld (cells w ++ [State__init__ (_initial store) (store_name store)])
             (widgets w ++
               [mkWidget classes None (IsStoreProvider store (length (cells w)))])
             (trace w)).
Proof.
  unfold StoreProvider__init__, bind, new_widget, new_State, set_kind, ret,
    with_widgets, with_cells. simpl. f_equal. f_equal.
  rewrite alter_app_r_alt by done. by rewrite Nat.sub_diag.
Qed.

Lemma StoreProvider__init__inv classes store w w' :
  inv w -> final (StoreProvider__init__ classes store w) = Some w' -> inv w'.
Proof.
  intros [Hwf Hown] H. rewrite StoreProvider__init__run in H. simpl in H.
  simplify_eq. split.
  - intros i st d srcs sel Hi Hin. simpl in *. rewrite length_app. simpl.
    destruct (decide (i < length (cells w))) as [Hlt|Hge].
    + rewrite lookup_app_l in Hi by done.
      destruct (Hwf i st d srcs sel Hi Hin) as (H1 & H2 & H3).
      split; [done|]. split; [lia|].
      eapply Forall_impl; [exact H3|]. simpl. intros. lia.
    + rewrite lookup_app_r in Hi by lia.
      destruct (i - length (cells w)); simpl in Hi; [|done].
      simplify_eq. simpl in Hin. by apply elem_of_nil in Hin.
  - assert (forall c, is_target
        (mkWorld (cells w ++ [State__init__ (_initial store) (store_name store)])
           (widgets w ++
             [mkWidget classes None (IsStoreProvider store (length (cells w)))])
           (trace w)) c -> is_target w c /\ c < length (cells w)) as Htarget.
    { intros c (i & st & srcs & sel & Hi & Hin). simpl in Hi.
      destruct (decide (i < length (cells w))) as [Hlt|Hge].
      - rewrite lookup_app_l in Hi by done.
        destruct (Hwf i st c srcs sel Hi Hin) as (_ & H2 & _).
        split; [|done]. by exists i, st, srcs, sel.
      - rewrite lookup_app_r in Hi by lia.
        destruct (i - length (cells w)); simpl in Hi; [|done].
        simplify_eq. simpl in Hin. by apply elem_of_nil in Hin. }
    assert (forall p pw s c,
      (widgets w ++ [mkWidget classes None (IsStoreProvider store (length (cells w)))])
        !! p = Some pw -> kind pw = IsStoreProvider s c ->
      (widgets w !! p = Some pw /\ c < length (cells w)) \/
      (p = length (widgets w) /\ c = length (cells w))) as Hcases.
    { intros p pw s c Hw Hk.
      destruct (decide (p < length (widgets w))) as [Hlt|Hge].
      - rewrite lookup_app_l in Hw by done. left. split; [done|].
        by destruct (Hown p pw s c Hw Hk) as (? & _).
      - rewrite lookup_app_r in Hw by lia.
        destruct (p - length (widgets w)) eqn:E; simpl in Hw; [|done].
        simplify_eq. simpl in Hk. simplify_eq. right. split; [lia|done]. }
    intros p pw s c Hw Hk. simpl in *. rewrite length_app. simpl.
    destruct (Hcases p pw s c Hw Hk) as [[Hw0 Hlt]|[-> ->]].
    + destruct (Hown p pw s c Hw0 Hk) as (_ & Hnt & Hinj).
      split; [lia|]. split; [intros Ht; apply Hnt; by apply Htarget|].
      intros p' pw' s' Hw' Hk'.
      destruct (Hcases p' pw' s' c Hw' Hk') as [[Hw0' _]|[_ ->]]; [eauto|lia].
    + split; [lia|]. split; [intros Ht; apply Htarget in Ht; lia|].
      intros p' pw' s' Hw' Hk'.
      destruct (Hcases p' pw' s' _ Hw' Hk') as [[_ ?]|[-> _]]; [lia|done].
Qed.

Lemma get_values_Returned sources w vs w1 :
  get_values sources w = Returned vs w1 ->
  w1 = w /\ Forall (fun s => s < length (cells w)) sources.
Proof.
  revert vs w1. induction sources as [|s rest IH]; intros vs w1 H; simpl in H.
  { unfold ret in H. by simplify_eq. }
  unfold bind at 1, State_get, bind at 1, load, ret in H.
  destruct (cells w !! s) as [st|] eqn:Hst; [|done].
  unfold bind at 1 in H.
  destruct (get_values rest w) as [vs' w'|e w'|] eqn:Hr; simpl in H; [|done|done].
  injection H as <- <-.
  destruct (IH vs' w' eq_refl) as [Hw Hv]. split; [done|].
  constructor; [by eapply lookup_lt_Some|done].
Qed.

(** [use_derived] registers one derivation, from existing cells to the
    cell it has just created. *)
Lemma use_derived_inv widget sources selector name w w' :
  inv w -> final (use_derived widget sources selector name w) = Some w' -> inv w'.
Proof.
  intros Hinv H. unfold use_derived in H.
  apply final_bind in H as [[e He]|(vs & w0 & Hgv & H)].
  { pose proof (get_values_pure sources w) as Hp. by rewrite He in Hp. }
  destruct (get_values_Returned _ _ _ _ Hgv) as [-> Hvalid].
  apply final_bind in H as [[e He]|(r & w0 & Hsel & H)].
  { assert (w' = w) as -> by (eapply apply_selector_pure; by rewrite He). done. }
  assert (w0 = w) as -> by (eapply apply_selector_pure; by rewrite Hsel).
  apply final_bind in H as [[e He]|(d & w1 & Hnew & H)]; [done|].
  assert (inv w1) as Hinv1.
  { eapply inv_steps_nothing; [exact Hinv|].
    apply (steps_new_State nothing r name). by rewrite Hnew. }
  unfold new_State in Hnew. simplify_eq.
  set (d := length (cells w)) in *.
  set (w1 := with_cells _ w) in *.
  set (allowed := fun (i : cell_id) (wt : watcher) =>
         wt = WSourceChange d sources selector /\ i ∈ sources).
  assert (extends allowed w1 w') as Hext.
  { revert H. generalize w1 w'.
    change (steps allowed
      (State_subscribe d widget >>
       for_each (fun src =>
         State_watch src (WSourceChange d sources selector) >> ret tt) sources >>
       connect_if_named widget name d >>
       ret (mkStateHandle d name))).
    apply steps_bind; [apply steps_State_subscribe|]. intros _.
    apply steps_bind.
    - apply steps_for_each. intros src Hsrc.
      apply steps_bind; [|intros; apply steps_ret].
      apply steps_State_watch. right. by split.
    - intros _. apply steps_bind; [apply steps_connect_if_named|].
      intros _. apply steps_ret. }
  assert (length (cells w1) = S d) as Hlen1
    by (unfold w1; simpl; rewrite length_app; simpl; lia).
  assert (S d <= length (cells w')) as Hlen' by (destruct Hext as [? _]; lia).
  eapply inv_extends; [exact Hinv1|exact Hext|].
  intros i d0 srcs sel [Heq Hi]. simplify_eq.
  rewrite Forall_forall in Hvalid. split; [by apply Hvalid|]. split; [lia|]. split.
  - apply Forall_forall. intros x Hx. apply Hvalid in Hx. lia.
  - intros p pw s Hw Hk. destruct Hinv as [_ Hown].
    destruct (Hown p pw s d Hw Hk) as (Hlt & _). unfold d in Hlt. lia.
Qed.

Lemma final_then_ret {A} (m : M A) w w' :
  final ((m >> ret tt) w) = Some w' -> final (m w) = Some w'.
Proof. unfold bind, ret. by destruct (m w). Qed.

Lemma inv_empty : inv (mkWorld [] [] []).
Proof.
  split.
  - intros i st d srcs sel Hi. done.
  - intros p pw s c Hw. done.
Qed.

Theorem inv_preserved c w w' :
  inv w -> final (perform c w) = Some w' -> inv w'.
Proof.
  intros Hinv H. destruct c; unfold perform in H; try apply final_then_ret in H.
  - eapply inv_steps_nothing; [done|]. by apply (steps_new_widget nothing classes NotProvider).
  - eapply inv_steps_nothing; [done|]. by apply (steps_mount nothing p child).
  - eapply inv_steps_nothing; [done|]. by apply (steps_use_state widget v name).
  - eapply inv_steps_nothing; [done|]. by apply (steps_use_reducer widget reducer v name).
  - eapply inv_steps_nothing; [done|].
    by apply (steps_use_model_reducer widget reducer v name).
  - by eapply use_derived_inv.
  - eapply inv_same_shape; [|done]. by eapply State_set_same_shape.
  - eapply inv_same_shape; [|done]. by eapply _set_value_same_shape.
  - eapply inv_same_shape; [|done]. by eapply dispatch_same_shape.
  - eapply inv_steps_nothing; [done|].
    apply (steps_State_watch nothing c (WCallback cb)); [by left|done].
  - eapply inv_steps_nothing; [done|]. by apply (steps_unwatch nothing c (WCallback cb)).
  - eapply inv_steps_nothing; [done|]. by apply (steps_State_subscribe nothing c widget).
  - eapply inv_steps_nothing; [done|]. by apply (steps_State_unsubscribe nothing c widget).
  - by eapply StoreProvider__init__inv.
  - eapply inv_steps_nothing; [done|].
    by apply (steps_Store_use fuel store widget subscribe).
  - eapply inv_steps_nothing; [done|].
    by apply (steps_ContextProvider__init__ classes context v).
  - eapply inv_steps_nothing; [done|].
    by apply (steps_use_context fuel widget context subscribe required).
Qed.

(** Every world built through the library satisfies the invariant:
    derivations point from earlier to later cells, and each store
    provider has a cell of its own that no derivation assigns. *)
Theorem reachable_inv w : reachable w -> inv w.
Proof.
  induction 1 as [|c w w' _ IH H]; [apply inv_empty|]. by eapply inv_preserved.
Qed.

Lemma reachable_run_all script :
  forall w w', reachable w -> run_all script w = Some w' -> reachable w'.
Proof.
  induction script as [|c rest IH]; intros w w' Hr H; simpl in H.
  - by simplify_eq.
  - destruct (final (perform c w)) as [w1|] eqn:H1; [|done].
    eapply IH; [|exact H]. by eapply reachable_step.
Qed.

(** [Store.use] below a provider hands out that provider's cell and that
    provider's [dispatch] closure. *)
Lemma Store_use_resolves fuel store widget wd subscribe l p pw s c w :
  chain (widgets w) widget l -> length l <= fuel ->
  nearest (provides_store store) (widgets w) l = Some p ->
  widgets w !! p = Some pw -> kind pw = IsStoreProvider s c ->
  widgets w !! widget = Some wd ->
  exists w',
    Store_use fuel store widget subscribe w =
      Returned (mkStoreHandle c (ProviderDispatch p store) store) w' /\
    widgets w' = widgets w /\
    forall k, k <> c -> cells w' !! k = cells w !! k.
Proof.
  intros Hch Hf Hn Hp Hk Hwd.
  unfold Store_use, Store__find_provider, connect_store_effects, walk, bind at 1.
  rewrite (walk_up_chain _ _ _ _ Hch) by done. rewrite Hn.
  unfold bind at 1, load_widget. rewrite Hp, Hk.
  destruct subscribe.
  - unfold bind at 1, State_subscribe, update. unfold bind at 1.
    rewrite (connect_run _ _ _ wd) by done. unfold ret.
    eexists. split; [reflexivity|]. split; [done|].
    intros k Hne. simpl. by rewrite !list_lookup_alter_ne by congruence.
  - unfold bind at 1, ret. unfold bind at 1.
    rewrite (connect_run _ _ _ wd) by done.
    eexists. split; [reflexivity|]. split; [done|].
    intros k Hne. simpl. by rewrite !list_lookup_alter_ne by congruence.
Qed.

(** ** Derivations *)

(** An accepted change of a cell whose watchers are user callbacks that
    return: the value is assigned, each watcher is called once, in order,
    and each subscriber is notified. *)
Lemma _set_value_quiet fuel c v st w :
  cells w !! c = Some st ->
  unchanged (_value st) v = false ->
  Forall (quiet (_value st) v) (_watchers st) ->
  _set_value (S fuel) c v w =
  Returned tt
    (add_events
       (map (fun wt => Called c wt (_value st) v) (_watchers st) ++
        map (fun widget => Posted widget c (_value st) v) (_subscribers st))
       (with_cells (alter (set__value v) c) w)).
Proof.
  intros Hst Hu Hq. rewrite (_set_value_changed fuel c v st) by done.
  unfold bind. rewrite for_each_quiet by done.
  by rewrite for_each_posts, add_events_app.
Qed.

Lemma get_values_two a b sa sb w :
  cells w !! a = Some sa -> cells w !! b = Some sb ->
  get_values [a; b] w = Returned [_value sa; _value sb] w.
Proof.
  intros Ha Hb. simpl. unfold bind, State_get, bind, load, ret.
  by rewrite Ha, Hb.
Qed.

Lemma about_app c evs1 evs2 : about c (evs1 ++ evs2) = about c evs1 ++ about c evs2.
Proof. unfold about. apply filter_app. Qed.

(** ** Further properties of [State] *)

(** X2: in a well-formed world [set(v)] with a value that is not callable
    ends (with the fuel the later cells need), whether the watchers return
    or one of them raises, and [get()] then returns [v] when [v] differs
    from the previous value and the previous value, still the object that
    was stored, when it compares equal. *)
Theorem set_then_get fuel self v st w :
  well_formed w -> cells w !! self = Some st -> callable v = false ->
  length (cells w) - self <= S fuel ->
  exists w',
    final (State_set (S fuel) self v w) = Some w' /\
    State_get self w' =
      Returned (if unchanged (_value st) v then _value st else v) w'.
Proof.
  intros Hwf Hst Hc Hf. rewrite State_set_literal by done.
  destruct (unchanged (_value st) v) eqn:Hu.
  - exists w. rewrite (_set_value_unchanged fuel self v st) by done.
    split; [done|]. unfold State_get, bind, load, ret. by rewrite Hst.
  - destruct (_set_value_total (S fuel) self v w) as [w' H]; [done| |done|].
    { by eapply lookup_lt_Some. }
    exists w'. split; [done|].
    by destruct (_set_value_commits fuel self v st w w').
Qed.

Lemma _set_value_about fuel self v st w w' :
  well_formed w -> cells w !! self = Some st ->
  unchanged (_value st) v = false ->
  _set_value (S fuel) self v w = Returned tt w' ->
  about self (since w w') =
    map (fun wt => Called self wt (_value st) v) (_watchers st) ++
    map (fun widget => Posted widget self (_value st) v) (_subscribers st).
Proof.
  intros Hwf Hst Hu H.
  rewrite (_set_value_changed fuel self v st) in H by done.
  set (w1 := with_cells (alter (set__value v) self) w) in *.
  assert (cells w1 !! self = Some (set__value v st)) as Hst1
    by by apply committed_lookup.
  assert (well_formed w1) as Hwf1 by by apply committed_well_formed.
  unfold bind in H.
  destruct (for_each _ (_watchers st) w1) as [[] w2|e w2|] eqn:Hws; try discriminate.
  rewrite for_each_posts in H. simplify_eq.
  assert (ran self (map (fun wt => Called self wt (_value st) v) (_watchers st)) w1 w2)
    as R1 by (eapply watchers_ran; eauto).
  pose proof (ran_posts self (_value st) v (_subscribers st) w2) as R2.
  destruct (ran_trans _ _ _ _ _ _ R1 R2) as (_ & _ & _ & Ha).
  rewrite <- Ha. unfold since. simpl. done.
Qed.

(** X3: when [set(v)] is an accepted change and returns, what was done
    about the cell is: first every watcher called once with [(old, new)],
    in registration order, then one [StateChanged(old, new)] posted to
    every subscriber.  The subscribers are a set: each gets its
    notification after the last watcher, and no order among them is
    stated.  The cascades started by derivations in between add nothing
    about the cell itself. *)
Theorem change_calls_watchers_then_posts fuel self v st w w' :
  well_formed w -> cells w !! self = Some st -> callable v = false ->
  unchanged (_value st) v = false ->
  State_set (S fuel) self v w = Returned tt w' ->
  exists posts,
    about self (since w w') =
      map (fun wt => Called self wt (_value st) v) (_watchers st) ++ posts /\
    (posts ≡ₚ map (fun widget => Posted widget self (_value st) v) (_subscribers st)).
Proof.
  intros Hwf Hst Hc Hu H. rewrite State_set_literal in H by done.
  exists (map (fun widget => Posted widget self (_value st) v) (_subscribers st)).
  split; [|reflexivity]. by apply (_set_value_about fuel self v st w w').
Qed.

Lemma closed_depends w self : closed w (depends w self).
Proof. intros i st d srcs sel Hi Hst Hin. by eapply depends_step. Qed.

(** X4: [set] changes no cell other than the one it is called on and the
    cells derived from it, directly or through other derivations, and
    calls no watcher and posts no notification of any other cell; no cell
    gains or loses a watcher or a subscriber, and the widgets stay as
    they are. *)
Theorem set_reaches_only_derived_cells fuel self v w w' :
  final (State_set fuel self v w) = Some w' ->
  widgets w' = widgets w /\
  map shape (cells w') = map shape (cells w) /\
  (forall k, ~ depends w self k -> cells w' !! k = cells w !! k) /\
  trace w' = trace w ++ since w w' /\
  Forall (fun ev => depends w self (cell_of ev)) (since w w').
Proof.
  intros H.
  assert (frame (depends w self) (fun ev => depends w self (cell_of ev)) w w') as F.
  { eapply State_set_with_frame; [|apply closed_depends|exact H].
    intros v0 w0 w0' Hc H0.
    eapply (_set_value_frame (depends w self)); eauto. apply depends_self. }
  destruct (frame_since _ _ _ _ F) as [Ht Hq].
  destruct F as ([Hs Hw] & Hk & _). done.
Qed.

(** X5: in every world built through the library's operations, the
    watcher of a derivation sits on a cell created before the derived
    cell, the derived cell and all the sources exist: derivations form no
    cycle. *)
Theorem derivations_point_forward w i st d srcs sel :
  reachable w ->
  cells w !! i = Some st -> WSourceChange d srcs sel ∈ _watchers st ->
  i < d /\ d < length (cells w) /\ Forall (fun s => s < length (cells w)) srcs.
Proof.
  intros Hr. destruct (reachable_inv w Hr) as [Hwf _]. apply Hwf.
Qed.

(** X6: in every world built through the library's operations, [set] on
    an existing cell ends once the fuel covers the number of cells: the
    cascade through the derivations cannot recurse for ever. *)
Theorem cascades_terminate fuel self v w :
  reachable w -> self < length (cells w) -> length (cells w) <= fuel ->
  exists w', final (State_set fuel self v w) = Some w'.
Proof.
  intros Hr Hs Hf. destruct (reachable_inv w Hr) as [Hwf _].
  apply State_set_total; [done|done|lia].
Qed.

(** X7: in every world built through the library's operations, the cell
    of a [StoreProvider] exists, is assigned by no derivation and is held
    by no other provider widget, of this store or of another. *)
Theorem provider_cells_are_exclusive w p pw s c :
  reachable w ->
  widgets w !! p = Some pw -> kind pw = IsStoreProvider s c ->
  c < length (cells w) /\
  (forall i st srcs sel, cells w !! i = Some st ->
     WSourceChange c srcs sel ∉ _watchers st) /\
  (forall p' pw' s', widgets w !! p' = Some pw' ->
     kind pw' = IsStoreProvider s' c -> p' = p).
Proof.
  intros Hr Hp Hk. destruct (reachable_inv w Hr) as [_ Hown].
  destruct (Hown p pw s c Hp Hk) as (Hlen & Hnt & Huniq).
  split; [done|]. split; [|done].
  intros i st srcs sel Hi Hin. apply Hnt. by exists i, st, srcs, sel.
Qed.

(** ** Further properties of [effects.py] *)

Lemma ascii_compare_trans a b c :
  Ascii.compare a b = Lt -> Ascii.compare b c = Lt -> Ascii.compare a c = Lt.
Proof.
  unfold Ascii.compare. rewrite !N.compare_lt_iff. apply N.lt_trans.
Qed.

Lemma string_compare_trans a :
  forall b c, String.compare a b = Lt -> String.compare b c = Lt ->
              String.compare a c = Lt.
Proof.
  induction a as [|x a IH]; intros [|y b] [|z c]; simpl; try done.
  destruct (Ascii.compare x y) eqn:Hxy; try done;
    destruct (Ascii.compare y z) eqn:Hyz; try done.
  - apply Ascii.compare_eq_iff in Hxy, Hyz. subst.
    assert (Ascii.compare z z = Eq) as -> by (unfold Ascii.compare; apply N.compare_refl).
    apply IH.
  - apply Ascii.compare_eq_iff in Hxy. subst. by rewrite Hyz.
  - apply Ascii.compare_eq_iff in Hyz. subst. by rewrite Hxy.
  - by rewrite (ascii_compare_trans x y z).
Qed.

Lemma insert_sorted_sorted x l :
  StronglySorted (fun a b => String.compare a b = Lt) l ->
  StronglySorted (fun a b => String.compare a b = Lt) (insert_sorted x l).
Proof.
  induction 1 as [|y l Hs IH Hy]; simpl.
  - constructor; [constructor|constructor].
  - destruct (String.compare x y) eqn:Hxy.
    + by constructor.
    + constructor; [by constructor|]. constructor; [done|].
      eapply Forall_impl; [exact Hy|]. intros z Hz. simpl in Hz.
      by eapply string_compare_trans.
    + constructor; [done|]. apply Forall_forall. intros z Hz.
      apply insert_sorted_elem in Hz as [->|Hz].
      * rewrite String.compare_antisym, Hxy. done.
      * rewrite Forall_forall in Hy. by apply Hy.
Qed.

Lemma dir_sorted classes :
  StronglySorted (fun a b => String.compare a b = Lt) (dir classes).
Proof.
  unfold dir. induction (concat _) as [|x l IH]; simpl; [constructor|].
  by apply insert_sorted_sorted.
Qed.

Lemma filter_sorted {A} (R : A -> A -> Prop) (f : A -> bool) l :
  StronglySorted R l -> StronglySorted R (List.filter f l).
Proof.
  induction 1 as [|y l Hs IH Hy]; simpl; [constructor|].
  destruct (f y); [|done]. constructor; [done|].
  apply Forall_forall. intros z Hz. apply list_elem_of_In, filter_In in Hz as [Hz _].
  rewrite Forall_forall in Hy. by apply Hy, list_elem_of_In.
Qed.

Lemma effect_methods_elem classes wanted m :
  m ∈ effect_methods classes wanted <->
  startswith_underscore m = false /\
  exists targets,
    class_getattr classes m = Some (Function (Some targets)) /\ wanted ∈ targets.
Proof.
  unfold effect_methods. rewrite list_elem_of_In, filter_In, <- list_elem_of_In.
  unfold connects. split.
  - intros [_ H]. apply andb_true_iff in H as [Hu H].
    apply negb_true_iff in Hu. split; [done|].
    destruct (class_getattr classes m) as [[[targets|]|]|]; try done.
    exists targets. split; [done|]. by apply bool_decide_eq_true in H.
  - intros [Hu (targets & Hg & Hin)]. split; [by eapply class_getattr_dir|].
    rewrite Hu, Hg. simpl. by apply bool_decide_eq_true.
Qed.

(** X8: [connect_effects] (for a state name) and [connect_store_effects]
    (for a store) leave everything but the watcher list of the given cell
    as it is, and append to that list one watcher per method name [m]
    such that [m] does not start with an underscore and the attribute
    that the widget's class resolves [m] to (its own binding, else the
    first base class's along the MRO) is a function whose [@effect]
    registration lists the wanted target.  The methods are taken in the
    order of [dir()], ascending by name, each once. *)
Theorem connect_registers_effect_methods widget wd wanted state w :
  widgets w !! widget = Some wd ->
  exists ms,
    connect widget wanted state w =
      Returned tt
        (with_cells (alter (add_watchers (map (WEffect widget) ms)) state) w) /\
    StronglySorted (fun a b => String.compare a b = Lt) ms /\
    forall m, m ∈ ms <->
      startswith_underscore m = false /\
      exists targets,
        class_getattr (mro wd) m = Some (Function (Some targets)) /\
        wanted ∈ targets.
Proof.
  intros Hwd. exists (effect_methods (mro wd) wanted). split; [|split].
  - by apply connect_run.
  - apply filter_sorted, dir_sorted.
  - apply effect_methods_elem.
Qed.

(** X9: a method is not connected when its name starts with an
    underscore, or when the widget's own class binds the name to
    something that carries no registration for the state's name: an
    undecorated override hides the [@effect] method of a base class. *)
Theorem private_or_overridden_method_is_not_connected widget own bases par k m n
    state st w :
  widgets w !! widget = Some (mkWidget (own :: bases) par k) ->
  cells w !! state = Some st ->
  startswith_underscore m = true \/
    (exists x, assoc m (class_dict own) = Some x /\
               forall targets, x = Function (Some targets) -> TName n ∉ targets) ->
  WEffect widget m ∉ _watchers st ->
  exists w' st',
    connect_effects widget n state w = Returned tt w' /\
    cells w' !! state = Some st' /\
    WEffect widget m ∉ _watchers st'.
Proof.
  intros Hwd Hst Hm Hnot. unfold connect_effects.
  rewrite (connect_run _ _ _ _ _ Hwd). eexists _, _. split; [done|].
  simpl. rewrite list_lookup_alter_eq, Hst. simpl. split; [done|].
  simpl. intros Hin. apply elem_of_app in Hin as [Hin|Hin]; [done|].
  apply list_elem_of_fmap in Hin as (m' & [= <-] & Hin).
  apply effect_methods_elem in Hin as [Hu (targets & Hg & Ht)].
  destruct Hm as [Hm|(x & Hx & Hno)]; [congruence|].
  simpl in Hg. rewrite Hx in Hg. injection Hg as ->. by eapply Hno.
Qed.

(** X10: [@effect] with no target raises [ValueError] whatever it is
    about to decorate; otherwise decorating a function extends its
    registration, so stacked decorators accumulate their targets, the
    innermost first. *)
Theorem effect_accumulates_targets targets1 targets2 registration :
  targets1 <> [] -> targets2 <> [] ->
  (forall method,
     effect [] method = inr (ValueError "@effect requires at least one target")) /\
  exists method1,
    effect targets1 (Function registration) = inl method1 /\
    effect targets2 method1 =
      inl (Function (Some (default [] registration ++ targets1 ++ targets2))).
Proof.
  intros H1 H2. split; [done|].
  destruct targets1 as [|t1 l1]; [done|]. destruct targets2 as [|t2 l2]; [done|].
  eexists. split; [done|]. simpl. by rewrite <- app_assoc.
Qed.

(** ** Further properties of [hooks.py] *)

Lemma alter_last {A} (f : A -> A) (l : list A) (x : A) :
  alter f (length l) (l ++ [x]) = l ++ [f x].
Proof. rewrite alter_app_r_alt by done. by rewrite Nat.sub_diag. Qed.

Lemma connect_if_named_run widget wd name c w :
  widgets w !! widget = Some wd ->
  connect_if_named widget name c w =
  Returned tt (with_cells (alter (add_watchers (named_effects widget wd name)) c) w).
Proof.
  intros Hwd. unfold connect_if_named, named_effects.
  assert (ret tt w = Returned tt (with_cells (alter (add_watchers []) c) w)) as Hnil.
  { unfold ret, with_cells. f_equal. destruct w as [cs ws tr]. simpl. f_equal.
    apply list_eq. intros i. destruct (decide (i = c)) as [->|Hne].
    - rewrite list_lookup_alter_eq. destruct (cs !! c) as [st|]; [|done].
      simpl. by rewrite add_watchers_nil.
    - by rewrite list_lookup_alter_ne. }
  destruct name as [n|]; [|done]. destruct (String.eqb n ""); [done|].
  by apply connect_run.
Qed.

Lemma hook_creates_cell widget wd v name w :
  widgets w !! widget = Some wd ->
  (let! state := new_State v name in
   State_subscribe state widget >>
   connect_if_named widget name state >>
   ret state) w =
  Returned (length (cells w))
    (with_cells (fun cs => cs ++ [mkState v [widget] (named_effects widget wd name) name])
       w).
Proof.
  intros Hwd. unfold bind at 1, new_State.
  unfold bind at 1, State_subscribe, update.
  set (w1 := with_cells _ (with_cells _ w)).
  unfold bind. rewrite (connect_if_named_run widget wd) by done.
  unfold ret. f_equal. unfold w1, with_cells. simpl. f_equal.
  rewrite !alter_last. done.
Qed.

(** X11: [use_state], [use_reducer] and [use_model_reducer] create one new
    cell and change nothing else: the cell holds the initial value as it
    was given (a callable is stored, not applied), its name is [name], its
    only subscriber is the widget, and its watchers are the widget's
    effect methods for [name], none when [name] is [None] or the empty
    string.  No watcher is called and nothing is posted at creation. *)
Theorem hooks_create_one_cell widget wd reducer v name w :
  widgets w !! widget = Some wd ->
  let c := length (cells w) in
  let w' :=
    with_cells
      (fun cs => cs ++ [mkState v [widget] (named_effects widget wd name) name]) w in
  use_state widget v name w = Returned (mkStateHandle c name) w' /\
  use_reducer widget reducer v name w =
    Returned (mkReducerHandle c (ReducerDispatch c reducer) name) w' /\
  use_model_reducer widget reducer v name w =
    Returned (mkReducerHandle c (ModelReducerDispatch c reducer) name) w'.
Proof.
  intros Hwd c w'.
  pose proof (hook_creates_cell widget wd v name w Hwd) as H.
  unfold use_state, use_reducer, use_model_reducer.
  unfold bind at 1 in H. unfold bind at 1. unfold bind at 2. unfold bind at 3.
  unfold new_State in *.
  unfold bind at 1 in H. unfold bind at 1. unfold bind at 2. unfold bind at 3.
  unfold State_subscribe, update in *.
  unfold bind in *.
  destruct (connect_if_named widget name _ _) as [[] w1|e w1|]; try discriminate.
  unfold ret in *. by simplify_eq.
Qed.

Lemma same_shape_refl w : same_shape w w.
Proof. by split. Qed.

Lemma State_get_lookup c v w w' :
  State_get c w = Returned v w' -> exists st, cells w !! c = Some st /\ _value st = v.
Proof.
  unfold State_get, bind, load, ret. destruct (cells w !! c) as [st|]; [|done].
  intros [= <- _]. eauto.
Qed.

Lemma _set_value_gated fuel c r st w :
  well_formed w -> cells w !! c = Some st -> length (cells w) - c <= S fuel ->
  exists w1,
    final (_set_value (S fuel) c r w) = Some w1 /\ same_shape w w1 /\
    State_get c w1 = Returned (if unchanged (_value st) r then _value st else r) w1.
Proof.
  intros Hwf Hst Hf. destruct (unchanged (_value st) r) eqn:Hu.
  - exists w. rewrite (_set_value_unchanged fuel c r st) by done.
    split; [done|]. split; [apply same_shape_refl|].
    unfold State_get, bind, load, ret. by rewrite Hst.
  - destruct (_set_value_total (S fuel) c r w) as [w1 H]; [done| |done|].
    { by eapply lookup_lt_Some. }
    exists w1. split; [done|]. split; [by eapply _set_value_same_shape|].
    by destruct (_set_value_commits fuel c r st w w1).
Qed.

Lemma dispatch_step fuel d c f b st action w :
  well_formed w -> binding w d = Some (c, f, b) -> cells w !! c = Some st ->
  length (cells w) - c <= S fuel ->
  exists w1,
    final (dispatch (S fuel) d action w) = Some w1 /\ same_shape w w1 /\
    (dispatch (S fuel) d action w = Returned tt w1 ->
     exists r r',
       call f [_value st; action] = inl r /\
       assigned b (_value st) r = inl r' /\
       State_get c w1 =
         Returned (if unchanged (_value st) r' then _value st else r') w1).
Proof.
  intros Hwf Hb Hst Hf.
  assert (dispatch (S fuel) d action w =
          (let! new_value := lift (call f [_value st; action]) in
           if b then State_set (S fuel) c new_value
           else _set_value (S fuel) c new_value) w) as ->.
  { destruct d as [c0 f0|c0 f0|p store]; simpl in Hb.
    - simplify_eq. unfold dispatch, State_get, bind, load, ret. by rewrite Hst.
    - simplify_eq. unfold dispatch, State_get, bind, load, ret. by rewrite Hst.
    - unfold dispatch, bind at 1, load_widget.
      destruct (widgets w !! p) as [pw|]; [|done]. simpl in Hb.
      destruct (kind pw) as [| |s c0]; try done. simplify_eq.
      unfold State_get, bind, load, ret. by rewrite Hst. }
  unfold bind, lift. destruct (call f [_value st; action]) as [r|e]; simpl.
  2:{ exists w. split; [done|]. split; [apply same_shape_refl|done]. }
  destruct (_set_value_gated fuel c r st w) as (w1 & H1 & Hs1 & Hg1); [done..|].
  destruct b.
  - destruct (callable r) eqn:Hcr.
    + destruct r as [| | | | |g]; try done.
      unfold State_set, State_set_with, bind, load, lift. rewrite Hst.
      destruct (call g [_value st]) as [r'|e] eqn:Hg; simpl.
      * destruct (_set_value_gated fuel c r' st w) as (w2 & H2 & Hs2 & Hg2); [done..|].
        exists w2. split; [done|]. split; [done|]. intros _.
        exists (VFn g), r'. simpl. by rewrite Hg.
      * exists w. split; [done|]. split; [apply same_shape_refl|done].
    + rewrite State_set_literal by done. exists w1. split; [done|]. split; [done|].
      intros _. exists r, r. split; [done|]. split; [|done].
      by destruct r.
  - exists w1. split; [done|]. split; [done|]. intros _. by exists r, r.
Qed.

(** X12: dispatching a list of actions through a [dispatch] closure (of
    [use_reducer], of [use_model_reducer] or of a [StoreProvider]) in a
    well-formed world ends, and when every call returns the cell holds the
    fold of the reducer over the actions: each step applies the reducer
    to the value the previous step left, and a result that compares equal
    to the current value is dropped, the cell keeping the object it had.
    The closures that assign through [set] apply a callable result to the
    current value first. *)
Theorem dispatch_folds_reducer fuel d c f b actions :
  forall st w,
    well_formed w -> binding w d = Some (c, f, b) -> cells w !! c = Some st ->
    length (cells w) - c <= S fuel ->
    exists w',
      final (for_each (dispatch (S fuel) d) actions w) = Some w' /\
      (for_each (dispatch (S fuel) d) actions w = Returned tt w' ->
       exists v, reduce b f (_value st) actions = inl v /\
                 State_get c w' = Returned v w').
Proof.
  induction actions as [|action rest IH]; intros st w Hwf Hb Hst Hf.
  { exists w. split; [done|]. intros _. exists (_value st). split; [done|].
    unfold State_get, bind, load, ret. by rewrite Hst. }
  destruct (dispatch_step fuel d c f b st action w) as (w1 & H1 & Hs1 & Hr1); [done..|].
  rewrite for_each_cons. unfold bind.
  destruct (dispatch (S fuel) d action w) as [[] w1'|e w1'|] eqn:Hd; try done.
  2:{ exists w1'. split; [done|]. done. }
  simpl in H1. simplify_eq.
  destruct (Hr1 eq_refl) as (r & r' & Hcall & Hass & Hget).
  destruct (State_get_lookup _ _ _ _ Hget) as (st1 & Hst1 & Hv1).
  destruct (IH st1 w1) as (w' & H' & Hr').
  - by eapply well_formed_same_shape.
  - destruct Hs1 as [_ Hw]. destruct d; simpl in *; [done|done|by rewrite Hw].
  - done.
  - by rewrite (same_shape_length w w1).
  - exists w'. split; [done|]. intros Hret. destruct (Hr' Hret) as (v & Hred & Hv).
    exists v. split; [|done]. simpl. by rewrite Hcall, Hass, <- Hv1.
Qed.

Lemma _set_value_user_watchers fuel c r st w :
  cells w !! c = Some st ->
  (forall old_value new_value, Forall (quiet old_value new_value) (_watchers st)) ->
  exists w1 st1,
    _set_value (S fuel) c r w = Returned tt w1 /\
    widgets w1 = widgets w /\
    cells w1 !! c = Some st1 /\ _watchers st1 = _watchers st /\
    _value st1 = if unchanged (_value st) r then _value st else r.
Proof.
  intros Hst Hq. destruct (unchanged (_value st) r) eqn:Hu.
  - exists w, st. by rewrite (_set_value_unchanged fuel c r st).
  - rewrite (_set_value_quiet fuel c r st) by done.
    eexists _, (set__value r st). split; [done|]. split; [done|].
    split; [|done]. simpl. by rewrite list_lookup_alter_eq, Hst.
Qed.

(** X13: when the watchers of the cell are user callbacks and effect
    methods that do not raise, a sequence of dispatches raises only what
    the reducer (or a callable it returned, applied by [set]) raises, at
    the first action where it does; otherwise every call returns and the
    cell holds the fold of the reducer over the actions. *)
Theorem dispatch_raises_what_the_reducer_raises fuel d c f b actions :
  forall st w,
    binding w d = Some (c, f, b) -> cells w !! c = Some st ->
    (forall old_value new_value, Forall (quiet old_value new_value) (_watchers st)) ->
    match reduce b f (_value st) actions with
    | inl v =>
        exists w', for_each (dispatch (S fuel) d) actions w = Returned tt w' /\
                   State_get c w' = Returned v w'
    | inr e =>
        exists w', for_each (dispatch (S fuel) d) actions w = Raised e w'
    end.
Proof.
  induction actions as [|action rest IH]; intros st w Hb Hst Hq.
  { simpl. exists w. split; [done|].
    unfold State_get, bind, load, ret. by rewrite Hst. }
  assert (dispatch (S fuel) d action w =
          (let! new_value := lift (call f [_value st; action]) in
           if b then State_set (S fuel) c new_value
           else _set_value (S fuel) c new_value) w) as Hd.
  { destruct d as [c0 f0|c0 f0|p store]; simpl in Hb.
    - simplify_eq. unfold dispatch, State_get, bind, load, ret. by rewrite Hst.
    - simplify_eq. unfold dispatch, State_get, bind, load, ret. by rewrite Hst.
    - unfold dispatch, bind at 1, load_widget.
      destruct (widgets w !! p) as [pw|]; [|done]. simpl in Hb.
      destruct (kind pw) as [| |s c0]; try done. simplify_eq.
      unfold State_get, bind, load, ret. by rewrite Hst. }
  assert (for_each (dispatch (S fuel) d) (action :: rest) w =
          match call f [_value st; action] with
          | inl r =>
              ((if b then State_set (S fuel) c r else _set_value (S fuel) c r) >>
               for_each (dispatch (S fuel) d) rest) w
          | inr e => Raised e w
          end) as Hrun.
  { rewrite for_each_cons. unfold bind at 1. rewrite Hd. unfold bind at 1, lift.
    by destruct (call f [_value st; action]). }
  clear Hd. cbn [reduce].
  destruct (call f [_value st; action]) as [r|e]; [|by exists w].
  assert (forall r',
    assigned b (_value st) r = inl r' ->
    (if b then State_set (S fuel) c r else _set_value (S fuel) c r) w =
    _set_value (S fuel) c r' w) as Hassign.
  { intros r' Hr'. unfold assigned in Hr'. destruct b; [|by simplify_eq].
    destruct r as [| | | | |g]; simplify_eq; try done.
    unfold State_set, State_set_with, bind, load, lift. by rewrite Hst, Hr'. }
  destruct (assigned b (_value st) r) as [r'|e] eqn:Hass.
  - destruct (_set_value_user_watchers fuel c r' st w Hst Hq)
      as (w1 & st1 & Hsv & Hw1 & Hst1 & Hws1 & Hv1).
    assert (for_each (dispatch (S fuel) d) (action :: rest) w =
            for_each (dispatch (S fuel) d) rest w1) as ->.
    { rewrite Hrun. unfold bind. by rewrite (Hassign r' eq_refl), Hsv. }
    rewrite <- Hv1. apply IH; [|done|by rewrite Hws1].
    destruct d; simpl in *; [done|done|by rewrite Hw1].
  - unfold assigned in Hass. destruct b; [|done].
    destruct r as [| | | | |g]; try done.
    exists w. rewrite Hrun. unfold bind, State_set, State_set_with, bind, load, lift.
    by rewrite Hst, Hass.
Qed.

(** ** Further properties of [store.py] *)

Lemma nearest_None is_provider ws l :
  (forall x wd, x ∈ l -> ws !! x = Some wd -> is_provider wd = false) ->
  nearest is_provider ws l = None.
Proof.
  induction l as [|x l IH]; intros H; simpl; [done|].
  destruct (ws !! x) as [wd|] eqn:Hx.
  - rewrite (H x wd) by (done || by left). apply IH. intros y wdy Hy. apply H. by right.
  - apply IH. intros y wdy Hy. apply H. by right.
Qed.

(** X14: [Store.use] from a widget with no provider of this very store on
    its ancestor chain (providers of other stores do not count) raises
    [RuntimeError], naming the store (['unnamed'] when it has no name or
    an empty one) and the widget's class, and changes nothing: the widget
    is not subscribed and no effect is connected. *)
Theorem Store_use_without_provider fuel store widget wd subscribe l w :
  chain (widgets w) widget l -> length l <= fuel ->
  (forall x wdx, x ∈ l -> widgets w !! x = Some wdx ->
     provides_store store wdx = false) ->
  widgets w !! widget = Some wd ->
  Store_use fuel store widget subscribe w =
  Raised (RuntimeError (Store_not_found_message store wd)) w.
Proof.
  intros Hch Hf Hnone Hwd.
  unfold Store_use, Store__find_provider, walk, bind at 1.
  rewrite (walk_up_chain _ _ _ _ Hch) by done.
  rewrite (nearest_None _ _ _ Hnone).
  unfold bind, load_widget. by rewrite Hwd.
Qed.

Lemma Store_use_run fuel store widget wd subscribe l p pw s c w :
  chain (widgets w) widget l -> length l <= fuel ->
  nearest (provides_store store) (widgets w) l = Some p ->
  widgets w !! p = Some pw -> kind pw = IsStoreProvider s c ->
  widgets w !! widget = Some wd ->
  Store_use fuel store widget subscribe w =
  Returned (mkStoreHandle c (ProviderDispatch p store) store)
    (with_cells
       (alter (add_watchers (store_effects widget wd store)) c)
       (if subscribe then with_cells (alter (subscribed widget) c) w else w)).
Proof.
  intros Hch Hf Hn Hp Hk Hwd.
  unfold Store_use, Store__find_provider, walk, bind at 1.
  rewrite (walk_up_chain _ _ _ _ Hch) by done. rewrite Hn.
  unfold bind at 1, load_widget. rewrite Hp, Hk.
  unfold connect_store_effects, store_effects.
  destruct subscribe.
  - unfold bind at 1, State_subscribe, update. fold (subscribed widget).
    unfold bind. rewrite (connect_run _ _ _ wd) by done. done.
  - unfold bind at 1, ret at 1.
    unfold bind. rewrite (connect_run _ _ _ wd) by done. done.
Qed.

(** X15: [Store.use] from a widget below providers of the store returns a
    handle on the cell of the nearest one, with that provider's dispatch
    closure.  The only thing it changes is that cell: the widget joins
    its subscribers when [subscribe] is true (once, however often it
    subscribes), and the widget's effect methods for the store are
    appended to its watchers whether [subscribe] is true or not. *)
Theorem Store_use_binds_nearest_provider fuel store widget wd subscribe l p pw s c st w :
  chain (widgets w) widget l -> length l <= fuel ->
  nearest (provides_store store) (widgets w) l = Some p ->
  widgets w !! p = Some pw -> kind pw = IsStoreProvider s c ->
  widgets w !! widget = Some wd -> cells w !! c = Some st ->
  exists w',
    Store_use fuel store widget subscribe w =
      Returned (mkStoreHandle c (ProviderDispatch p store) store) w' /\
    widgets w' = widgets w /\ trace w' = trace w /\
    (forall k, k <> c -> cells w' !! k = cells w !! k) /\
    cells w' !! c =
      Some (mkState (_value st)
              (if subscribe && negb (bool_decide (widget ∈ _subscribers st))
               then _subscribers st ++ [widget] else _subscribers st)
              (_watchers st ++ store_effects widget wd store)
              (_name st)).
Proof.
  intros Hch Hf Hn Hp Hk Hwd Hst.
  rewrite (Store_use_run fuel store widget wd subscribe l p pw s c) by done.
  eexists. split; [done|]. split; [by destruct subscribe|].
  split; [by destruct subscribe|]. split.
  - intros k Hne. rewrite with_cells_alter_ne by done.
    destruct subscribe; [|done]. by rewrite with_cells_alter_ne.
  - rewrite with_cells_alter_eq. destruct subscribe; simpl.
    + rewrite list_lookup_alter_eq, Hst. simpl. unfold subscribed.
      by destruct (bool_decide (widget ∈ _subscribers st)).
    + by rewrite Hst.
Qed.

(** X16: effects are connected at every call: a widget that calls
    [Store.use] twice is subscribed once, but its effect methods for the
    store are in the watcher list twice, so each accepted change calls
    them twice. *)
Theorem Store_use_twice_connects_effects_twice fuel store widget wd l p pw s c st w :
  chain (widgets w) widget l -> length l <= fuel ->
  nearest (provides_store store) (widgets w) l = Some p ->
  widgets w !! p = Some pw -> kind pw = IsStoreProvider s c ->
  widgets w !! widget = Some wd -> cells w !! c = Some st ->
  widget ∉ _subscribers st ->
  exists h w',
    (Store_use fuel store widget true >> Store_use fuel store widget true) w =
      Returned h w' /\
    cells w' !! c =
      Some (mkState (_value st) (_subscribers st ++ [widget])
              (_watchers st ++ store_effects widget wd store ++
               store_effects widget wd store)
              (_name st)).
Proof.
  intros Hch Hf Hn Hp Hk Hwd Hst Hnew. unfold bind.
  rewrite (Store_use_run fuel store widget wd true l p pw s c) by done.
  set (w1 := with_cells _ (with_cells _ w)).
  rewrite (Store_use_run fuel store widget wd true l p pw s c w1 Hch Hf Hn Hp Hk Hwd).
  eexists _, _. split; [done|].
  rewrite with_cells_alter_eq, with_cells_alter_eq. unfold w1.
  rewrite with_cells_alter_eq, with_cells_alter_eq, Hst. simpl.
  unfold subscribed. simpl.
  rewrite (bool_decide_eq_false_2 (widget ∈ _subscribers st)) by done. simpl.
  rewrite (bool_decide_eq_true_2 (widget ∈ _subscribers st ++ [widget]))
    by (apply elem_of_app; right; by left).
  unfold add_watchers. simpl. by rewrite <- app_assoc.
Qed.

(** ** Further properties of [context.py] *)

(** X17: [use_context] with [required=True] from a widget with no
    provider of this very context on its ancestor chain raises
    [ContextNotFoundError] carrying the context and the widget, with a
    message that names the context (['unnamed'] when it has no name) and
    the widget's class; no cell is created and the widget is not
    subscribed. *)
Theorem use_context_required_raises_not_found fuel widget wd context subscribe l w :
  chain (widgets w) widget l -> length l <= fuel ->
  (forall x wdx, x ∈ l -> widgets w !! x = Some wdx ->
     provides_context context wdx = false) ->
  widgets w !! widget = Some wd ->
  use_context fuel widget context subscribe true w =
  Raised (ContextNotFoundError (context_ref context) widget
            (ContextNotFoundError_message context wd)) w.
Proof.
  intros Hch Hf Hnone Hwd.
  unfold use_context, _find_provider, walk, bind at 1.
  rewrite (walk_up_chain _ _ _ _ Hch) by done.
  rewrite (nearest_None _ _ _ Hnone).
  unfold bind, load_widget. by rewrite Hwd.
Qed.

(** X18: for a [ModelContext] with no provider above the widget,
    [use_context] with [required=False] returns a [ModelContextHandle]
    marked default over a cell of its own, created by this call: the cell
    holds the context's default value, carries the context's name, has no
    watcher, and has the widget as its only subscriber when [subscribe] is
    true and no subscriber otherwise.  Nothing else changes. *)
Theorem use_context_model_default_creates_local_cell fuel widget context subscribe l w :
  chain (widgets w) widget l -> length l <= fuel ->
  (forall x wdx, x ∈ l -> widgets w !! x = Some wdx ->
     provides_context context wdx = false) ->
  is_ModelContext context = true ->
  use_context fuel widget context subscribe false w =
  Returned (mkContextHandle "ModelContextHandle" (length (cells w)) widget context true)
    (with_cells
       (fun cs => cs ++ [mkState (_default_value context)
                           (if subscribe then [widget] else []) []
                           (context_name context)])
       w).
Proof.
  intros Hch Hf Hnone Hm.
  unfold use_context, _find_provider, walk, bind at 1.
  rewrite (walk_up_chain _ _ _ _ Hch) by done.
  rewrite (nearest_None _ _ _ Hnone), Hm.
  unfold bind, new_State, ret. simpl.
  destruct subscribe; simpl; [|done].
  unfold State_subscribe, update. simpl.
  unfold with_cells. simpl. by rewrite alter_last.
Qed.

(** X19: [use_context] connects no effect method and assigns no value,
    whatever its outcome: every cell that was there keeps its value and
    its watchers, and a cell it creates holds the context's default value
    and has no watcher. *)
Theorem use_context_connects_no_effect fuel widget context subscribe required w w' :
  final (use_context fuel widget context subscribe required w) = Some w' ->
  trace w' = trace w /\
  forall c st', cells w' !! c = Some st' ->
    match cells w !! c with
    | Some st => _value st' = _value st /\ _watchers st' = _watchers st
    | None => _value st' = _default_value context /\ _watchers st' = []
    end.
Proof.
  change (final (use_context fuel widget context subscribe required w) = Some w' ->
          kept (_default_value context) w w').
  assert (forall c0 w0 b w1,
    kept (_default_value context) w w0 ->
    final ((if b : bool then State_subscribe c0 widget else ret tt) w0) = Some w1 ->
    kept (_default_value context) w w1) as Hsub.
  { intros c0 w0 b w1 [Ht H0] H. destruct b; simpl in H; simplify_eq; [|done].
    split; [done|]. intros c st' Hc. simpl in Hc.
    destruct (decide (c0 = c)) as [->|Hne].
    - rewrite list_lookup_alter_eq in Hc.
      destruct (cells w0 !! c) as [st0|] eqn:H0c; [|done]. simpl in Hc.
      specialize (H0 c st0 H0c).
      assert (_value st' = _value st0 /\ _watchers st' = _watchers st0) as [-> ->].
      { destruct (bool_decide _) in Hc; by simplify_eq. }
      done.
    - rewrite list_lookup_alter_ne in Hc by done. by apply H0. }
  assert (forall cls lay st0 d w0 w1,
    final (ContextHandle__init__ cls lay st0 widget context d w0) = Some w1 -> w1 = w0)
    as Hinit.
  { intros cls lay st0 d w0 w1.
    unfold ContextHandle__init__, object_setattr, bind, ret, raise.
    destruct lay as [names|]; simpl; [|congruence].
    repeat (destruct (bool_decide _); simpl; [|congruence]). congruence. }
  assert (kept (_default_value context) w w) as Hbase.
  { split; [done|]. intros c st' Hc. by rewrite Hc. }
  intros H. unfold use_context in H.
  apply final_bind in H as [[e He]|(provider & w0 & Hfind & H)].
  { unfold _find_provider, walk in He. by destruct (walk_up _ _ _ _). }
  assert (w0 = w) as ->.
  { unfold _find_provider, walk in Hfind. destruct (walk_up _ _ _ _); by simplify_eq. }
  apply final_bind in H as [[e He]|([c0 d] & w0 & Hfound & H)].
  { destruct provider as [p|].
    - unfold bind, load_widget in He. destruct (widgets w !! p) as [pw|]; [|done].
      by destruct (kind pw).
    - destruct required.
      + unfold bind, load_widget, raise in He.
        destruct (widgets w !! widget); [|done]. by simplify_eq.
      + done. }
  assert (kept (_default_value context) w w0) as H0.
  { destruct provider as [p|].
    - unfold bind, load_widget in Hfound. destruct (widgets w !! p) as [pw|]; [|done].
      destruct (kind pw); unfold ret in Hfound; by simplify_eq.
    - destruct required.
      + unfold bind, load_widget, raise in Hfound. by destruct (widgets w !! widget).
      + unfold bind, new_State, ret in Hfound. simplify_eq. split; [done|].
        intros c st' Hc. simpl in Hc.
        destruct (cells w !! c) as [st|] eqn:Hwc.
        * rewrite lookup_app_l in Hc by (by eapply lookup_lt_Some). by simplify_eq.
        * apply lookup_ge_None in Hwc. rewrite lookup_app_r in Hc by done.
          destruct (c - length (cells w)) as [|n]; simpl in Hc; [|done].
          by simplify_eq. }
  simpl in H.
  apply final_bind in H as [[e He]|([] & w1 & Hs & H)].
  { destruct subscribe; simpl in He; by simplify_eq. }
  assert (final ((if subscribe then State_subscribe c0 widget else ret tt) w0) = Some w1)
    as Hs' by by rewrite Hs.
  pose proof (Hsub c0 w0 subscribe w1 H0 Hs') as H1.
  destruct (is_ModelContext context); apply Hinit in H; by subst.
Qed.

(** ** [ModelState.update] *)

(** X20: [ModelState.update( **kwargs)] is the equality-gated assignment
    of [model_copy(update=kwargs)]: when the copy has the same field map
    as the current model the call changes nothing and calls nobody; when
    it differs, the call ends with the copy as the cell's value (in a
    well-formed world, with the fuel the later cells need).  On a cell
    that holds no model the call raises [AttributeError] and changes
    nothing.  [ModelContextHandle.update], which goes through [set], does
    the same. *)
Theorem update_assigns_the_copy fuel self st kwargs w :
  well_formed w -> cells w !! self = Some st ->
  length (cells w) - self <= S fuel ->
  (forall h, handle_state h = self ->
     ModelContextHandle_update (S fuel) h kwargs w =
     ModelState_update (S fuel) self kwargs w) /\
  match _value st with
  | VModel m =>
      if model_dump_eq m (model_copy m kwargs)
      then ModelState_update (S fuel) self kwargs w = Returned tt w
      else exists w',
             final (ModelState_update (S fuel) self kwargs w) = Some w' /\
             State_get self w' = Returned (VModel (model_copy m kwargs)) w'
  | v =>
      ModelState_update (S fuel) self kwargs w =
        Raised (AttributeError (py_type_name v) "model_copy") w
  end.
Proof.
  intros Hwf Hst Hf. split.
  - intros h <-.
    unfold ModelContextHandle_update, ModelState_update, State_get, bind, load, ret, lift.
    rewrite Hst. destruct (_value st); simpl; done.
  - assert (ModelState_update (S fuel) self kwargs w =
            match value_model_copy (_value st) kwargs with
            | inl new_value => _set_value (S fuel) self new_value w
            | inr e => Raised e w
            end) as ->.
    { unfold ModelState_update, bind, load, lift. rewrite Hst.
      by destruct (value_model_copy _ _). }
    destruct (_value st) as [| | | |m|] eqn:Hv; try done.
    cbn [value_model_copy].
    destruct (model_dump_eq m (model_copy m kwargs)) eqn:Hd.
    + apply (_set_value_unchanged fuel self _ st); [done|]. by rewrite Hv.
    + destruct (_set_value_total (S fuel) self (VModel (model_copy m kwargs)) w)
        as [w' H]; [done| |done|].
      { by eapply lookup_lt_Some. }
      exists w'. split; [done|].
      destruct (_set_value_commits fuel self (VModel (model_copy m kwargs)) st w w');
        try done.
      by rewrite Hv.
Qed.

(** ** [reducer_context.py] *)

Lemma reducer_walk_up_chain is_provider ws c l :
  chain ws c l ->
  forall fuel, length l <= fuel ->
  reducer_walk_up fuel is_provider ws c = Some (find is_provider l).
Proof.
  induction 1 as [c wd Hc Hp|c wd p l Hc Hp _ IH]; intros [|fuel] Hf;
    simpl in *; try lia; rewrite Hc.
  - destruct (is_provider c); [done|]. by rewrite Hp.
  - destruct (is_provider c); [done|]. rewrite Hp. apply IH. lia.
Qed.

Lemma find_first {A} (P : A -> bool) l x :
  find P l = Some x ->
  exists l1 l2, l = l1 ++ x :: l2 /\ P x = true /\ forall y, y ∈ l1 -> P y = false.
Proof.
  induction l as [|a l IH]; simpl; [done|].
  destruct (P a) eqn:Ha.
  - intros [= <-]. exists [], l. repeat split; try done.
    intros y Hy. by apply elem_of_nil in Hy.
  - intros H. destruct (IH H) as (l1 & l2 & -> & Hx & Hb).
    exists (a :: l1), l2. repeat split; try done.
    intros y Hy. apply elem_of_cons in Hy as [->|Hy]; eauto.
Qed.

Lemma find_none {A} (P : A -> bool) l :
  (forall y, y ∈ l -> P y = false) -> find P l = None.
Proof.
  induction l as [|a l IH]; intros H; simpl; [done|].
  rewrite (H a) by by left. apply IH. intros y Hy. apply H. by right.
Qed.

(** [ReducerProvider.__init__] creates the provider widget and
    records the context and the handle on it; the handle is stored as it
    is given, no cell is created.  A lookup of the new widget gives
    them back, the new widget provides its context, and what the table
    says of every other widget is unchanged. *)
Lemma ReducerProvider_init_records_the_handle classes reactive_context reducer_handle
    providers w :
  exists providers',
    ReducerProvider__init__ classes reactive_context reducer_handle providers w =
      Returned (length (widgets w), providers')
        (with_widgets (fun ws => ws ++ [mkWidget classes None NotProvider]) w) /\
    provider_at providers' (length (widgets w)) =
      Some (mkReducerProvider reactive_context reducer_handle) /\
    provides_reducer providers' reactive_context (length (widgets w)) = true /\
    forall q, q <> length (widgets w) ->
      provider_at providers' q = provider_at providers q.
Proof.
  eexists. split; [reflexivity|]. split; [|split].
  - simpl. by rewrite Nat.eqb_refl.
  - unfold provides_reducer. simpl. by rewrite !Nat.eqb_refl.
  - intros q Hq. simpl. by rewrite (proj2 (Nat.eqb_neq _ _)) by done.
Qed.

(** X21: what a [ReducerProvider] is given is what its consumers get:
    after [ReducerProvider(context, handle)] is created and a widget is
    mounted under it, [use_reducer_context(widget, context)] returns that
    very handle, with its cell and its dispatch closure, not a copy or a
    wrapper; unlike [ContextProvider], the provider's constructor
    returns. *)
Theorem provided_reducer_handle_is_consumed fuel classes context handle providers
    child wdc subscribe w :
  widgets w !! child = Some wdc ->
  provides_reducer providers context child = false ->
  exists w',
    (let! made := ReducerProvider__init__ classes context handle providers in
     mount (fst made) child >>
     use_reducer_context (S (S fuel)) (snd made) child context subscribe) w =
    Returned handle w'.
Proof.
  intros Hc Hnot.
  assert (child < length (widgets w)) as Hlt by by eapply lookup_lt_Some.
  set (p := length (widgets w)).
  set (rp := mkReducerProvider context handle).
  set (ws := alter (fun wd => mkWidget (mro wd) (Some p) (kind wd)) child
               (widgets w ++ [mkWidget classes None NotProvider])).
  set (w2 := mkWorld (cells w) ws (trace w)).
  assert ((let! made := ReducerProvider__init__ classes context handle providers in
           mount (fst made) child >>
           use_reducer_context (S (S fuel)) (snd made) child context subscribe) w =
          use_reducer_context (S (S fuel)) ((p, rp) :: providers) child context
            subscribe w2) as -> by done.
  assert (ws !! child = Some (mkWidget (mro wdc) (Some p) (kind wdc))) as Hchild.
  { unfold ws. rewrite list_lookup_alter_eq, lookup_app_l, Hc by done. done. }
  assert (ws !! p = Some (mkWidget classes None NotProvider)) as Hp.
  { unfold ws. rewrite list_lookup_alter_ne by (unfold p; lia).
    rewrite lookup_app_r by done. unfold p. by rewrite Nat.sub_diag. }
  assert (provider_at ((p, rp) :: providers) p = Some rp) as Hat
    by (simpl; by rewrite Nat.eqb_refl).
  assert (reducer_walk_up (S (S fuel)) (provides_reducer ((p, rp) :: providers) context)
            ws child = Some (Some p)) as Hwalk.
  { cbn [reducer_walk_up]. rewrite Hchild.
    assert (provides_reducer ((p, rp) :: providers) context child = false) as ->.
    { unfold provides_reducer. simpl.
      rewrite (proj2 (Nat.eqb_neq p child)) by (unfold p; lia). exact Hnot. }
    simpl. rewrite Hp.
    assert (provides_reducer ((p, rp) :: providers) context p = true) as ->; [|done].
    unfold provides_reducer. rewrite Hat. simpl. apply Nat.eqb_refl. }
  unfold use_reducer_context, reducer_find_provider, bind at 1.
  change (widgets w2) with ws. rewrite Hwalk, Hat.
  change (_reducer_handle rp) with handle.
  destruct subscribe.
  - unfold bind at 1, State_subscribe, update.
    unfold bind. rewrite (connect_if_named_run child (mkWidget (mro wdc) (Some p) (kind wdc)))
      by done.
    by eexists.
  - unfold bind at 1, ret at 1.
    unfold bind. rewrite (connect_if_named_run child (mkWidget (mro wdc) (Some p) (kind wdc)))
      by done.
    by eexists.
Qed.

(** X22: [use_reducer_context] returns the handle of the nearest
    [ReducerProvider] of this very context on the widget's ancestor
    chain, the same handle that the provider was given: the same cell and
    the same dispatch closure.  It changes nothing but that cell: the
    widget joins its subscribers when [subscribe] is true, and the
    widget's effect methods for the handle's name are appended to its
    watchers (none when the handle has no name). *)
Theorem use_reducer_context_returns_the_provided_handle fuel providers widget wd context
    subscribe l p rp st w :
  chain (widgets w) widget l -> length l <= fuel ->
  find (provides_reducer providers context) l = Some p ->
  provider_at providers p = Some rp ->
  widgets w !! widget = Some wd ->
  cells w !! reducer_state (_reducer_handle rp) = Some st ->
  reducer_context_ref (provider_context rp) = reducer_context_ref context /\
  (exists l1 l2, l = l1 ++ p :: l2 /\
     forall y, y ∈ l1 -> provides_reducer providers context y = false) /\
  exists w',
    use_reducer_context fuel providers widget context subscribe w =
      Returned (_reducer_handle rp) w' /\
    widgets w' = widgets w /\ trace w' = trace w /\
    (forall k, k <> reducer_state (_reducer_handle rp) ->
       cells w' !! k = cells w !! k) /\
    cells w' !! reducer_state (_reducer_handle rp) =
      Some (mkState (_value st)
              (if subscribe && negb (bool_decide (widget ∈ _subscribers st))
               then _subscribers st ++ [widget] else _subscribers st)
              (_watchers st ++
               named_effects widget wd (reducer_name (_reducer_handle rp)))
              (_name st)).
Proof.
  intros Hch Hf Hfind Hp Hwd Hst.
  destruct (find_first _ _ _ Hfind) as (l1 & l2 & Hl & Hprov & Hbefore).
  split; [|split; [by exists l1, l2|]].
  { unfold provides_reducer in Hprov. rewrite Hp in Hprov. by apply Nat.eqb_eq. }
  unfold use_reducer_context, reducer_find_provider, bind at 1.
  rewrite (reducer_walk_up_chain _ _ _ _ Hch) by done. rewrite Hfind, Hp.
  set (c := reducer_state (_reducer_handle rp)) in *.
  destruct subscribe.
  - unfold bind at 1, State_subscribe, update. fold (subscribed widget).
    unfold bind. rewrite (connect_if_named_run widget wd) by done.
    eexists. split; [done|]. split; [done|]. split; [done|]. split.
    + intros k Hk. by rewrite !with_cells_alter_ne.
    + rewrite !with_cells_alter_eq, Hst. simpl. unfold subscribed.
      by destruct (bool_decide (widget ∈ _subscribers st)).
  - unfold bind at 1, ret at 1.
    unfold bind. rewrite (connect_if_named_run widget wd) by done.
    eexists. split; [done|]. split; [done|]. split; [done|]. split.
    + intros k Hk. by rewrite with_cells_alter_ne.
    + by rewrite with_cells_alter_eq, Hst.
Qed.

(** X23: [use_reducer_context] from a widget with no [ReducerProvider] of
    this very context on its ancestor chain raises [RuntimeError], naming
    the context (['unnamed'] when it has no name) and the widget's class,
    and changes nothing; there is no default to fall back on. *)
Theorem use_reducer_context_without_provider fuel providers widget wd context
    subscribe l w :
  chain (widgets w) widget l -> length l <= fuel ->
  (forall y, y ∈ l -> provides_reducer providers context y = false) ->
  widgets w !! widget = Some wd ->
  use_reducer_context fuel providers widget context subscribe w =
  Raised (RuntimeError (ReducerContext_not_found_message context wd)) w.
Proof.
  intros Hch Hf Hnone Hwd.
  unfold use_reducer_context, reducer_find_provider, bind at 1.
  rewrite (reducer_walk_up_chain _ _ _ _ Hch) by done.
  rewrite (find_none _ _ Hnone).
  unfold bind, load_widget. by rewrite Hwd.
Qed.

(** ** Derivations stay up to date *)

Lemma derivation_same_shape w w' d srcs f :
  same_shape w w' -> derivation w d srcs f <-> derivation w' d srcs f.
Proof.
  intros Hs. split; intros (i & st & Hi & Hin).
  - destruct (same_shape_lookup_inv _ _ _ _ Hs Hi) as (st' & Hi' & Hsh).
    exists i, st'. split; [done|]. by rewrite <- (shape_watchers _ _ Hsh).
  - destruct (same_shape_lookup _ _ _ _ Hs Hi) as (st' & Hi' & Hsh).
    exists i, st'. split; [done|]. by rewrite (shape_watchers _ _ Hsh).
Qed.

Lemma wired_same_shape w w' : same_shape w w' -> wired w -> wired w'.
Proof.
  intros Hs (Hwf & Hreg & Huniq). split; [|split].
  - by eapply well_formed_same_shape.
  - intros d srcs f s Hd Hin. apply (derivation_same_shape _ _ _ _ _ Hs) in Hd.
    destruct (Hreg d srcs f s Hd Hin) as (st & Hst & Hw).
    destruct (same_shape_lookup_inv _ _ _ _ Hs Hst) as (st' & Hst' & Hsh).
    exists st'. split; [done|]. by rewrite <- (shape_watchers _ _ Hsh).
  - intros d srcs f srcs' f' H1 H2.
    apply (derivation_same_shape _ _ _ _ _ Hs) in H1, H2. by eapply Huniq.
Qed.

Lemma same_shape_trans w1 w2 w3 : same_shape w1 w2 -> same_shape w2 w3 -> same_shape w1 w3.
Proof. intros [H1 H1'] [H2 H2']. split; congruence. Qed.

Lemma same_shape_add_events evs w : same_shape w (add_events evs w).
Proof. by split. Qed.

Lemma get_values_cons s rest w :
  get_values (s :: rest) w =
  match cells w !! s with
  | Some st =>
      match get_values rest w with
      | Returned vs w' => Returned (_value st :: vs) w'
      | Raised e w' => Raised e w'
      | Stuck => Stuck
      end
  | None => Stuck
  end.
Proof.
  simpl. unfold bind, State_get, bind, load, ret.
  destruct (cells w !! s); [|done]. by destruct (get_values rest w).
Qed.

Lemma get_values_agree srcs values w w' :
  (forall s, s ∈ srcs -> cells w' !! s = cells w !! s) ->
  get_values srcs w = Returned values w ->
  get_values srcs w' = Returned values w'.
Proof.
  revert values. induction srcs as [|s rest IH]; intros values Hag H.
  { simpl in *. unfold ret in *. by simplify_eq. }
  rewrite get_values_cons in *. rewrite (Hag s) by by left.
  destruct (cells w !! s) as [st|]; [|done].
  pose proof (get_values_pure rest w) as Hp.
  destruct (get_values rest w) as [vs w0|e w0|] eqn:Hr; [|done|done].
  destruct Hp as [-> _].
  rewrite (IH vs) by (done || intros; apply Hag; by right).
  by simplify_eq.
Qed.

Lemma apply_selector_call f srcs values r w w' :
  length values = length srcs ->
  apply_selector f srcs values w = Returned r w' ->
  call f (arguments srcs values) = inl r.
Proof.
  intros Hl. rewrite apply_selector_arguments by done. unfold lift, ret, raise.
  destruct (call f (arguments srcs values)); congruence.
Qed.

Lemma up_to_date_agree w w' d srcs f :
  (forall s, s ∈ srcs -> cells w' !! s = cells w !! s) ->
  cells w' !! d = cells w !! d ->
  up_to_date w d srcs f -> up_to_date w' d srcs f.
Proof.
  intros Hs Hd (values & r & sd & Hv & Hr & Hc & Hval).
  exists values, r, sd. split; [by eapply get_values_agree|].
  split; [done|]. split; [by rewrite Hd|done].
Qed.

Lemma sources_before w d srcs f s :
  wired w -> derivation w d srcs f -> s ∈ srcs -> s < d.
Proof.
  intros (Hwf & Hreg & _) Hd Hin.
  destruct (Hreg d srcs f s Hd Hin) as (st & Hst & Hw).
  by destruct (Hwf s st d srcs f Hst Hw).
Qed.

Lemma _set_value_below fuel d v w w' k :
  well_formed w -> final (_set_value fuel d v w) = Some w' -> k < d ->
  cells w' !! k = cells w !! k.
Proof.
  intros Hwf H Hk.
  destruct (_set_value_later k fuel d v w w' Hk Hwf H) as (_ & Hcells & _).
  apply Hcells. unfold later. lia.
Qed.

Lemma State_set_assigns fuel c v w w' :
  State_set fuel c v w = Returned tt w' ->
  exists v', _set_value fuel c v' w = Returned tt w'.
Proof.
  intros H. destruct v as [| | | | |g]; try by eexists.
  unfold State_set, State_set_with, bind, load, lift in H.
  destruct (cells w !! c) as [st|]; [|done].
  destruct (call g [_value st]) as [r|e]; [|done]. by exists r.
Qed.

(** The loop over the watchers of a cell that has been assigned: a
    derivation whose watcher is still to run may be out of date; once the
    loop is over none is. *)
Lemma watchers_settle fuel self st old_value new_value
    (D : cell_id -> list cell_id -> fn_id -> Prop) w :
  settles fuel -> wired w -> cells w !! self = Some st ->
  (forall d srcs f, derivation w d srcs f -> ~ D d srcs f -> returns_values f) ->
  forall rest wcur wend,
    same_shape w wcur ->
    (forall wt, wt ∈ rest -> wt ∈ _watchers st) ->
    (forall d srcs f, derivation w d srcs f -> ~ D d srcs f -> d <> self ->
       WSourceChange d srcs f ∉ rest -> up_to_date wcur d srcs f) ->
    for_each (call_watcher (_set_value fuel) self old_value new_value) rest wcur
      = Returned tt wend ->
    same_shape w wend /\
    forall d srcs f, derivation w d srcs f -> ~ D d srcs f -> d <> self ->
                     up_to_date wend d srcs f.
Proof.
  intros IHfuel Ht Hst Hgood.
  induction rest as [|wt rest IHrest]; intros wcur wend Hsc Hsub Hinv Hrun.
  { simpl in Hrun. unfold ret in Hrun. simplify_eq. split; [done|].
    intros d srcs f Hd HD Hne. apply Hinv; try done. apply not_elem_of_nil. }
  rewrite for_each_cons in Hrun.
  destruct (call_watcher _ self old_value new_value wt wcur) as [[] wnext|e wnext|] eqn:Hcw;
    try discriminate.
  assert (wt ∈ _watchers st) as Hwt by (apply Hsub; by left).
  assert (wired wcur) as Htc by by eapply wired_same_shape.
  destruct (same_shape_lookup_inv _ _ _ _ Hsc Hst) as (stc & Hstc & Hshc).
  assert (wt ∈ _watchers stc) as Hwtc by by rewrite <- (shape_watchers _ _ Hshc).
  assert (same_shape wcur wnext) as Hsn.
  { destruct (call_watcher_later fuel self stc old_value new_value wt wcur wnext)
      as (Hsh & _); [by destruct Htc|done|done|by rewrite Hcw|].
    eapply same_shape_trans; [apply same_shape_add_events|exact Hsh]. }
  apply (IHrest wnext wend); [by eapply same_shape_trans| | |exact Hrun].
  { intros x Hx. apply Hsub. by right. }
  intros d srcs f Hd HD Hne Hnot.
  destruct (is_user wt) eqn:Huser.
  - rewrite call_watcher_user in Hcw by done.
    destruct (user_raises wt old_value new_value); [done|]. simplify_eq.
    apply (up_to_date_agree wcur); [done|done|].
    apply Hinv; try done. intros Hin. apply elem_of_cons in Hin as [<-|Hin]; done.
  - destruct wt as [cb|wi m|d' srcs' f']; try done.
    unfold call_watcher in Hcw. unfold bind at 1, emit in Hcw.
    rewrite with_event_add in Hcw.
    set (we := add_events [Called self (WSourceChange d' srcs' f') old_value new_value] wcur)
      in *.
    unfold bind at 1 in Hcw.
    pose proof (get_values_pure srcs' we) as Hp.
    destruct (get_values srcs' we) as [values w0|e0 w0|] eqn:Hgv; try done.
    destruct Hp as [-> Hlen]. unfold bind at 1 in Hcw.
    destruct (apply_selector f' srcs' values we) as [r' w0|e0 w0|] eqn:Hsel;
      try done.
    assert (w0 = we) as -> by (eapply apply_selector_pure; by rewrite Hsel).
    pose proof (apply_selector_call _ _ _ _ _ _ Hlen Hsel) as Hcall.
    assert (derivation w d' srcs' f') as Hd' by (by exists self, st).
    change (State_set fuel d' r' we = Returned tt wnext) in Hcw.
    assert (wired we) as Hte
      by (eapply wired_same_shape; [|exact Htc]; apply same_shape_add_events).
    assert (same_shape w we) as Hswe
      by (eapply same_shape_trans; [exact Hsc|apply same_shape_add_events]).
    destruct (decide (d = d')) as [->|Hdd].
    + destruct Ht as (Hwf & Hreg & Huniq).
      destruct (Huniq d' srcs f srcs' f' Hd Hd') as [-> ->].
      assert (callable r' = false) as Hcr by (by eapply (Hgood d' srcs' f')).
      rewrite State_set_literal in Hcw by done.
      assert (forall s, s ∈ srcs' -> cells wnext !! s = cells we !! s) as Hsrc.
      { intros s Hin. eapply _set_value_below; [by destruct Hte|by rewrite Hcw|].
        eapply (sources_before w); [done|exact Hd'|done]. }
      destruct fuel as [|n]; [done|].
      destruct (cells we !! d') as [sd|] eqn:Hsd.
      2:{ simpl in Hcw. unfold bind, load in Hcw. by rewrite Hsd in Hcw. }
      destruct (unchanged (_value sd) r') eqn:Hur.
      * rewrite (_set_value_unchanged n d' r' sd) in Hcw by done. simplify_eq.
        exists values, r', sd. by repeat split; [..|right].
      * destruct (_set_value_commits n d' r' sd we wnext) as [Hget _];
          [by destruct Hte|done|done|by rewrite Hcw|].
        destruct (State_get_lookup _ _ _ _ Hget) as (sd' & Hsd' & Hv').
        exists values, r', sd'. split; [by eapply get_values_agree|].
        split; [done|]. split; [done|by left].
    + destruct (State_set_assigns _ _ _ _ _ Hcw) as [v' Hcw'].
      apply (IHfuel d' v' we wnext
               (fun d0 s0 f0 => D d0 s0 f0 \/ d0 = self \/
                                WSourceChange d0 s0 f0 ∈ rest)); try done.
      * intros d0 s0 f0 Hd0 HD0.
        apply (derivation_same_shape _ _ _ _ _ Hswe) in Hd0.
        apply (Hgood d0 s0 f0 Hd0). intros HD1. apply HD0. by left.
      * intros d0 s0 f0 Hd0 HD0 Hne0.
        apply (derivation_same_shape _ _ _ _ _ Hswe) in Hd0.
        apply (up_to_date_agree wcur); [done|done|].
        apply Hinv; try done.
        -- intros HD1. apply HD0. by left.
        -- intros ->. apply HD0. right. by left.
        -- intros Hin. apply elem_of_cons in Hin as [Heq|Hin].
           ++ by simplify_eq.
           ++ apply HD0. right. by right.
      * by apply (derivation_same_shape _ _ _ _ _ Hswe).
      * intros [HD1|[->|Hin]]; done.
Qed.

Lemma _set_value_settles fuel : settles fuel.
Proof.
  induction fuel as [|fuel IHfuel]; intros self v w w' D Ht Hgood Hpre H; [done|].
  destruct (cells w !! self) as [st|] eqn:Hst.
  2:{ simpl in H. unfold bind, load in H. by rewrite Hst in H. }
  destruct (unchanged (_value st) v) eqn:Hu.
  { rewrite (_set_value_unchanged fuel self v st) in H by done. by simplify_eq. }
  rewrite (_set_value_changed fuel self v st) in H by done.
  set (w1 := with_cells (alter (set__value v) self) w) in *.
  assert (same_shape w w1) as Hs1.
  { by destruct (frame_set_value (fun _ => True) (fun _ => True) self v w I). }
  unfold bind in H.
  destruct (for_each _ (_watchers st) w1) as [[] w2|e w2|] eqn:Hws; try discriminate.
  rewrite for_each_posts in H. simplify_eq.
  destruct (watchers_settle fuel self st (_value st) v D w IHfuel Ht Hst Hgood
              (_watchers st) w1 w2) as [Hs2 Hfin]; [done|done| |done|].
  - intros d srcs f Hd HD Hne Hnot.
    assert (self ∉ srcs) as Hns.
    { intros Hin. destruct Ht as (_ & Hreg & _).
      destruct (Hreg d srcs f self Hd Hin) as (st' & Hst' & Hw). by simplify_eq. }
    apply (up_to_date_agree w); [| |by apply Hpre].
    + intros s Hin. unfold w1. simpl. apply list_lookup_alter_ne. by intros ->.
    + unfold w1. simpl. apply list_lookup_alter_ne. done.
  - intros d srcs f Hd HD Hne. apply (up_to_date_agree w2); [done|done|].
    by apply Hfin.
Qed.

(** ** What [use_derived] sets up *)

Lemma register_run (W : watcher) srcs :
  forall w,
    for_each (fun src => State_watch src W >> ret tt) srcs w =
    Returned tt
      (with_cells (fun cs => foldl (fun cs src => alter (add_watchers [W]) src cs) cs srcs)
         w).
Proof.
  induction srcs as [|s rest IH]; intros w.
  { simpl. unfold ret. by destruct w. }
  rewrite for_each_cons.
  unfold bind at 1, State_watch, bind at 1, update, ret at 1, ret at 1.
  rewrite IH. done.
Qed.

Lemma registered_lookup (W : watcher) srcs :
  forall (cs : list State) (k : cell_id) st,
    cs !! k = Some st ->
    foldl (fun cs src => alter (add_watchers [W]) src cs) cs srcs !! k =
      Some (add_watchers (replicate (count_occ Nat.eq_dec srcs k) W) st).
Proof.
  induction srcs as [|s rest IH]; intros cs k st Hk; simpl.
  { by rewrite add_watchers_nil. }
  destruct (Nat.eq_dec s k) as [->|Hne].
  - rewrite (IH _ k (add_watchers [W] st)) by (by rewrite list_lookup_alter_eq, Hk).
    by rewrite add_watchers_app.
  - by rewrite (IH _ k st) by (by rewrite list_lookup_alter_ne).
Qed.

Lemma count_occ_elem (k : cell_id) srcs :
  k ∈ srcs <-> 0 < count_occ Nat.eq_dec srcs k.
Proof. rewrite list_elem_of_In. apply count_occ_In. Qed.

Lemma foldl_alter_length {A} (g : A -> A) srcs :
  forall cs : list A, length (foldl (fun cs src => alter g src cs) cs srcs) = length cs.
Proof.
  induction srcs as [|s rest IH]; intros cs; simpl; [done|].
  by rewrite IH, length_alter.
Qed.

Lemma get_values_same_values srcs values w w' :
  (forall s, s ∈ srcs -> _value <$> cells w' !! s = _value <$> cells w !! s) ->
  get_values srcs w = Returned values w ->
  get_values srcs w' = Returned values w'.
Proof.
  revert values. induction srcs as [|s rest IH]; intros values Hag H.
  { simpl in *. unfold ret in *. by simplify_eq. }
  rewrite get_values_cons in *.
  pose proof (Hag s ltac:(by left)) as Hs.
  destruct (cells w !! s) as [st|]; [|done].
  destruct (cells w' !! s) as [st'|]; [|done]. simpl in Hs.
  pose proof (get_values_pure rest w) as Hp.
  destruct (get_values rest w) as [vs w0|e w0|] eqn:Hr; [|done|done].
  destruct Hp as [-> _].
  rewrite (IH vs) by (done || intros; apply Hag; by right).
  injection Hs as Hs. injection H as <-. by rewrite Hs.
Qed.

Lemma with_cells_add_nil c (w : world) :
  with_cells (alter (add_watchers []) c) w = w.
Proof.
  destruct w as [cs ws tr]. unfold with_cells. simpl. f_equal.
  apply alter_add_watchers_nil.
Qed.

Lemma named_effects_user widget wd name :
  Forall (fun wt => is_user wt = true) (named_effects widget wd name).
Proof.
  unfold named_effects. destruct name as [n|]; [|constructor].
  destruct (String.eqb n ""); [constructor|]. by apply Forall_fmap, Forall_true.
Qed.

Lemma connect_if_named_returns widget name c w w' :
  connect_if_named widget name c w = Returned tt w' ->
  exists effects,
    w' = with_cells (alter (add_watchers effects) c) w /\
    Forall (fun wt => is_user wt = true) effects /\
    forall wd, widgets w !! widget = Some wd -> effects = named_effects widget wd name.
Proof.
  intros H. destruct (widgets w !! widget) as [wd|] eqn:Hwd.
  - rewrite (connect_if_named_run widget wd) in H by done. simplify_eq.
    exists (named_effects widget wd name). split; [done|].
    split; [apply named_effects_user|]. intros wd' [= <-]. done.
  - exists []. split; [|split; [constructor|done]].
    rewrite with_cells_add_nil. unfold connect_if_named in H.
    destruct name as [n|]; [|unfold ret in H; by simplify_eq].
    destruct (String.eqb n ""); [unfold ret in H; by simplify_eq|].
    unfold connect_effects, connect, bind, load_widget in H. by rewrite Hwd in H.
Qed.

Lemma use_derived_cells widget sources selector name h w w' :
  use_derived widget sources selector name w = Returned h w' ->
  let d := length (cells w) in
  let W := WSourceChange d sources selector in
  exists values r effects,
    h = mkStateHandle d name /\
    get_values sources w = Returned values w /\
    apply_selector selector sources values w = Returned r w /\
    length (cells w') = S d /\ widgets w' = widgets w /\ trace w' = trace w /\
    (forall k st, cells w !! k = Some st ->
       cells w' !! k =
         Some (add_watchers (replicate (count_occ Nat.eq_dec sources k) W) st)) /\
    cells w' !! d = Some (mkState r [widget] effects name) /\
    Forall (fun wt => is_user wt = true) effects /\
    forall wd, widgets w !! widget = Some wd -> effects = named_effects widget wd name.
Proof.
  intros H d W. unfold use_derived in H.
  unfold bind at 1 in H. pose proof (get_values_pure sources w) as Hp.
  destruct (get_values sources w) as [values w0|e w0|] eqn:Hgv; try done.
  destruct Hp as [-> _]. unfold bind at 1 in H.
  destruct (apply_selector selector sources values w) as [r w0|e w0|] eqn:Hsel;
    try done.
  assert (w0 = w) as -> by (eapply apply_selector_pure; by rewrite Hsel).
  unfold bind at 1, new_State in H.
  unfold bind at 1, State_subscribe, update in H.
  unfold bind at 1 in H. rewrite register_run in H.
  fold d in H. fold W in H.
  set (w3 := with_cells _ (with_cells _ (with_cells _ w))) in H.
  unfold bind in H.
  destruct (connect_if_named widget name d w3) as [[] w4|e w4|] eqn:Hcn; try done.
  destruct (connect_if_named_returns _ _ _ _ _ Hcn) as (effects & -> & Huser & Heff).
  unfold ret in H. simplify_eq.
  assert (forall k st, cells w !! k = Some st ->
    cells w3 !! k =
      Some (add_watchers (replicate (count_occ Nat.eq_dec sources k) W) st)) as Hold.
  { intros k st Hk. unfold w3. simpl.
    assert (alter (subscribed widget) d (cells w ++ [State__init__ r name]) !! k = Some st)
      as Hk'.
    { rewrite list_lookup_alter_ne by (apply lookup_lt_Some in Hk; unfold d; lia).
      by rewrite lookup_app_l by by eapply lookup_lt_Some. }
    exact (registered_lookup W sources _ k st Hk'). }
  assert (cells w3 !! d = Some (mkState r [widget] [] name)) as Hnew.
  { unfold w3. simpl.
    rewrite (registered_lookup W sources _ d (mkState r [widget] [] name)).
    2:{ unfold d. rewrite alter_last, lookup_app_r by done.
        rewrite Nat.sub_diag. reflexivity. }
    destruct (count_occ Nat.eq_dec sources d) as [|n] eqn:Hn.
    - by rewrite add_watchers_nil.
    - exfalso. assert (d ∈ sources) as Hin by (apply count_occ_elem; lia).
      destruct (get_values_Returned _ _ _ _ Hgv) as [_ Hvalid].
      rewrite Forall_forall in Hvalid. apply Hvalid in Hin. unfold d in Hin. lia. }
  exists values, r, effects. repeat (split; [done|]).
  split; [|split; [done|split; [done|split; [|split; [|done]]]]].
  - simpl. rewrite length_alter, foldl_alter_length, length_alter, length_app. simpl.
    unfold d. lia.
  - intros k st Hk. rewrite with_cells_alter_ne; [by apply Hold|].
    apply lookup_lt_Some in Hk. unfold d. lia.
  - by rewrite with_cells_alter_eq, Hnew.
Qed.

(** X25: when [use_derived] returns, it has created one cell, after all
    the others, holding the selector's result for the sources' values
    (as returned, even a callable), named [name] and subscribed to by the
    widget, with the widget's effect methods for [name] as its only
    watchers.  Every cell there was has gained the derivation's watcher
    as many times as it occurs in the source list (a cell that is no
    source, none), and nothing else: no value changed, no watcher was
    called, nothing was posted.  The new derivation is up to date. *)
Theorem use_derived_registers_on_every_source widget wd sources selector name h w w' :
  widgets w !! widget = Some wd ->
  use_derived widget sources selector name w = Returned h w' ->
  let d := length (cells w) in
  let W := WSourceChange d sources selector in
  h = mkStateHandle d name /\
  length (cells w') = S d /\ widgets w' = widgets w /\ trace w' = trace w /\
  (forall k st, cells w !! k = Some st ->
     cells w' !! k =
       Some (add_watchers (replicate (count_occ Nat.eq_dec sources k) W) st)) /\
  (exists values r,
     get_values sources w = Returned values w /\
     apply_selector selector sources values w = Returned r w /\
     cells w' !! d = Some (mkState r [widget] (named_effects widget wd name) name)) /\
  up_to_date w' d sources selector.
Proof.
  intros Hwd H d W.
  destruct (use_derived_cells _ _ _ _ _ _ _ H)
    as (values & r & effects & Hh & Hgv & Hsel & Hlen & Hws & Htr & Hold & Hnew & _ & Heff).
  rewrite (Heff wd Hwd) in Hnew.
  repeat (split; [done|]). split; [by exists values, r|].
  exists values, r, (mkState r [widget] (named_effects widget wd name) name).
  split; [|split; [|split]].
  - apply (get_values_same_values sources values w); [|done].
    intros s Hin. destruct (get_values_Returned _ _ _ _ Hgv) as [_ Hvalid].
    rewrite Forall_forall in Hvalid. specialize (Hvalid s Hin).
    destruct (lookup_lt_is_Some_2 _ _ Hvalid) as [st Hst].
    by rewrite (Hold s st Hst), Hst.
  - pose proof (get_values_pure sources w) as Hp. rewrite Hgv in Hp.
    destruct Hp as [_ Hl]. by eapply apply_selector_call.
  - done.
  - by left.
Qed.

(** ** The derivations of the worlds the library builds *)

Lemma grows_refl w : grows w w.
Proof. by intros i wt _ H. Qed.

Lemma grows_trans w1 w2 w3 : grows w1 w2 -> grows w2 w3 -> grows w1 w3.
Proof. intros H1 H2 i wt Hu H. by apply H2, H1. Qed.

Lemma grows_same_cells w w' : cells w' = cells w -> grows w w'.
Proof. intros Hc i wt _ (st & Hi & Hin). exists st. by rewrite Hc. Qed.

Lemma grows_same_shape w w' : same_shape w w' -> grows w w'.
Proof.
  intros Hs i wt _ (st & Hi & Hin).
  destruct (same_shape_lookup_inv _ _ _ _ Hs Hi) as (st' & Hi' & Hsh).
  exists st'. split; [done|]. by rewrite <- (shape_watchers _ _ Hsh).
Qed.

Lemma growing_bind {A B} (m : M A) (k : A -> M B) :
  growing m -> (forall a, growing (k a)) -> growing (bind m k).
Proof.
  intros Hm Hk w w' H. apply final_bind in H as [[e He]|(a & w1 & H1 & H2)].
  - apply Hm. by rewrite He.
  - eapply grows_trans; [apply Hm; by rewrite H1|by eapply Hk].
Qed.

Lemma growing_steps {A} (m : M A) :
  (forall w w', final (m w) = Some w' -> cells w' = cells w) -> growing m.
Proof. intros H w w' Hf. apply grows_same_cells. by eapply H. Qed.

Lemma growing_ret {A} (a : A) : growing (ret a).
Proof. apply growing_steps. unfold ret. simpl. congruence. Qed.

Lemma growing_raise {A} e : growing (raise (A:=A) e).
Proof. apply growing_steps. unfold raise. simpl. congruence. Qed.

Lemma growing_stuck {A} : growing (stuck (A:=A)).
Proof. intros w w' H. discriminate. Qed.

Lemma growing_load_widget p : growing (load_widget p).
Proof.
  apply growing_steps. unfold load_widget. intros w w'.
  destruct (widgets w !! p); simpl; congruence.
Qed.

Lemma growing_walk fuel is_provider widget : growing (walk fuel is_provider widget).
Proof.
  apply growing_steps. unfold walk. intros w w'.
  destruct (walk_up _ _ _ _); simpl; congruence.
Qed.

Lemma growing_for_each {A} (body : A -> M unit) l :
  (forall x, growing (body x)) -> growing (for_each body l).
Proof.
  intros Hb. induction l as [|x l IH]; simpl; [apply growing_ret|].
  apply growing_bind; [apply Hb|]. intros _. apply IH.
Qed.

Lemma growing_update c f :
  (forall st wt, wt ∈ _watchers st -> is_user wt = false -> wt ∈ _watchers (f st)) ->
  growing (update c f).
Proof.
  intros Hf w w' H. unfold update in H. simpl in H. simplify_eq.
  intros i wt Hu (st & Hi & Hin). simpl.
  destruct (decide (i = c)) as [->|Hne].
  - exists (f st). split; [|by apply Hf]. simpl. by rewrite list_lookup_alter_eq, Hi.
  - exists st. split; [|done]. simpl. by rewrite list_lookup_alter_ne by congruence.
Qed.

Lemma growing_new_State v name : growing (new_State v name).
Proof.
  intros w w' H. unfold new_State in H. simpl in H. simplify_eq.
  intros i wt _ (st & Hi & Hin). exists st. split; [|done]. simpl.
  by rewrite lookup_app_l by by eapply lookup_lt_Some.
Qed.

Lemma growing_new_widget classes k : growing (new_widget classes k).
Proof. apply growing_steps. unfold new_widget. simpl. intros. by simplify_eq. Qed.

Lemma growing_mount p child : growing (mount p child).
Proof. apply growing_steps. unfold mount. simpl. intros. by simplify_eq. Qed.

Lemma growing_set_kind p k : growing (set_kind p k).
Proof. apply growing_steps. unfold set_kind. simpl. intros. by simplify_eq. Qed.

Lemma growing_State_subscribe c widget : growing (State_subscribe c widget).
Proof. apply growing_update. intros st wt Hin _. by destruct (bool_decide _). Qed.

Lemma growing_State_unsubscribe c widget : growing (State_unsubscribe c widget).
Proof. by apply growing_update. Qed.

Lemma growing_State_watch c wt : growing (State_watch c wt).
Proof.
  unfold State_watch. apply growing_bind; [|intros; apply growing_ret].
  apply growing_update. intros st x Hin _. simpl. apply elem_of_app. by left.
Qed.

Lemma list_remove_first_keeps (x : watcher) l l' y :
  list_remove_first x l = Some l' -> y ∈ l -> y <> x -> y ∈ l'.
Proof.
  revert l'. induction l as [|z l IH]; intros l' H Hy Hne; simpl in H; [done|].
  destruct (decide (z = x)) as [->|Hzx].
  - simplify_eq. apply elem_of_cons in Hy as [->|Hy]; done.
  - destruct (list_remove_first x l) as [l0|]; simpl in H; [|done]. simplify_eq.
    apply elem_of_cons in Hy as [->|Hy]; [by left|]. right. by apply IH.
Qed.

Lemma growing_unwatch c wt : is_user wt = true -> growing (unwatch c wt).
Proof.
  intros Huser w w' H. unfold unwatch, bind, load in H.
  destruct (cells w !! c) as [st|] eqn:Hst; [|done].
  destruct (list_remove_first wt (_watchers st)) as [ws|] eqn:Hrm; simpl in H.
  - unfold update in H. simpl in H. simplify_eq.
    intros i x Hu (st0 & Hi & Hin). simpl.
    destruct (decide (i = c)) as [->|Hne].
    + assert (st0 = st) as -> by congruence.
      exists (set__watchers ws st). split.
      * simpl. by rewrite list_lookup_alter_eq, Hst.
      * simpl. eapply list_remove_first_keeps; [done|done|]. intros ->. congruence.
    + exists st0. split; [|done]. simpl. by rewrite list_lookup_alter_ne by congruence.
  - unfold raise in H. simpl in H. simplify_eq. apply grows_refl.
Qed.

Lemma growing_connect widget wanted c : growing (connect widget wanted c).
Proof.
  unfold connect. apply growing_bind; [apply growing_load_widget|]. intros wd.
  apply growing_for_each. intros m.
  destruct (startswith_underscore m); [apply growing_ret|].
  destruct (class_getattr (mro wd) m) as [[[targets|]|]|]; try apply growing_ret.
  destruct (bool_decide _); [|apply growing_ret].
  apply growing_bind; [apply growing_State_watch|intros; apply growing_ret].
Qed.

Lemma growing_connect_if_named widget name c : growing (connect_if_named widget name c).
Proof.
  unfold connect_if_named. destruct name as [n|]; [|apply growing_ret].
  destruct (String.eqb n ""); [apply growing_ret|apply growing_connect].
Qed.

Lemma growing_hook {A} widget v name (k : cell_id -> A) :
  growing (let! state := new_State v name in
           State_subscribe state widget >>
           connect_if_named widget name state >>
           ret (k state)).
Proof.
  apply growing_bind; [apply growing_new_State|]. intros c.
  apply growing_bind; [apply growing_State_subscribe|]. intros _.
  apply growing_bind; [apply growing_connect_if_named|]. intros _. apply growing_ret.
Qed.

Lemma growing_Store_use fuel store widget subscribe :
  growing (Store_use fuel store widget subscribe).
Proof.
  unfold Store_use. apply growing_bind; [apply growing_walk|]. intros [p|].
  - apply growing_bind; [apply growing_load_widget|]. intros pw.
    destruct (kind pw); try apply growing_stuck.
    apply growing_bind;
      [destruct subscribe; [apply growing_State_subscribe|apply growing_ret]|].
    intros _. apply growing_bind; [apply growing_connect|]. intros _. apply growing_ret.
  - apply growing_bind; [apply growing_load_widget|]. intros wd. apply growing_raise.
Qed.

Lemma growing_use_context fuel widget context subscribe required :
  growing (use_context fuel widget context subscribe required).
Proof.
  assert (forall cls l st d, growing (ContextHandle__init__ cls l st widget context d))
    as Hinit.
  { intros cls l st d.
    assert (forall attr, growing (object_setattr cls l attr)) as Hset.
    { intros attr. unfold object_setattr. destruct l; [|apply growing_ret].
      destruct (bool_decide _); [apply growing_ret|apply growing_raise]. }
    unfold ContextHandle__init__.
    repeat (apply growing_bind; [apply Hset|intros _]). apply growing_ret. }
  unfold use_context, _find_provider.
  apply growing_bind; [apply growing_walk|]. intros provider.
  apply growing_bind.
  - destruct provider as [p|].
    + apply growing_bind; [apply growing_load_widget|]. intros pw.
      destruct (kind pw); try apply growing_stuck. apply growing_ret.
    + destruct required.
      * apply growing_bind; [apply growing_load_widget|]. intros. apply growing_raise.
      * apply growing_bind; [apply growing_new_State|]. intros. apply growing_ret.
  - intros found.
    apply growing_bind;
      [destruct subscribe; [apply growing_State_subscribe|apply growing_ret]|].
    intros _. destruct (is_ModelContext context); apply Hinit.
Qed.

Lemma derivation_has w d srcs f :
  derivation w d srcs f <-> exists i, has w i (WSourceChange d srcs f).
Proof.
  split.
  - intros (i & st & Hi & Hin). exists i, st. done.
  - intros (i & st & Hi & Hin). exists i, st. done.
Qed.

Lemma set_up_same w w' :
  (forall i wt, is_user wt = false -> has w i wt <-> has w' i wt) ->
  registered_on_sources w /\ unique_targets w ->
  registered_on_sources w' /\ unique_targets w'.
Proof.
  intros Hsame [Hreg Huniq].
  assert (forall d srcs f, derivation w' d srcs f <-> derivation w d srcs f) as Hd.
  { intros d srcs f. rewrite !derivation_has. split; intros [i Hi]; exists i.
    - by apply Hsame.
    - by apply Hsame. }
  split.
  - intros d srcs f s Hder Hin. apply Hd in Hder.
    apply (Hsame s (WSourceChange d srcs f)); [done|]. by apply Hreg.
  - intros d srcs f srcs' f' H1 H2. apply Hd in H1, H2. by eapply Huniq.
Qed.

Lemma extends_nothing_has w w' i wt :
  extends nothing w w' -> is_user wt = false -> has w' i wt -> has w i wt.
Proof.
  intros (_ & _ & Hd) Hu (st' & Hi & Hin).
  destruct wt as [cb|wi m|d srcs f]; try done.
  destruct (Hd i st' d srcs f Hi Hin) as [(st & Hst & Hin0)|[]]. by exists st.
Qed.

Lemma set_up_steps w w' :
  extends nothing w w' -> grows w w' ->
  registered_on_sources w /\ unique_targets w ->
  registered_on_sources w' /\ unique_targets w'.
Proof.
  intros He Hg. apply set_up_same. intros i wt Hu. split.
  - by apply Hg.
  - by apply (extends_nothing_has w w').
Qed.

Lemma use_derived_raises widget sources selector name e w w' :
  use_derived widget sources selector name w = Raised e w' -> w' = w.
Proof.
  intros H. unfold use_derived in H.
  unfold bind at 1 in H. pose proof (get_values_pure sources w) as Hp.
  destruct (get_values sources w) as [values w0|e0 w0|] eqn:Hgv; try done.
  destruct Hp as [-> _]. unfold bind at 1 in H.
  destruct (apply_selector selector sources values w) as [r w0|e0 w0|] eqn:Hsel;
    try done.
  2:{ simplify_eq. eapply apply_selector_pure. by rewrite Hsel. }
  assert (w0 = w) as -> by (eapply apply_selector_pure; by rewrite Hsel).
  unfold bind at 1, new_State in H.
  unfold bind at 1, State_subscribe, update in H.
  unfold bind at 1 in H. rewrite register_run in H.
  unfold bind in H.
  set (c := length (cells w)) in *. set (w3 := with_cells _ _) in H.
  destruct (widgets w3 !! widget) as [wd|] eqn:Hwd.
  - by rewrite (connect_if_named_run widget wd) in H by done.
  - unfold connect_if_named in H. destruct name as [n|]; [|done].
    destruct (String.eqb n ""); [done|].
    unfold connect_effects, connect, bind, load_widget in H. by rewrite Hwd in H.
Qed.

Lemma use_derived_set_up widget sources selector name w w' :
  well_formed w ->
  registered_on_sources w /\ unique_targets w ->
  final (use_derived widget sources selector name w) = Some w' ->
  registered_on_sources w' /\ unique_targets w'.
Proof.
  intros Hwf [Hreg Huniq] H.
  destruct (use_derived widget sources selector name w) as [h w0|e w0|] eqn:Hrun;
    simpl in H; simplify_eq.
  2:{ by rewrite (use_derived_raises _ _ _ _ _ _ _ Hrun). }
  destruct (use_derived_cells _ _ _ _ _ _ _ Hrun)
    as (values & r & effects & _ & Hgv & _ & Hlen & _ & _ & Hcnt & Hnew & Huser & _).
  set (d := length (cells w)) in *.
  set (W := WSourceChange d sources selector) in *.
  assert (forall k st, cells w !! k = Some st ->
    exists n, cells w' !! k = Some (add_watchers (replicate n W) st) /\
              (k ∈ sources <-> 0 < n)) as Hold.
  { intros k st Hk. eexists. split; [by apply Hcnt|apply count_occ_elem]. }
  destruct (get_values_Returned _ _ _ _ Hgv) as [_ Hvalid].
  rewrite Forall_forall in Hvalid.
  assert (forall i wt, is_user wt = false ->
            has w' i wt <-> has w i wt \/ (wt = W /\ i ∈ sources)) as Hhas.
  { intros i wt Hu. split.
    - intros (st' & Hi & Hin).
      destruct (cells w !! i) as [st|] eqn:Hwi.
      + destruct (Hold i st Hwi) as (n & Hn & Hiff). rewrite Hn in Hi.
        injection Hi as <-. simpl in Hin. apply elem_of_app in Hin as [Hin|Hin].
        * left. by exists st.
        * right. apply elem_of_replicate in Hin as [-> Hn0]. split; [done|].
          apply Hiff. lia.
      + apply lookup_ge_None in Hwi.
        assert (i = d) as -> by (apply lookup_lt_Some in Hi; unfold d; lia).
        rewrite Hnew in Hi. injection Hi as <-. simpl in Hin.
        rewrite Forall_forall in Huser. apply Huser in Hin. congruence.
    - intros [(st & Hi & Hin)|[-> Hin]].
      + destruct (Hold i st Hi) as (n & Hn & _).
        eexists. split; [exact Hn|]. simpl. apply elem_of_app. by left.
      + destruct (lookup_lt_is_Some_2 _ _ (Hvalid i Hin)) as [st Hi].
        destruct (Hold i st Hi) as (n & Hn & Hiff).
        eexists. split; [exact Hn|]. simpl. apply elem_of_app. right.
        apply elem_of_replicate. split; [done|]. apply Hiff in Hin. lia. }
  assert (forall d' srcs f,
            derivation w' d' srcs f <->
            derivation w d' srcs f \/
            (d' = d /\ srcs = sources /\ f = selector /\ sources <> [])) as Hder.
  { intros d' srcs f. rewrite !derivation_has. split.
    - intros [i Hi].
      destruct (proj1 (Hhas i (WSourceChange d' srcs f) eq_refl) Hi) as [Hi'|[Heq Hin]].
      + left. by exists i.
      + right. injection Heq as -> -> ->. repeat split.
        intros E. rewrite E in Hin. by apply elem_of_nil in Hin.
    - intros [[i Hi]|(-> & -> & -> & Hne)].
      + exists i. apply (Hhas i (WSourceChange d' srcs f) eq_refl). by left.
      + assert (exists s, s ∈ sources) as [s Hs].
        { clear -Hne. destruct sources as [|s rest]; [done|]. exists s. by left. }
        exists s. apply (Hhas s W eq_refl). by right. }
  split.
  - intros d' srcs f s Hd Hin. apply (Hhas s (WSourceChange d' srcs f)); [done|].
    apply Hder in Hd as [Hd|(-> & -> & -> & _)].
    + left. by apply Hreg.
    + by right.
  - intros d' srcs f srcs' f' H1 H2.
    assert (forall x y z, derivation w x y z -> x < d) as Hlt.
    { intros x y z (i & st & Hi & Hin).
      by destruct (Hwf i st x y z Hi Hin) as (_ & ? & _). }
    apply Hder in H1 as [H1|(-> & -> & -> & _)];
      apply Hder in H2 as [H2|(E & -> & -> & _)].
    + by eapply Huniq.
    + subst d'. apply Hlt in H1. lia.
    + apply Hlt in H2. lia.
    + done.
Qed.

Lemma StoreProvider_set_up classes store w w' :
  registered_on_sources w /\ unique_targets w ->
  final (StoreProvider__init__ classes store w) = Some w' ->
  registered_on_sources w' /\ unique_targets w'.
Proof.
  intros Hs H. rewrite StoreProvider__init__run in H. simpl in H. simplify_eq.
  revert Hs. apply set_up_same. intros i wt Hu. unfold has. simpl. split.
  - intros (st & Hi & Hin). exists st. split; [|done].
    by rewrite lookup_app_l by by eapply lookup_lt_Some.
  - intros (st & Hi & Hin).
    destruct (decide (i < length (cells w))) as [Hlt|Hge].
    + rewrite lookup_app_l in Hi by done. by exists st.
    + rewrite lookup_app_r in Hi by lia.
      destruct (i - length (cells w)); simpl in Hi; [|done].
      simplify_eq. simpl in Hin. by apply elem_of_nil in Hin.
Qed.

Lemma set_up_preserved c w w' :
  inv w -> registered_on_sources w /\ unique_targets w ->
  final (perform c w) = Some w' ->
  registered_on_sources w' /\ unique_targets w'.
Proof.
  intros Hinv Hs H. destruct c; unfold perform in H; try apply final_then_ret in H.
  - eapply set_up_steps; [| |done].
    + by apply (steps_new_widget nothing classes NotProvider).
    + by apply (growing_new_widget classes NotProvider).
  - eapply set_up_steps; [| |done].
    + by apply (steps_mount nothing p child).
    + by apply (growing_mount p child).
  - eapply set_up_steps; [| |done].
    + by apply (steps_use_state widget v name).
    + by apply (growing_hook widget v name (fun state => mkStateHandle state name)).
  - eapply set_up_steps; [| |done].
    + by apply (steps_use_reducer widget reducer v name).
    + by apply (growing_hook widget v name
                  (fun state => mkReducerHandle state (ReducerDispatch state reducer) name)).
  - eapply set_up_steps; [| |done].
    + by apply (steps_use_model_reducer widget reducer v name).
    + by apply (growing_hook widget v name
                  (fun state =>
                     mkReducerHandle state (ModelReducerDispatch state reducer) name)).
  - destruct Hinv as [Hwf _]. by eapply use_derived_set_up.
  - apply State_set_same_shape in H. eapply set_up_steps; [| |done].
    + by apply extends_same_shape.
    + by apply grows_same_shape.
  - apply _set_value_same_shape in H. eapply set_up_steps; [| |done].
    + by apply extends_same_shape.
    + by apply grows_same_shape.
  - apply dispatch_same_shape in H. eapply set_up_steps; [| |done].
    + by apply extends_same_shape.
    + by apply grows_same_shape.
  - eapply set_up_steps; [| |done].
    + apply (steps_State_watch nothing c (WCallback cb)); [by left|done].
    + by apply (growing_State_watch c (WCallback cb)).
  - eapply set_up_steps; [| |done].
    + by apply (steps_unwatch nothing c (WCallback cb)).
    + by apply (growing_unwatch c (WCallback cb)).
  - eapply set_up_steps; [| |done].
    + by apply (steps_State_subscribe nothing c widget).
    + by apply (growing_State_subscribe c widget).
  - eapply set_up_steps; [| |done].
    + by apply (steps_State_unsubscribe nothing c widget).
    + by apply (growing_State_unsubscribe c widget).
  - by eapply StoreProvider_set_up.
  - eapply set_up_steps; [| |done].
    + by apply (steps_Store_use fuel store widget subscribe).
    + by apply (growing_Store_use fuel store widget subscribe).
  - eapply set_up_steps; [| |done].
    + by apply (steps_ContextProvider__init__ classes context v).
    + rewrite ContextProvider__init__run in H. simpl in H. simplify_eq.
      by apply grows_same_cells.
  - eapply set_up_steps; [| |done].
    + by apply (steps_use_context fuel widget context subscribe required).
    + by apply (growing_use_context fuel widget context subscribe required).
Qed.

(** X26: every world built through the library's operations is set up as
    the derivation engine needs: the watcher of a derivation is on every
    one of its sources (no operation removes it), and a cell is the
    target of one derivation at most. *)
Theorem derivations_are_registered_on_their_sources w :
  reachable w ->
  (forall d srcs f s,
     derivation w d srcs f -> s ∈ srcs ->
     exists st, cells w !! s = Some st /\ WSourceChange d srcs f ∈ _watchers st) /\
  (forall d srcs f srcs' f',
     derivation w d srcs f -> derivation w d srcs' f' -> srcs = srcs' /\ f = f').
Proof.
  change (reachable w -> registered_on_sources w /\ unique_targets w).
  induction 1 as [|c w w' Hr IH H].
  - split.
    + intros d srcs f s (i & st & Hi & _). done.
    + intros d srcs f srcs' f' (i & st & Hi & _). done.
  - eapply set_up_preserved; [|exact IH|exact H]. by apply reachable_inv.
Qed.

Lemma reachable_wired w : reachable w -> wired w.
Proof.
  intros Hr. split; [by destruct (reachable_inv w Hr)|].
  induction Hr as [|c w w' Hr IH H].
  - split.
    + intros d srcs f s (i & st & Hi & _). done.
    + intros d srcs f srcs' f' (i & st & Hi & _). done.
  - eapply set_up_preserved; [|exact IH|exact H]. by apply reachable_inv.
Qed.

(** X24: in every world built through the library's operations, a
    derivation whose selector never returns a callable and which is up
    to date (its cell holds what the selector gives for the current
    values of its sources, or a value that compares equal to that) is up
    to date again after any [set] of another cell that returns.  Every
    source is re-read at each recomputation, and the derivation is
    recomputed after the last change of any of its sources, however the
    cascade is ordered and whatever the other derivations compute. *)
Theorem derivations_stay_up_to_date fuel a v d srcs f w w' :
  reachable w ->
  derivation w d srcs f -> d <> a ->
  (forall args r, call f args = inl r -> callable r = false) ->
  up_to_date w d srcs f ->
  State_set fuel a v w = Returned tt w' ->
  up_to_date w' d srcs f.
Proof.
  intros Hr Hd Hne Hgood Hup H.
  destruct (State_set_assigns _ _ _ _ _ H) as [v' H'].
  assert (forall d0 s0 f0,
    ~ WSourceChange d0 s0 f0 <> WSourceChange d srcs f ->
    d0 = d /\ s0 = srcs /\ f0 = f) as Hsame.
  { intros d0 s0 f0 Hnn.
    destruct (decide (WSourceChange d0 s0 f0 = WSourceChange d srcs f)) as [E|E];
      [by simplify_eq|done]. }
  apply (_set_value_settles fuel a v' w w'
           (fun d0 s0 f0 => WSourceChange d0 s0 f0 <> WSourceChange d srcs f));
    try done.
  - by apply reachable_wired.
  - intros d0 s0 f0 _ Hnn. by destruct (Hsame _ _ _ Hnn) as (_ & _ & ->).
  - intros d0 s0 f0 _ Hnn _. by destruct (Hsame _ _ _ Hnn) as (-> & -> & ->).
  - intros Hnn. by apply Hnn.
Qed.

(** ** Subscribers *)

Lemma set__subscribers_same st : set__subscribers (_subscribers st) st = st.
Proof. by destruct st. Qed.

Lemma with_cells_alter_same f c st (w : world) :
  cells w !! c = Some st -> f st = st -> with_cells (alter f c) w = w.
Proof.
  intros Hc Hf. destruct w as [cs ws tr]. unfold with_cells. simpl in *. f_equal.
  apply list_eq. intros i. destruct (decide (i = c)) as [->|Hne].
  - by rewrite list_lookup_alter_eq, Hc; simpl; rewrite Hf.
  - by rewrite list_lookup_alter_ne.
Qed.

Lemma with_cells_alter_alter f g c (w : world) :
  with_cells (alter f c) (with_cells (alter g c) w) =
  with_cells (alter (fun st => f (g st)) c) w.
Proof.
  destruct w as [cs ws tr]. unfold with_cells. simpl. f_equal.
  apply list_eq. intros i. destruct (decide (i = c)) as [->|Hne].
  - rewrite !list_lookup_alter_eq. by destruct (cs !! c).
  - by rewrite !list_lookup_alter_ne.
Qed.

Lemma filter_fresh (widget : widget_id) (l : list widget_id) :
  widget ∉ l -> filter (fun x => x <> widget) l = l.
Proof.
  induction l as [|x l IH]; intros Hn; [done|].
  rewrite filter_cons_True by (intros ->; apply Hn; by left).
  rewrite IH; [done|]. intros Hin. apply Hn. by right.
Qed.

(** X27: the subscribers of a cell form a set.  Subscribing a widget
    that is subscribed changes nothing; unsubscribing a widget that is
    not subscribed changes nothing and raises nothing (unlike the closure
    returned by [watch]); subscribing a new widget and unsubscribing it
    gives the world back; and after [unsubscribe] the widget is not a
    subscriber, while the others are, in the order they had. *)
Theorem subscribe_unsubscribe_round_trip self widget st w :
  cells w !! self = Some st ->
  (widget ∈ _subscribers st -> State_subscribe self widget w = Returned tt w) /\
  ((State_subscribe self widget >> State_subscribe self widget) w =
     State_subscribe self widget w) /\
  (widget ∉ _subscribers st ->
     State_unsubscribe self widget w = Returned tt w /\
     (State_subscribe self widget >> State_unsubscribe self widget) w = Returned tt w) /\
  exists w' st',
    State_unsubscribe self widget w = Returned tt w' /\
    cells w' !! self = Some st' /\
    (widget ∉ _subscribers st') /\
    (forall x, x <> widget -> (x ∈ _subscribers st' <-> x ∈ _subscribers st)).
Proof.
  intros Hst.
  assert (forall w0, State_subscribe self widget w0 =
          Returned tt (with_cells (alter (subscribed widget) self) w0)) as Hsub by done.
  assert (forall w0, State_unsubscribe self widget w0 =
          Returned tt (with_cells
            (alter (fun st => set__subscribers
                                (filter (fun x => x <> widget) (_subscribers st)) st)
                   self) w0)) as Hunsub by done.
  split; [|split; [|split]].
  - intros Hin. rewrite Hsub. f_equal. apply (with_cells_alter_same _ _ st); [done|].
    unfold subscribed. by rewrite bool_decide_eq_true_2.
  - unfold bind. rewrite !Hsub.
    f_equal. rewrite with_cells_alter_alter.
    destruct w as [cs ws tr]. unfold with_cells. simpl in *. f_equal.
    apply list_eq. intros i. destruct (decide (i = self)) as [->|Hne].
    + rewrite !list_lookup_alter_eq, Hst. simpl. f_equal.
      unfold subscribed at 2 3. destruct (bool_decide (widget ∈ _subscribers st)) eqn:E.
      * unfold subscribed. by rewrite E.
      * unfold subscribed. simpl.
        by rewrite bool_decide_eq_true_2 by (apply elem_of_app; right; by left).
    + by rewrite !list_lookup_alter_ne.
  - intros Hn. split.
    + rewrite Hunsub. f_equal. apply (with_cells_alter_same _ _ st); [done|].
      rewrite filter_fresh by done. apply set__subscribers_same.
    + unfold bind. rewrite Hsub, Hunsub. f_equal. rewrite with_cells_alter_alter.
      apply (with_cells_alter_same _ _ st); [done|].
      unfold subscribed. rewrite bool_decide_eq_false_2 by done. simpl.
      rewrite filter_app, filter_fresh by done.
      rewrite filter_cons_False by (intros H; by apply H).
      rewrite filter_nil, app_nil_r.
      unfold set__subscribers. simpl. by destruct st.
  - eexists _, _. split; [apply Hunsub|]. split.
    + by rewrite with_cells_alter_eq, Hst.
    + simpl. split.
      * intros Hin. apply list_elem_of_filter in Hin as [Hne _]. done.
      * intros x Hx. rewrite list_elem_of_filter. split; [by intros [_ H]|by split].
Qed.

Lemma preserving_bind P {A B} (m : M A) (k : A -> M B) :
  preserving P m -> (forall a, preserving P (k a)) -> preserving P (bind m k).
Proof.
  intros Hm Hk w w' HP H. apply final_bind in H as [[e He]|(a & w1 & H1 & H2)].
  - eapply Hm; [done|]. by rewrite He.
  - eapply Hk; [|exact H2]. eapply Hm; [done|]. by rewrite H1.
Qed.

Lemma preserving_pure P {A} (m : M A) :
  (forall w w', final (m w) = Some w' -> w' = w) -> preserving P m.
Proof. intros H w w' HP Hf. by rewrite (H w w' Hf). Qed.

Lemma preserving_ret P {A} (a : A) : preserving P (ret a).
Proof. apply preserving_pure. unfold ret. simpl. congruence. Qed.

Lemma preserving_raise P {A} e : preserving P (raise (A:=A) e).
Proof. apply preserving_pure. unfold raise. simpl. congruence. Qed.

Lemma preserving_stuck P {A} : preserving P (stuck (A:=A)).
Proof. intros w w' _ H. discriminate. Qed.

Lemma preserving_load_widget P p : preserving P (load_widget p).
Proof.
  apply preserving_pure. unfold load_widget. intros w w'.
  destruct (widgets w !! p); simpl; congruence.
Qed.

Lemma preserving_walk P fuel is_provider widget :
  preserving P (walk fuel is_provider widget).
Proof.
  apply preserving_pure. unfold walk. intros w w'.
  destruct (walk_up _ _ _ _); simpl; congruence.
Qed.

Lemma preserving_get_values P sources : preserving P (get_values sources).
Proof.
  apply preserving_pure. intros w w' H. pose proof (get_values_pure sources w) as Hp.
  destruct (get_values sources w); simpl in H; simplify_eq; [by destruct Hp|done].
Qed.

Lemma preserving_apply_selector P selector sources values :
  preserving P (apply_selector selector sources values).
Proof. apply preserving_pure. intros w w'. apply apply_selector_pure. Qed.

Lemma preserving_for_each P {A} (body : A -> M unit) l :
  (forall x, preserving P (body x)) -> preserving P (for_each body l).
Proof.
  intros Hb. induction l as [|x l IH]; simpl; [apply preserving_ret|].
  apply preserving_bind; [apply Hb|]. intros _. apply IH.
Qed.

Lemma subscribed_once_same_shape w w' :
  same_shape w w' -> subscribed_once w -> subscribed_once w'.
Proof.
  intros Hs H c st' Hc.
  destruct (same_shape_lookup _ _ _ _ Hs Hc) as (st & Hst & Hsh).
  assert (_subscribers st' = _subscribers st) as -> by (unfold shape in Hsh; congruence).
  by eapply H.
Qed.

Lemma once_same_cells {A} (m : M A) :
  (forall w w', final (m w) = Some w' -> cells w' = cells w) ->
  preserving subscribed_once m.
Proof. intros H w w' HP Hf c st Hc. rewrite (H w w' Hf) in Hc. by eapply HP. Qed.

Lemma once_update c f :
  (forall st, NoDup (_subscribers st) -> NoDup (_subscribers (f st))) ->
  preserving subscribed_once (update c f).
Proof.
  intros Hf w w' HP H. unfold update in H. simpl in H. simplify_eq.
  intros i st' Hi. simpl in Hi. destruct (decide (i = c)) as [->|Hne].
  - rewrite list_lookup_alter_eq in Hi.
    destruct (cells w !! c) as [st|] eqn:Hst; simpl in Hi; [|done]. simplify_eq.
    apply Hf. by eapply HP.
  - rewrite list_lookup_alter_ne in Hi by congruence. by eapply HP.
Qed.

Lemma once_new_State v name : preserving subscribed_once (new_State v name).
Proof.
  intros w w' HP H. unfold new_State in H. simpl in H. simplify_eq.
  intros i st Hi. simpl in Hi.
  destruct (decide (i < length (cells w))) as [Hlt|Hge].
  - rewrite lookup_app_l in Hi by done. by eapply HP.
  - rewrite lookup_app_r in Hi by lia.
    destruct (i - length (cells w)); simpl in Hi; [|done].
    simplify_eq. simpl. constructor.
Qed.

Lemma once_State_subscribe c widget :
  preserving subscribed_once (State_subscribe c widget).
Proof.
  apply once_update. intros st Hnd.
  destruct (bool_decide (widget ∈ _subscribers st)) eqn:E; [done|].
  apply bool_decide_eq_false in E. simpl. apply NoDup_app. split; [done|].
  split; [|apply NoDup_singleton].
  intros x Hx Hx'. apply list_elem_of_singleton in Hx'. by subst.
Qed.

Lemma once_State_unsubscribe c widget :
  preserving subscribed_once (State_unsubscribe c widget).
Proof. apply once_update. intros st Hnd. simpl. by apply NoDup_filter. Qed.

Lemma once_State_watch c wt : preserving subscribed_once (State_watch c wt).
Proof.
  unfold State_watch. apply preserving_bind; [|intros; apply preserving_ret].
  by apply once_update.
Qed.

Lemma once_unwatch c wt : preserving subscribed_once (unwatch c wt).
Proof.
  intros w w' HP H. unfold unwatch, bind, load in H.
  destruct (cells w !! c) as [st|] eqn:Hst; [|done].
  destruct (list_remove_first wt (_watchers st)) as [ws|]; simpl in H.
  - by apply (once_update c (set__watchers ws) ltac:(done) w w').
  - unfold raise in H. simpl in H. by simplify_eq.
Qed.

Lemma once_connect widget wanted c : preserving subscribed_once (connect widget wanted c).
Proof.
  unfold connect. apply preserving_bind; [apply preserving_load_widget|]. intros wd.
  apply preserving_for_each. intros m.
  destruct (startswith_underscore m); [apply preserving_ret|].
  destruct (class_getattr (mro wd) m) as [[[targets|]|]|]; try apply preserving_ret.
  destruct (bool_decide _); [|apply preserving_ret].
  apply preserving_bind; [apply once_State_watch|intros; apply preserving_ret].
Qed.

Lemma once_connect_if_named widget name c :
  preserving subscribed_once (connect_if_named widget name c).
Proof.
  unfold connect_if_named. destruct name as [n|]; [|apply preserving_ret].
  destruct (String.eqb n ""); [apply preserving_ret|apply once_connect].
Qed.

Lemma once_hook {A} widget v name (k : cell_id -> A) :
  preserving subscribed_once
    (let! state := new_State v name in
     State_subscribe state widget >>
     connect_if_named widget name state >>
     ret (k state)).
Proof.
  apply preserving_bind; [apply once_new_State|]. intros c.
  apply preserving_bind; [apply once_State_subscribe|]. intros _.
  apply preserving_bind; [apply once_connect_if_named|]. intros _.
  apply preserving_ret.
Qed.

Lemma once_use_derived widget sources selector name :
  preserving subscribed_once (use_derived widget sources selector name).
Proof.
  unfold use_derived.
  apply preserving_bind; [apply preserving_get_values|]. intros values.
  apply preserving_bind; [apply preserving_apply_selector|]. intros r.
  apply preserving_bind; [apply once_new_State|]. intros d.
  apply preserving_bind; [apply once_State_subscribe|]. intros _.
  apply preserving_bind.
  - apply preserving_for_each. intros src.
    apply preserving_bind; [apply once_State_watch|intros; apply preserving_ret].
  - intros _. apply preserving_bind; [apply once_connect_if_named|]. intros _.
    apply preserving_ret.
Qed.

Lemma once_Store_use fuel store widget subscribe :
  preserving subscribed_once (Store_use fuel store widget subscribe).
Proof.
  unfold Store_use. apply preserving_bind; [apply preserving_walk|]. intros [p|].
  - apply preserving_bind; [apply preserving_load_widget|]. intros pw.
    destruct (kind pw); try apply preserving_stuck.
    apply preserving_bind;
      [destruct subscribe; [apply once_State_subscribe|apply preserving_ret]|].
    intros _. apply preserving_bind; [apply once_connect|]. intros _.
    apply preserving_ret.
  - apply preserving_bind; [apply preserving_load_widget|]. intros wd.
    apply preserving_raise.
Qed.

Lemma once_use_context fuel widget context subscribe required :
  preserving subscribed_once (use_context fuel widget context subscribe required).
Proof.
  assert (forall cls l st d,
            preserving subscribed_once (ContextHandle__init__ cls l st widget context d))
    as Hinit.
  { intros cls l st d.
    assert (forall attr, preserving subscribed_once (object_setattr cls l attr)) as Hset.
    { intros attr. unfold object_setattr. destruct l; [|apply preserving_ret].
      destruct (bool_decide _); [apply preserving_ret|apply preserving_raise]. }
    unfold ContextHandle__init__.
    repeat (apply preserving_bind; [apply Hset|intros _]). apply preserving_ret. }
  unfold use_context, _find_provider.
  apply preserving_bind; [apply preserving_walk|]. intros provider.
  apply preserving_bind.
  - destruct provider as [p|].
    + apply preserving_bind; [apply preserving_load_widget|]. intros pw.
      destruct (kind pw); try apply preserving_stuck. apply preserving_ret.
    + destruct required.
      * apply preserving_bind; [apply preserving_load_widget|]. intros.
        apply preserving_raise.
      * apply preserving_bind; [apply once_new_State|]. intros. apply preserving_ret.
  - intros found.
    apply preserving_bind;
      [destruct subscribe; [apply once_State_subscribe|apply preserving_ret]|].
    intros _. destruct (is_ModelContext context); apply Hinit.
Qed.

Lemma once_perform c : preserving subscribed_once (perform c).
Proof.
  destruct c; unfold perform;
    try (apply preserving_bind; [|intros; apply preserving_ret]).
  - apply once_same_cells. unfold new_widget. simpl. intros. by simplify_eq.
  - apply once_same_cells. unfold mount. simpl. intros. by simplify_eq.
  - apply (once_hook widget v name (fun state => mkStateHandle state name)).
  - apply (once_hook widget v name
             (fun state => mkReducerHandle state (ReducerDispatch state reducer) name)).
  - apply (once_hook widget v name
             (fun state =>
                mkReducerHandle state (ModelReducerDispatch state reducer) name)).
  - apply once_use_derived.
  - intros w w' HP H. eapply subscribed_once_same_shape; [|done].
    by eapply State_set_same_shape.
  - intros w w' HP H. eapply subscribed_once_same_shape; [|done].
    by eapply _set_value_same_shape.
  - intros w w' HP H. eapply subscribed_once_same_shape; [|done].
    by eapply dispatch_same_shape.
  - apply once_State_watch.
  - apply once_unwatch.
  - apply once_State_subscribe.
  - apply once_State_unsubscribe.
  - intros w w' HP H. rewrite StoreProvider__init__run in H. simpl in H. simplify_eq.
    intros i st Hi. simpl in Hi.
    destruct (decide (i < length (cells w))) as [Hlt|Hge].
    + rewrite lookup_app_l in Hi by done. by eapply HP.
    + rewrite lookup_app_r in Hi by lia.
      destruct (i - length (cells w)); simpl in Hi; [|done].
      simplify_eq. simpl. constructor.
  - apply once_Store_use.
  - apply once_same_cells. intros w w' H. rewrite ContextProvider__init__run in H.
    simpl in H. by simplify_eq.
  - apply once_use_context.
Qed.

(** X28: in every world built through the library's operations no
    subscriber set lists a widget twice, however often the widget
    subscribed (through [subscribe], a hook, [Store.use] or
    [use_context]): an accepted change posts one notification per
    subscribed widget. *)
Theorem widgets_are_subscribed_once w c st :
  reachable w -> cells w !! c = Some st -> NoDup (_subscribers st).
Proof.
  intros Hr. revert c st. change (subscribed_once w).
  induction Hr as [|a w w' _ IH H]; [by intros c st Hc|].
  by eapply once_perform.
Qed.

(** ** Derivations are registered once per source *)

Lemma has_times w i wt : has w i wt <-> 0 < times w i wt.
Proof.
  unfold has, times. split.
  - intros (st & -> & Hin). apply count_occ_In. by apply list_elem_of_In.
  - destruct (cells w !! i) as [st|]; [|lia]. intros H. exists st. split; [done|].
    apply list_elem_of_In. by apply (count_occ_In watcher_eq_dec).
Qed.

Lemma count_occ_replicate (x y : watcher) n :
  count_occ watcher_eq_dec (replicate n x) y = if decide (x = y) then n else 0.
Proof.
  induction n as [|n IH]; simpl; [by destruct (decide _)|].
  rewrite IH. unfold decide, decide_rel. by destruct (watcher_eq_dec x y).
Qed.

Lemma count_occ_users (l : list watcher) wt :
  Forall (fun x => is_user x = true) l -> is_user wt = false ->
  count_occ watcher_eq_dec l wt = 0.
Proof.
  intros Hl Hu. apply count_occ_not_In. intros Hin.
  apply list_elem_of_In in Hin. rewrite Forall_forall in Hl.
  apply Hl in Hin. congruence.
Qed.

Lemma same_derivations_refl w : same_derivations w w.
Proof. by intros i wt _. Qed.

Lemma same_derivations_trans w1 w2 w3 :
  same_derivations w1 w2 -> same_derivations w2 w3 -> same_derivations w1 w3.
Proof. intros H1 H2 i wt Hu. by rewrite H2, H1. Qed.

Lemma same_derivations_cells w w' : cells w' = cells w -> same_derivations w w'.
Proof. intros Hc i wt _. unfold times. by rewrite Hc. Qed.

Lemma same_derivations_shape w w' : same_shape w w' -> same_derivations w w'.
Proof.
  intros Hs i wt _. unfold times.
  destruct (cells w !! i) as [st|] eqn:Hi.
  - destruct (same_shape_lookup_inv _ _ _ _ Hs Hi) as (st' & -> & Hsh).
    by rewrite (shape_watchers _ _ Hsh).
  - destruct (cells w' !! i) as [st'|] eqn:Hi'; [|done].
    destruct (same_shape_lookup _ _ _ _ Hs Hi') as (st & Hst & _). congruence.
Qed.

Lemma same_derivations_derivation w w' d srcs f :
  same_derivations w w' -> derivation w' d srcs f <-> derivation w d srcs f.
Proof.
  intros Hs. rewrite !derivation_has.
  split; intros [i Hi]; exists i; apply has_times; apply has_times in Hi.
  - by rewrite <- (Hs i (WSourceChange d srcs f)).
  - by rewrite (Hs i (WSourceChange d srcs f)).
Qed.

Lemma registered_exactly_same w w' :
  same_derivations w w' -> registered_exactly w -> registered_exactly w'.
Proof.
  intros Hs Hex d srcs f i Hd. rewrite (Hs i) by done.
  apply Hex. by apply (same_derivations_derivation w w').
Qed.

Lemma neutral_bind {A B} (m : M A) (k : A -> M B) :
  neutral m -> (forall a, neutral (k a)) -> neutral (bind m k).
Proof.
  intros Hm Hk w w' H. apply final_bind in H as [[e He]|(a & w1 & H1 & H2)].
  - apply Hm. by rewrite He.
  - eapply same_derivations_trans; [apply Hm; by rewrite H1|by eapply Hk].
Qed.

Lemma neutral_steps {A} (m : M A) :
  (forall w w', final (m w) = Some w' -> cells w' = cells w) -> neutral m.
Proof. intros H w w' Hf. apply same_derivations_cells. by eapply H. Qed.

Lemma neutral_ret {A} (a : A) : neutral (ret a).
Proof. apply neutral_steps. unfold ret. simpl. congruence. Qed.

Lemma neutral_raise {A} e : neutral (raise (A:=A) e).
Proof. apply neutral_steps. unfold raise. simpl. congruence. Qed.

Lemma neutral_stuck {A} : neutral (stuck (A:=A)).
Proof. intros w w' H. discriminate. Qed.

Lemma neutral_load_widget p : neutral (load_widget p).
Proof.
  apply neutral_steps. unfold load_widget. intros w w'.
  destruct (widgets w !! p); simpl; congruence.
Qed.

Lemma neutral_walk fuel is_provider widget : neutral (walk fuel is_provider widget).
Proof.
  apply neutral_steps. unfold walk. intros w w'.
  destruct (walk_up _ _ _ _); simpl; congruence.
Qed.

Lemma neutral_for_each {A} (body : A -> M unit) l :
  (forall x, neutral (body x)) -> neutral (for_each body l).
Proof.
  intros Hb. induction l as [|x l IH]; simpl; [apply neutral_ret|].
  apply neutral_bind; [apply Hb|]. intros _. apply IH.
Qed.

Lemma neutral_update c f :
  (forall st wt, is_user wt = false ->
     count_occ watcher_eq_dec (_watchers (f st)) wt =
     count_occ watcher_eq_dec (_watchers st) wt) ->
  neutral (update c f).
Proof.
  intros Hf w w' H. unfold update in H. simpl in H. simplify_eq.
  intros i wt Hu. unfold times. simpl.
  destruct (decide (i = c)) as [->|Hne].
  - rewrite list_lookup_alter_eq. destruct (cells w !! c); simpl; [by apply Hf|done].
  - by rewrite list_lookup_alter_ne by congruence.
Qed.

Lemma neutral_new_State v name : neutral (new_State v name).
Proof.
  intros w w' H. unfold new_State in H. simpl in H. simplify_eq.
  intros i wt _. unfold times. simpl.
  destruct (decide (i < length (cells w))) as [Hlt|Hge].
  - by rewrite lookup_app_l.
  - rewrite lookup_app_r, (lookup_ge_None_2 (cells w)) by lia.
    destruct (i - length (cells w)) as [|n]; [done|]. by destruct n.
Qed.

Lemma neutral_new_widget classes k : neutral (new_widget classes k).
Proof. apply neutral_steps. unfold new_widget. simpl. intros. by simplify_eq. Qed.

Lemma neutral_mount p child : neutral (mount p child).
Proof. apply neutral_steps. unfold mount. simpl. intros. by simplify_eq. Qed.

Lemma neutral_set_kind p k : neutral (set_kind p k).
Proof. apply neutral_steps. unfold set_kind. simpl. intros. by simplify_eq. Qed.

Lemma neutral_State_subscribe c widget : neutral (State_subscribe c widget).
Proof. apply neutral_update. intros st wt _. by destruct (bool_decide _). Qed.

Lemma neutral_State_unsubscribe c widget : neutral (State_unsubscribe c widget).
Proof. by apply neutral_update. Qed.

Lemma neutral_State_watch c wt : is_user wt = true -> neutral (State_watch c wt).
Proof.
  intros Huser. unfold State_watch. apply neutral_bind; [|intros; apply neutral_ret].
  apply neutral_update. intros st x Hx. simpl. rewrite count_occ_app. simpl.
  destruct (watcher_eq_dec wt x) as [->|_]; [congruence|lia].
Qed.

Lemma list_remove_first_count (x : watcher) l l' y :
  list_remove_first x l = Some l' -> y <> x ->
  count_occ watcher_eq_dec l' y = count_occ watcher_eq_dec l y.
Proof.
  revert l'. induction l as [|z l IH]; intros l' H Hne; simpl in H; [done|].
  destruct (decide (z = x)) as [->|Hzx].
  - simplify_eq. by rewrite count_occ_cons_neq by congruence.
  - destruct (list_remove_first x l) as [l0|]; simpl in H; [|done]. simplify_eq.
    simpl. rewrite (IH l0) by done. done.
Qed.

Lemma neutral_unwatch c wt : is_user wt = true -> neutral (unwatch c wt).
Proof.
  intros Huser w w' H. unfold unwatch, bind, load in H.
  destruct (cells w !! c) as [st|] eqn:Hst; [|done].
  destruct (list_remove_first wt (_watchers st)) as [ws|] eqn:Hrm; simpl in H.
  - unfold update in H. simpl in H. simplify_eq.
    intros i x Hu. unfold times. simpl.
    destruct (decide (i = c)) as [->|Hne].
    + rewrite list_lookup_alter_eq, Hst. simpl.
      eapply list_remove_first_count; [done|]. intros ->. congruence.
    + by rewrite list_lookup_alter_ne by congruence.
  - unfold raise in H. simpl in H. simplify_eq. apply same_derivations_refl.
Qed.

Lemma neutral_connect widget wanted c : neutral (connect widget wanted c).
Proof.
  unfold connect. apply neutral_bind; [apply neutral_load_widget|]. intros wd.
  apply neutral_for_each. intros m.
  destruct (startswith_underscore m); [apply neutral_ret|].
  destruct (class_getattr (mro wd) m) as [[[targets|]|]|]; try apply neutral_ret.
  destruct (bool_decide _); [|apply neutral_ret].
  apply neutral_bind; [by apply neutral_State_watch|intros; apply neutral_ret].
Qed.

Lemma neutral_connect_if_named widget name c : neutral (connect_if_named widget name c).
Proof.
  unfold connect_if_named. destruct name as [n|]; [|apply neutral_ret].
  destruct (String.eqb n ""); [apply neutral_ret|apply neutral_connect].
Qed.

Lemma neutral_hook {A} widget v name (k : cell_id -> A) :
  neutral (let! state := new_State v name in
           State_subscribe state widget >>
           connect_if_named widget name state >>
           ret (k state)).
Proof.
  apply neutral_bind; [apply neutral_new_State|]. intros c.
  apply neutral_bind; [apply neutral_State_subscribe|]. intros _.
  apply neutral_bind; [apply neutral_connect_if_named|]. intros _. apply neutral_ret.
Qed.

Lemma neutral_Store_use fuel store widget subscribe :
  neutral (Store_use fuel store widget subscribe).
Proof.
  unfold Store_use. apply neutral_bind; [apply neutral_walk|]. intros [p|].
  - apply neutral_bind; [apply neutral_load_widget|]. intros pw.
    destruct (kind pw); try apply neutral_stuck.
    apply neutral_bind;
      [destruct subscribe; [apply neutral_State_subscribe|apply neutral_ret]|].
    intros _. apply neutral_bind; [apply neutral_connect|]. intros _. apply neutral_ret.
  - apply neutral_bind; [apply neutral_load_widget|]. intros wd. apply neutral_raise.
Qed.

Lemma neutral_use_context fuel widget context subscribe required :
  neutral (use_context fuel widget context subscribe required).
Proof.
  assert (forall cls l st d, neutral (ContextHandle__init__ cls l st widget context d))
    as Hinit.
  { intros cls l st d.
    assert (forall attr, neutral (object_setattr cls l attr)) as Hset.
    { intros attr. unfold object_setattr. destruct l; [|apply neutral_ret].
      destruct (bool_decide _); [apply neutral_ret|apply neutral_raise]. }
    unfold ContextHandle__init__.
    repeat (apply neutral_bind; [apply Hset|intros _]). apply neutral_ret. }
  unfold use_context, _find_provider.
  apply neutral_bind; [apply neutral_walk|]. intros provider.
  apply neutral_bind.
  - destruct provider as [p|].
    + apply neutral_bind; [apply neutral_load_widget|]. intros pw.
      destruct (kind pw); try apply neutral_stuck. apply neutral_ret.
    + destruct required.
      * apply neutral_bind; [apply neutral_load_widget|]. intros. apply neutral_raise.
      * apply neutral_bind; [apply neutral_new_State|]. intros. apply neutral_ret.
  - intros found.
    apply neutral_bind;
      [destruct subscribe; [apply neutral_State_subscribe|apply neutral_ret]|].
    intros _. destruct (is_ModelContext context); apply Hinit.
Qed.

Lemma neutral_StoreProvider__init__ classes store :
  neutral (StoreProvider__init__ classes store).
Proof.
  unfold StoreProvider__init__.
  apply neutral_bind; [apply neutral_new_widget|]. intros self.
  apply neutral_bind; [apply neutral_new_State|]. intros st.
  apply neutral_bind; [apply neutral_set_kind|]. intros _. apply neutral_ret.
Qed.

Lemma use_derived_exactly widget sources selector name w w' :
  well_formed w -> registered_exactly w ->
  final (use_derived widget sources selector name w) = Some w' ->
  registered_exactly w'.
Proof.
  intros Hwf Hex H.
  destruct (use_derived widget sources selector name w) as [h w0|e w0|] eqn:Hrun;
    simpl in H; simplify_eq.
  2:{ by rewrite (use_derived_raises _ _ _ _ _ _ _ Hrun). }
  destruct (use_derived_cells _ _ _ _ _ _ _ Hrun)
    as (values & r & effects & _ & Hgv & _ & Hlen & _ & _ & Hcnt & Hnew & Huser & _).
  set (d := length (cells w)) in *.
  set (W := WSourceChange d sources selector) in *.
  destruct (get_values_Returned _ _ _ _ Hgv) as [_ Hvalid].
  rewrite Forall_forall in Hvalid.
  assert (forall i, d <= i -> count_occ Nat.eq_dec sources i = 0) as Hout.
  { intros i Hi. apply count_occ_not_In. intros Hin.
    apply list_elem_of_In, Hvalid in Hin. unfold d in Hi. lia. }
  assert (forall i, times w i W = 0) as Hfresh.
  { intros i. destruct (times w i W) as [|n] eqn:E; [done|].
    assert (has w i W) as (st & Hi & Hin) by (apply has_times; lia).
    destruct (Hwf i st d sources selector Hi Hin) as (_ & Hlt & _). unfold d in Hlt. lia. }
  assert (forall i wt, is_user wt = false ->
    times w' i wt =
    times w i wt + if decide (W = wt) then count_occ Nat.eq_dec sources i else 0)
    as Htimes.
  { intros i wt Hu. unfold times at 1 2.
    destruct (cells w !! i) as [st|] eqn:Hi.
    - rewrite (Hcnt i st Hi). simpl. by rewrite count_occ_app, count_occ_replicate.
    - apply lookup_ge_None in Hi. rewrite (Hout i) by done.
      destruct (decide (i = d)) as [->|Hne].
      + rewrite Hnew. simpl. rewrite (count_occ_users effects wt) by done.
        by destruct (decide _).
      + rewrite (lookup_ge_None_2 (cells w')) by (rewrite Hlen; unfold d in *; lia).
        by destruct (decide _). }
  intros d' srcs f i Hd.
  rewrite Htimes by done.
  destruct (decide (W = WSourceChange d' srcs f)) as [E|E].
  - injection E as <- <- <-. fold W. by rewrite Hfresh.
  - rewrite Nat.add_0_r. apply Hex.
    apply derivation_has in Hd as [j Hj]. apply derivation_has. exists j.
    apply has_times. apply has_times in Hj. rewrite Htimes in Hj by done.
    rewrite decide_False in Hj by done. lia.
Qed.

Lemma registered_exactly_preserved c w w' :
  inv w -> registered_exactly w ->
  final (perform c w) = Some w' -> registered_exactly w'.
Proof.
  intros Hinv Hex H. destruct c; unfold perform in H; try apply final_then_ret in H.
  - eapply registered_exactly_same; [|done].
    by apply (neutral_new_widget classes NotProvider).
  - eapply registered_exactly_same; [|done]. by apply (neutral_mount p child).
  - eapply registered_exactly_same; [|done].
    by apply (neutral_hook widget v name (fun state => mkStateHandle state name)).
  - eapply registered_exactly_same; [|done].
    by apply (neutral_hook widget v name
                (fun state => mkReducerHandle state (ReducerDispatch state reducer) name)).
  - eapply registered_exactly_same; [|done].
    by apply (neutral_hook widget v name
                (fun state =>
                   mkReducerHandle state (ModelReducerDispatch state reducer) name)).
  - destruct Hinv as [Hwf _]. by eapply use_derived_exactly.
  - apply State_set_same_shape in H. eapply registered_exactly_same; [|done].
    by apply same_derivations_shape.
  - apply _set_value_same_shape in H. eapply registered_exactly_same; [|done].
    by apply same_derivations_shape.
  - apply dispatch_same_shape in H. eapply registered_exactly_same; [|done].
    by apply same_derivations_shape.
  - eapply registered_exactly_same; [|done].
    by apply (neutral_State_watch c (WCallback cb)).
  - eapply registered_exactly_same; [|done].
    by apply (neutral_unwatch c (WCallback cb)).
  - eapply registered_exactly_same; [|done]. by apply (neutral_State_subscribe c widget).
  - eapply registered_exactly_same; [|done]. by apply (neutral_State_unsubscribe c widget).
  - eapply registered_exactly_same; [|done].
    by apply (neutral_StoreProvider__init__ classes store).
  - eapply registered_exactly_same; [|done].
    by apply (neutral_Store_use fuel store widget subscribe).
  - eapply registered_exactly_same; [|done].
    rewrite ContextProvider__init__run in H. simpl in H. simplify_eq.
    by apply same_derivations_cells.
  - eapply registered_exactly_same; [|done].
    by apply (neutral_use_context fuel widget context subscribe required).
Qed.

Lemma reachable_registered_exactly w : reachable w -> registered_exactly w.
Proof.
  induction 1 as [|c w w' Hr IH H].
  - intros d srcs f i (j & st & Hj & _). done.
  - eapply registered_exactly_preserved; [|exact IH|exact H]. by apply reachable_inv.
Qed.

(** ** A derivation follows its sources *)

Lemma passes_refl c w : passes c [] w w.
Proof. unfold passes. rewrite since_refl. by rewrite app_nil_r. Qed.

Lemma passes_trans c evs1 evs2 w1 w2 w3 :
  passes c evs1 w1 w2 -> passes c evs2 w2 w3 -> passes c (evs1 ++ evs2) w1 w3.
Proof.
  intros [H1 A1] [H2 A2]. pose proof (since_trans _ _ _ H1 H2) as E. split.
  - rewrite E, H2, H1. by rewrite app_assoc.
  - by rewrite E, about_app, A1, A2.
Qed.

Lemma passes_off T c w w' : frame T (off c) w w' -> passes c [] w w'.
Proof.
  intros F. destruct (frame_since _ _ _ _ F) as [Ht Hq].
  split; [done|]. by apply about_off.
Qed.

Lemma depends_le w a k : well_formed w -> depends w a k -> a <= k.
Proof.
  intros Hwf. induction 1 as [|i st d srcs sel _ IH Hi Hin]; [done|].
  destruct (Hwf i st d srcs sel Hi Hin) as [Hlt _]. lia.
Qed.

Lemma closed_same_shape w w' T : same_shape w w' -> closed w T -> closed w' T.
Proof.
  intros Hs Hc i st' d srcs sel Ti Hi Hin.
  destruct (same_shape_lookup _ _ _ _ Hs Hi) as (st & Hst & Hsh).
  apply (Hc i st d srcs sel Ti Hst). by rewrite (shape_watchers _ _ Hsh).
Qed.

Lemma count_occ_one_split (x : watcher) l :
  count_occ watcher_eq_dec l x = 1 ->
  exists l1 l2, l = l1 ++ x :: l2 /\ (x ∉ l1) /\ (x ∉ l2).
Proof.
  induction l as [|y l IH]; simpl; [done|].
  destruct (watcher_eq_dec y x) as [->|Hne]; intros H.
  - exists [], l. split; [done|]. split; [apply not_elem_of_nil|].
    rewrite list_elem_of_In. apply (count_occ_not_In watcher_eq_dec). lia.
  - destruct (IH H) as (l1 & l2 & -> & H1 & H2).
    exists (y :: l1), l2. split; [done|]. split; [|done].
    apply not_elem_of_cons. split; [congruence|done].
Qed.

(** The watchers of a source [a] other than the watcher of the derivation
    of [d] from [[a; b]], where [b] does not depend on [a]: what they
    start leaves [a], [b] and [d] alone. *)
Lemma bystanders_frame fuel a b d f sa old_value new_value w :
  wired w -> registered_exactly w ->
  derivation w d [a; b] f -> ~ depends w a b ->
  cells w !! a = Some sa ->
  forall ws wcur wend,
    same_shape w wcur ->
    (forall wt, wt ∈ ws -> wt ∈ _watchers sa) ->
    WSourceChange d [a; b] f ∉ ws ->
    final (for_each (call_watcher (_set_value fuel) a old_value new_value) ws wcur)
      = Some wend ->
    frame (fun k => depends w a k /\ k <> d /\ k <> a) (off d) wcur wend.
Proof.
  intros Hwired Hexact Hd Hindep Ha ws wcur wend Hs Hsub Hnot H.
  pose proof Hwired as (Hwf & Hreg & Huniq).
  assert (a < d) as Had by (eapply sources_before; [done|done|by left]).
  set (T := fun k => depends w a k /\ k <> d /\ k <> a).
  assert (closed w T) as Hclosed.
  { intros i st d0 srcs sel (Hdep & Hid & Hia) Hi Hin.
    pose proof (depends_le _ _ _ Hwf Hdep) as Hle.
    destruct (Hwf i st d0 srcs sel Hi Hin) as (Hlt & _).
    split; [by eapply depends_step|]. split; [|lia].
    intros ->.
    assert (derivation w d srcs sel) as Hd0 by by exists i, st.
    destruct (Huniq d srcs sel [a; b] f Hd0 Hd) as [-> ->].
    pose proof (Hexact d [a; b] f i Hd) as E.
    assert (0 < times w i (WSourceChange d [a; b] f)) as Hpos
      by (apply has_times; by exists st).
    rewrite E in Hpos. apply count_occ_elem in Hpos.
    apply elem_of_cons in Hpos as [->|Hpos]; [done|].
    apply list_elem_of_singleton in Hpos as ->. done. }
  eapply (watchers_frame T (off d)); [| | | |exact H].
  - intros d0 v0 wa wb Td Hca Hf.
    eapply (_set_value_frame T (off d)); [|exact Td|exact Hca|exact Hf].
    intros ev (_ & Hne & _). exact Hne.
  - by eapply closed_same_shape.
  - intros wt _. unfold off. simpl. lia.
  - intros d0 srcs sel Hin.
    assert (WSourceChange d0 srcs sel ∈ _watchers sa) as Hin' by by apply Hsub.
    destruct (Hwf a sa d0 srcs sel Ha Hin') as (Hlt & _).
    split; [eapply depends_step; [apply depends_self|exact Ha|exact Hin']|].
    split; [|lia]. intros ->.
    assert (derivation w d srcs sel) as Hd0 by by exists a, sa.
    destruct (Huniq d srcs sel [a; b] f Hd0 Hd) as [-> ->]. done.
Qed.

(** An accepted change of a source recomputes the derivation, and
    everything that changes one of its sources afterwards recomputes it
    again. *)
Lemma set_recomputes fuel a v d srcs f sa w w' :
  wired w -> derivation w d srcs f -> a ∈ srcs -> returns_values f ->
  cells w !! a = Some sa -> unchanged (_value sa) v = false ->
  _set_value fuel a v w = Returned tt w' ->
  up_to_date w' d srcs f.
Proof.
  intros Hwired Hd Hin Hgood Ha Hu H.
  pose proof Hwired as (Hwf & Hreg & Huniq).
  assert (a < d) as Had by (by eapply sources_before).
  destruct fuel as [|n]; [done|].
  rewrite (_set_value_changed n a v sa) in H by done.
  set (w1 := with_cells (alter (set__value v) a) w) in *.
  assert (same_shape w w1) as Hs1.
  { by destruct (frame_set_value (fun _ => True) (fun _ => True) a v w I). }
  unfold bind in H.
  destruct (for_each _ (_watchers sa) w1) as [[] w2|e w2|] eqn:Hws; try discriminate.
  rewrite for_each_posts in H. simplify_eq.
  assert (forall d0 s0 f0,
    ~ WSourceChange d0 s0 f0 <> WSourceChange d srcs f ->
    d0 = d /\ s0 = srcs /\ f0 = f) as Hsame.
  { intros d0 s0 f0 Hnn.
    destruct (decide (WSourceChange d0 s0 f0 = WSourceChange d srcs f)) as [E|E];
      [by simplify_eq|done]. }
  destruct (watchers_settle n a sa (_value sa) v
              (fun d0 s0 f0 => WSourceChange d0 s0 f0 <> WSourceChange d srcs f)
              w (_set_value_settles n) Hwired Ha) with (rest := _watchers sa)
              (wcur := w1) (wend := w2) as [_ Hfin]; try done.
  - intros d0 s0 f0 _ Hnn. by destruct (Hsame _ _ _ Hnn) as (_ & _ & ->).
  - intros d0 s0 f0 _ Hnn _ Hnot. destruct (Hsame _ _ _ Hnn) as (-> & -> & ->).
    destruct (Hreg d srcs f a Hd Hin) as (st & Hst & Hw). by simplify_eq.
  - apply (up_to_date_agree w2); [done|done|].
    apply Hfin; [done| |lia]. intros Hnn. by apply Hnn.
Qed.

Lemma passes_quiet c evs w : Forall (off c) evs -> passes c [] w (add_events evs w).
Proof.
  intros H. apply (passes_off (fun _ => True)). by apply frame_add_events.
Qed.

(** When the other source does not depend on the one that changes, the
    derivation is recomputed once. *)
Lemma set_recomputes_once fuel a b v d f sa sb sd w w' :
  wired w -> registered_exactly w ->
  derivation w d [a; b] f -> a <> b -> returns_values f ->
  ~ depends w a b ->
  cells w !! a = Some sa -> cells w !! b = Some sb -> cells w !! d = Some sd ->
  unchanged (_value sa) v = false ->
  _set_value fuel a v w = Returned tt w' ->
  exists r sd',
    call f [v; _value sb] = inl r /\
    cells w' !! b = Some sb /\
    cells w' !! d = Some sd' /\
    _value sd' = (if unchanged (_value sd) r then _value sd else r) /\
    about d (since w w') =
      if unchanged (_value sd) r then []
      else map (fun wt => Called d wt (_value sd) r) (_watchers sd) ++
           map (fun widget => Posted widget d (_value sd) r) (_subscribers sd).
Proof.
  intros Hwired Hexact Hd Hab Hgood Hindep Ha Hb Hsd Hu H.
  pose proof Hwired as (Hwf & Hreg & Huniq).
  assert (a < d) as Had by (eapply sources_before; [done|done|by left]).
  assert (b < d) as Hbd by (eapply sources_before; [done|done|right; by left]).
  destruct fuel as [|n]; [done|].
  rewrite (_set_value_changed n a v sa) in H by done.
  set (w1 := with_cells (alter (set__value v) a) w) in *.
  assert (same_shape w w1) as Hs1.
  { by destruct (frame_set_value (fun _ => True) (fun _ => True) a v w I). }
  assert (count_occ watcher_eq_dec (_watchers sa) (WSourceChange d [a; b] f) = 1) as Hone.
  { pose proof (Hexact d [a; b] f a Hd) as E. unfold times in E. rewrite Ha in E.
    rewrite E. simpl. destruct (Nat.eq_dec a a); [|done].
    by destruct (Nat.eq_dec b a); [congruence|]. }
  destruct (count_occ_one_split _ _ Hone) as (ws1 & ws2 & Hws & Hn1 & Hn2).
  unfold bind in H.
  destruct (for_each _ (_watchers sa) w1) as [[] w2|e w2|] eqn:Hloop; try discriminate.
  rewrite for_each_posts in H. simplify_eq.
  rewrite Hws, for_each_app in Hloop.
  destruct (for_each _ ws1 w1) as [[] wA|e wA|] eqn:H1; try discriminate.
  rewrite for_each_cons in Hloop.
  destruct (call_watcher _ a (_value sa) v (WSourceChange d [a; b] f) wA)
    as [[] wB|e wB|] eqn:HW; try discriminate.
  set (T := fun k => depends w a k /\ k <> d /\ k <> a).
  assert (~ T a /\ ~ T b /\ ~ T d) as (HTa & HTb & HTd).
  { unfold T. repeat split; intros (? & ? & ?); done. }
  assert (cells w1 !! a = Some (set__value v sa)) as H1a by by apply committed_lookup.
  assert (cells w1 !! b = Some sb) as H1b
    by (unfold w1; simpl; by rewrite list_lookup_alter_ne).
  assert (cells w1 !! d = Some sd) as H1d
    by (unfold w1; simpl; rewrite list_lookup_alter_ne; [done|lia]).
  (* the watchers registered before the derivation's *)
  assert (frame T (off d) w1 wA) as F1.
  { apply (bystanders_frame n a b d f sa (_value sa) v w Hwired Hexact Hd Hindep Ha
             ws1 w1 wA); try done.
    - intros wt Hin. rewrite Hws. apply elem_of_app. by left.
    - by rewrite H1. }
  pose proof F1 as (HsA & HkA & _).
  assert (same_shape w wA) as HswA by by eapply same_shape_trans.
  (* the derivation's watcher *)
  set (we := add_events [Called a (WSourceChange d [a; b] f) (_value sa) v] wA).
  assert (cells we !! a = Some (set__value v sa)) as Hea
    by (unfold we; simpl; by rewrite (HkA a HTa)).
  assert (cells we !! b = Some sb) as Heb
    by (unfold we; simpl; by rewrite (HkA b HTb)).
  assert (cells we !! d = Some sd) as Hed
    by (unfold we; simpl; by rewrite (HkA d HTd)).
  assert (same_shape w we) as Hswe
    by (eapply same_shape_trans; [exact HswA|apply same_shape_add_events]).
  assert (well_formed we) as Hwfe by by eapply well_formed_same_shape.
  unfold call_watcher in HW.
  rewrite (bind_Returned _ _ wA tt we) in HW by done.
  rewrite (bind_Returned _ _ we [v; _value sb] we) in HW
    by (by apply (get_values_two a b (set__value v sa) sb)).
  unfold bind at 1, apply_selector in HW. cbn [length Nat.eqb] in HW.
  destruct (call f [v; _value sb]) as [r|e] eqn:Hcall; [|done].
  unfold lift, ret in HW.
  change (State_set n d r we = Returned tt wB) in HW.
  assert (callable r = false) as Hcr by by eapply Hgood.
  rewrite State_set_literal in HW by done.
  assert (exists sd',
    cells wB !! d = Some sd' /\
    _value sd' = (if unchanged (_value sd) r then _value sd else r) /\
    cells wB !! b = Some sb /\ same_shape w wB /\
    passes d (if unchanged (_value sd) r then []
              else map (fun wt => Called d wt (_value sd) r) (_watchers sd) ++
                   map (fun widget => Posted widget d (_value sd) r) (_subscribers sd))
      we wB) as (sd' & HBd & Hval & HBb & HswB & P3).
  { destruct n as [|m]; [done|].
    destruct (unchanged (_value sd) r) eqn:Hur.
    - rewrite (_set_value_unchanged m d r sd) in HW by done. simplify_eq.
      exists sd. repeat (split; [done|]). apply passes_refl.
    - destruct (_set_value_commits m d r sd we wB) as [Hget _];
        [done|done|done|by rewrite HW|].
      destruct (State_get_lookup _ _ _ _ Hget) as (sd' & Hsd' & Hv').
      exists sd'. split; [done|]. split; [done|].
      assert (frame (later a) (on_later a) we wB) as FL
        by (eapply (_set_value_later a); [exact Had|done|by rewrite HW]).
      split; [|split].
      + rewrite <- Heb. eapply _set_value_below; [done|by rewrite HW|done].
      + eapply same_shape_trans; [exact Hswe|by destruct FL].
      + split; [by destruct (frame_since _ _ _ _ FL)|].
        by apply (_set_value_about m d r sd we wB). }
  (* the watchers registered after it *)
  assert (frame T (off d) wB w2) as F2.
  { apply (bystanders_frame n a b d f sa (_value sa) v w Hwired Hexact Hd Hindep Ha
             ws2 wB w2); try done.
    - intros wt Hin. rewrite Hws. apply elem_of_app. right. by right.
    - by rewrite Hloop. }
  pose proof F2 as (Hs2 & Hk2 & _).
  exists r, sd'. split; [done|].
  split; [simpl; by rewrite (Hk2 b HTb)|].
  split; [simpl; by rewrite (Hk2 d HTd)|]. split; [done|].
  assert (passes d [] w w1) as P0 by exact (passes_refl d w).
  pose proof (passes_off _ _ _ _ F1) as P1.
  assert (passes d [] wA we) as P2.
  { apply passes_quiet. constructor; [|constructor]. unfold off. simpl. lia. }
  pose proof (passes_off _ _ _ _ F2) as P4.
  assert (passes d [] w2
            (add_events (map (fun widget => Posted widget a (_value sa) v)
                           (_subscribers sa)) w2)) as P5.
  { apply passes_quiet. apply Forall_fmap, Forall_true. intros x. unfold off. simpl. lia. }
  pose proof (passes_trans _ _ _ _ _ _ P0
                (passes_trans _ _ _ _ _ _ P1
                   (passes_trans _ _ _ _ _ _ P2
                      (passes_trans _ _ _ _ _ _ P3
                         (passes_trans _ _ _ _ _ _ P4 P5))))) as [_ P].
  simpl in P. by rewrite app_nil_r in P.
Qed.

Lemma State_set_assigned fuel c v v' st w :
  cells w !! c = Some st -> assigned true (_value st) v = inl v' ->
  State_set fuel c v w = _set_value fuel c v' w.
Proof.
  intros Hst Hv. unfold State_set, State_set_with.
  destruct v as [| | | | |g]; simpl in Hv; try (by simplify_eq).
  unfold bind, load, lift. by rewrite Hst, Hv.
Qed.

(** C6 (as amended): let [d] be a derivation from the distinct cells
    [[a; b]], in a world built through the library's operations, with a
    selector [f] that returns no callable, and let [a.set(x)] be an
    accepted change that returns, [x'] being the value assigned ([x], or
    the result of [x] when [x] is an updater).  Then [a] holds [x'] and
    [d] holds what [f] gives for [x'] and the value that [b] holds now,
    or a value that compares equal to that: all the sources are re-read.
    When [b] does not itself depend on [a], [d] is recomputed once, [b]
    holds what it held, and the watchers of [d] are called (in order)
    and its subscribers notified exactly when the recomputed value
    differs from the value [d] held, which it otherwise keeps. *)
Theorem derived_follows_source fuel a b d f x x' sa sb sd w w' :
  reachable w ->
  derivation w d [a; b] f -> a <> b ->
  (forall args r, call f args = inl r -> callable r = false) ->
  cells w !! a = Some sa -> cells w !! b = Some sb -> cells w !! d = Some sd ->
  assigned true (_value sa) x = inl x' ->
  unchanged (_value sa) x' = false ->
  State_set fuel a x w = Returned tt w' ->
  exists vb vd r,
    State_get a w' = Returned x' w' /\
    State_get b w' = Returned vb w' /\
    State_get d w' = Returned vd w' /\
    call f [x'; vb] = inl r /\
    (vd = r \/ unchanged vd r = true) /\
    (~ depends w a b ->
       vb = _value sb /\
       vd = (if unchanged (_value sd) r then _value sd else r) /\
       exists posts,
         about d (since w w') =
           (if unchanged (_value sd) r then []
            else map (fun wt => Called d wt (_value sd) r) (_watchers sd) ++ posts) /\
         (posts ≡ₚ map (fun widget => Posted widget d (_value sd) r) (_subscribers sd))).
Proof.
  intros Hr Hd Hab Hgood Ha Hb Hsd Hx Hu H.
  pose proof (reachable_wired w Hr) as Hwired.
  pose proof (reachable_registered_exactly w Hr) as Hexact.
  rewrite (State_set_assigned fuel a x x' sa) in H by done.
  assert (State_get a w' = Returned x' w') as Hget.
  { destruct fuel as [|n]; [done|].
    destruct (_set_value_commits n a x' sa w w') as [Hg _];
      [by destruct Hwired|done|done|by rewrite H|done]. }
  destruct (set_recomputes fuel a x' d [a; b] f sa w w')
    as (values & r & sd' & Hgv & Hcall & Hd' & Hval); try done; [by left|].
  destruct (State_get_lookup _ _ _ _ Hget) as (sa' & Ha' & Hva).
  rewrite !get_values_cons, Ha' in Hgv.
  destruct (cells w' !! b) as [sb'|] eqn:Hb'; [|done].
  simpl in Hgv. unfold ret in Hgv. injection Hgv as <-.
  rewrite Hva in Hcall. cbn in Hcall.
  exists (_value sb'), (_value sd'), r.
  split; [done|].
  split; [unfold State_get, bind, load, ret; by rewrite Hb'|].
  split; [unfold State_get, bind, load, ret; by rewrite Hd'|].
  split; [done|]. split; [done|].
  intros Hindep.
  destruct (set_recomputes_once fuel a b x' d f sa sb sd w w')
    as (r2 & sd2 & Hcall2 & Hb2 & Hd2 & Hval2 & Habout); try done.
  rewrite Hb' in Hb2. injection Hb2 as ->.
  rewrite Hd' in Hd2. injection Hd2 as ->.
  rewrite Hcall in Hcall2. injection Hcall2 as <-.
  split; [done|]. split; [done|].
  exists (map (fun widget => Posted widget d (_value sd) r) (_subscribers sd)).
  split; [done|reflexivity].
Qed.

End Engine.

(** * Worked runs

    A small universe of user code: models are single integers compared
    by value, and the callables are the functions below. *)

Arguments Returned {Model A} a w.
Arguments Raised {Model A} e w.
Arguments Stuck {Model A}.

Notation "'let!' x ':=' m 'in' k" := (bind m (fun x => k))
  (at level 10, x name, m at level 100, k at level 200).
Notation "m '>>' k" := (bind m (fun _ => k))
  (at level 62, right associativity).

Definition demo_dump_eq (a b : Z) : bool := (a =? b)%Z.

Definition demo_call (f : fn_id) (args : list (@value Z)) : @value Z + exn :=
  match f, args with
  | 0, [VInt x] => inl (VInt (x + 1))              (* lambda x: x + 1 *)
  | 1, [VInt x; VInt y] => inl (VInt (x + y))      (* lambda x, y: x + y *)
  | 2, _ => inr (UserError 2)                      (* raises *)
  | 3, _ => inl (VInt 1)                           (* lambda x: 1 *)
  | 4, _ => inl (VFn 0)                            (* lambda x: <function 0> *)
  | 5, [VInt s; VInt a] => inl (VInt (s + a))      (* reducer: state + action *)
  | 6, [VInt x; VInt y] =>                         (* lambda x, y: a function *)
      inl (VFn (if (x + y <? 10)%Z then 0 else 3))
  | _, _ => inr (UserError f)
  end.

(** The callback [9] raises; every other user callback returns. *)
Definition demo_raises (wt : watcher) (old_value new_value : @value Z) : option exn :=
  match wt with
  | WCallback 9 => Some (UserError 9)
  | _ => None
  end.

Definition empty_world : @world Z := mkWorld [] [] [].

Definition demo_set := State_set demo_dump_eq demo_call demo_raises.
Definition demo_setter := State_value_setter demo_dump_eq demo_call demo_raises.

(** A cell holding [5], watched by callback [1], subscribed by widget [0]. *)
Definition five : @State Z := mkState (VInt 5) [0] [WCallback 1] None.
Definition w_five : @world Z := mkWorld [five] [] [].

(** A cell watched by callbacks [1], [9] (which raises) and [2]. *)
Definition watched : @State Z :=
  mkState (VInt 0) [7] [WCallback 1; WCallback 9; WCallback 2] None.
Definition w_watched : @world Z := mkWorld [watched] [] [].

(** The world in which callback [9] has raised. *)
Definition w_watched_failed : @world Z :=
  mkWorld [mkState (VInt 5) [7] [WCallback 1; WCallback 9; WCallback 2] None] []
    [Called 0 (WCallback 1) (VInt 0) (VInt 5);
     Called 0 (WCallback 9) (VInt 0) (VInt 5)].

(** A widget class [Child(Base)] with no method of its own, whose base
    class declares [@effect("n") def on_n]. *)
Definition Base_class : pyclass :=
  mkClass "Base" [("on_n", Function (Some [TName "n"]))].
Definition Child_class : pyclass := mkClass "Child" [].

Definition w_child : @world Z :=
  mkWorld [mkState (VInt 0) [0] [] (Some "n")]
          [mkWidget [Child_class; Base_class] None NotProvider] [].

(** A plain context and a model context, and a tree of one widget. *)
Definition ThemeContext : @Context Z := mkContext 0 (VStr "light") (Some "theme") false.
Definition SettingsContext : @Context Z := mkContext 1 (VModel 3%Z) (Some "settings") true.
Definition Label_class : pyclass := mkClass "Label" [].
Definition w_label : @world Z :=
  mkWorld [] [mkWidget [Label_class] None NotProvider] [].

(** Nested providers, written down as data (no constructor call can
    build them): widgets [0] and [1] provide [ThemeContext], widget [2]
    below them provides [SettingsContext], the consumer [3] is below it,
    and [4] is a sibling branch that provides [ThemeContext] as well. *)
Definition w_nested : @world Z :=
  mkWorld [mkState (VStr "dark") [] [] (Some "theme");
           mkState (VStr "blue") [] [] (Some "theme");
           mkState (VModel 7%Z) [] [] (Some "settings");
           mkState (VStr "red") [] [] (Some "theme")]
          [mkWidget [Label_class] None (IsContextProvider ThemeContext 0);
           mkWidget [Label_class] (Some 0) (IsContextProvider ThemeContext 1);
           mkWidget [Label_class] (Some 1) (IsContextProvider SettingsContext 2);
           mkWidget [Label_class] (Some 2) NotProvider;
           mkWidget [Label_class] (Some 0) (IsContextProvider ThemeContext 3)]
          [].

(** A counter store mounted twice: the app widget [0] has two
    [StoreProvider] children [1] and [2] for the same store, and below
    each a [Display] widget ([3] and [4]) that consumes it. *)
Definition CounterStore : @Store Z := mkStore 0 5 (VInt 0) (Some "counter").
Definition App_class : pyclass := mkClass "App" [].
Definition StoreProvider_class : pyclass := mkClass "StoreProvider" [].
Definition Display_class : pyclass :=
  mkClass "Display" [("on_counter", Function (Some [TStore 0]))].

Definition mounted_twice_script : list (@api Z) :=
  [ ApiNewWidget [App_class];
    ApiStoreProvider [StoreProvider_class] CounterStore;
    ApiStoreProvider [StoreProvider_class] CounterStore;
    ApiNewWidget [Display_class];
    ApiNewWidget [Display_class];
    ApiMount 0 1; ApiMount 0 2; ApiMount 1 3; ApiMount 2 4;
    ApiStoreUse 3 CounterStore 4 true ].

Definition w_mounted_twice : @world Z :=
  Eval vm_compute in
    default empty_world
      (run_all demo_dump_eq demo_call demo_raises mounted_twice_script empty_world).

(** The value a run returns, if it returns. *)
Definition returned {A} (o : @outcome Z A) : option A :=
  match o with
  | Returned a _ => Some a
  | _ => None
  end.

(** A view with an effect on its derived state ["sum"] and one on its
    state ["a"]. *)
Definition SumView_class : pyclass :=
  mkClass "SumView" [("on_a", Function (Some [TName "a"]));
                     ("on_sum", Function (Some [TName "sum"]))].

(** The world after [a = use_state(view, 3, name="a")] and
    [b = use_state(view, 4, name="b")]. *)
Definition w_sources : @world Z :=
  mkWorld [mkState (VInt 3) [0] [WEffect 0 "on_a"] (Some "a");
           mkState (VInt 4) [0] [] (Some "b")]
          [mkWidget [SumView_class] None NotProvider] [].

(** ... and after [use_derived(view, [a, b], lambda x, y: x + y, name="sum")]. *)
Definition w_derived : @world Z :=
  mkWorld [mkState (VInt 3) [0] [WEffect 0 "on_a"; WSourceChange 2 [0; 1] 1] (Some "a");
           mkState (VInt 4) [0] [WSourceChange 2 [0; 1] 1] (Some "b");
           mkState (VInt 7) [0] [WEffect 0 "on_sum"] (Some "sum")]
          [mkWidget [SumView_class] None NotProvider] [].

(** The world [w_derived] after [a.set(10)]. *)
Definition w_derived_after : @world Z :=
  mkWorld [mkState (VInt 10) [0] [WEffect 0 "on_a"; WSourceChange 2 [0; 1] 1] (Some "a");
           mkState (VInt 4) [0] [WSourceChange 2 [0; 1] 1] (Some "b");
           mkState (VInt 14) [0] [WEffect 0 "on_sum"] (Some "sum")]
          [mkWidget [SumView_class] None NotProvider]
          [Called 0 (WEffect 0 "on_a") (VInt 3) (VInt 10);
           Called 0 (WSourceChange 2 [0; 1] 1) (VInt 3) (VInt 10);
           Called 2 (WEffect 0 "on_sum") (VInt 7) (VInt 14);
           Posted 0 2 (VInt 7) (VInt 14); Posted 0 0 (VInt 3) (VInt 10)].

(** The calls that build [w_derived]. *)
Definition derived_script : list (@api Z) :=
  [ ApiNewWidget [SumView_class];
    ApiUseState 0 (VInt 3) (Some "a");
    ApiUseState 0 (VInt 4) (Some "b");
    ApiUseDerived 0 [0; 1] 1 (Some "sum") ].
(** A class that overrides [on_n] of [Base] without decorating it. *)
Definition Quiet_class : pyclass := mkClass "Quiet" [("on_n", Function None)].
Definition Child_widget : @Widget Z := mkWidget [Child_class; Base_class] None NotProvider.
Definition w_quiet : @world Z :=
  mkWorld [mkState (VInt 0) [0] [] (Some "n")]
          [mkWidget [Quiet_class; Base_class] None NotProvider] [].

(** The pieces of [w_mounted_twice] around the first provider. *)
Definition counter_cell : @State Z := mkState (VInt 0) [] [] (Some "counter").
Definition Provider_1 : @Widget Z :=
  mkWidget [StoreProvider_class] (Some 0) (IsStoreProvider CounterStore 0).
Definition Display_3 : @Widget Z := mkWidget [Display_class] (Some 1) NotProvider.
Definition Label_widget : @Widget Z := mkWidget [Label_class] None NotProvider.
(** Models are single integers: [model_copy(update={"count": k})]
    replaces the integer. *)
Definition demo_copy (m : Z) (kwargs : list (string * @value Z)) : Z :=
  match assoc "count" kwargs with
  | Some (VInt k) => k
  | _ => m
  end.

(** A model cell holding [3], watched by callback [1]. *)
Definition settings : @State Z := mkState (VModel 3%Z) [0] [WCallback 1] (Some "settings").
Definition w_settings : @world Z := mkWorld [settings] [] [].

(** A reducer shared through a [ReducerContext]: the app widget [0] owns
    the reducer state ["todos"], the [ReducerProvider] [1] is mounted
    below it and the [TodoList] widget [2] below the provider. *)
Definition TodoContext : ReducerContext := mkReducerContext 0 (Some "todos").
Definition OtherContext : ReducerContext := mkReducerContext 1 None.
Definition ReducerProvider_class : pyclass := mkClass "ReducerProvider" [].
Definition TodoList_class : pyclass :=
  mkClass "TodoList" [("on_todos", Function (Some [TName "todos"]))].
Definition TodoList_widget : @Widget Z := mkWidget [TodoList_class] (Some 1) NotProvider.
Definition todos : @State Z := mkState (VInt 0) [0] [] (Some "todos").
Definition todos_handle : @ReducerHandle Z :=
  mkReducerHandle 0 (ReducerDispatch 0 5) (Some "todos").
Definition todo_providers : @reducer_providers Z :=
  [(1, mkReducerProvider TodoContext todos_handle)].
Definition w_todos : @world Z :=
  mkWorld [todos]
          [mkWidget [App_class] None NotProvider;
           mkWidget [ReducerProvider_class] (Some 0) NotProvider;
           TodoList_widget]
          [].

Definition SumView_widget : @Widget Z := mkWidget [SumView_class] None NotProvider.

(** A cell subscribed to by three widgets and watched by two callbacks
    with the derivation of cell [1] (the successor) between them. *)
Definition shared : @State Z :=
  mkState (VInt 3) [4; 0; 2] [WCallback 1; WSourceChange 1 [0] 0; WCallback 2] None.
Definition w_shared : @world Z :=
  mkWorld [shared; mkState (VInt 4) [0] [] None] [] [].

(** The world [w_shared] after [set(7)] on cell [0]. *)
Definition w_shared_after : @world Z :=
  mkWorld [mkState (VInt 7) [4; 0; 2]
             [WCallback 1; WSourceChange 1 [0] 0; WCallback 2] None;
           mkState (VInt 8) [0] [] None] []
    [Called 0 (WCallback 1) (VInt 3) (VInt 7);
     Called 0 (WSourceChange 1 [0] 0) (VInt 3) (VInt 7);
     Posted 0 1 (VInt 4) (VInt 8);
     Called 0 (WCallback 2) (VInt 3) (VInt 7);
     Posted 4 0 (VInt 3) (VInt 7); Posted 0 0 (VInt 3) (VInt 7);
     Posted 2 0 (VInt 3) (VInt 7)].

(** The world [w_sources] after
    [use_derived(view, [a, a], lambda x, y: x + y, name="sum")], where the
    source [a] is listed twice. *)
Definition w_doubled : @world Z :=
  mkWorld [mkState (VInt 3) [0]
             [WEffect 0 "on_a"; WSourceChange 2 [0; 0] 1; WSourceChange 2 [0; 0] 1]
             (Some "a");
           mkState (VInt 4) [0] [] (Some "b");
           mkState (VInt 6) [0] [WEffect 0 "on_sum"] (Some "sum")]
          [mkWidget [SumView_class] None NotProvider] [].

(** A cell on which callback [2] and then callback [1] are registered. *)
Definition w_pair : @world Z :=
  mkWorld [mkState (VInt 0) [] [WCallback 2; WCallback 1] None] [] [].
Definition w_pair_later : @world Z :=
  mkWorld [mkState (VInt 0) [] [WCallback 1; WCallback 2] None] [] [].
Definition w_pair_none : @world Z :=
  mkWorld [mkState (VInt 0) [] [WCallback 1] None] [] [].

(** The world [w_derived] after [a.set("seven")] has raised in the
    selector of the sum. *)
Definition w_derived_failed : @world Z :=
  mkWorld [mkState (VStr "seven") [0] [WEffect 0 "on_a"; WSourceChange 2 [0; 1] 1]
             (Some "a");
           mkState (VInt 4) [0] [WSourceChange 2 [0; 1] 1] (Some "b");
           mkState (VInt 7) [0] [WEffect 0 "on_sum"] (Some "sum")]
          [mkWidget [SumView_class] None NotProvider]
          [Called 0 (WEffect 0 "on_a") (VInt 3) (VStr "seven");
           Called 0 (WSourceChange 2 [0; 1] 1) (VInt 3) (VStr "seven")].

(** The world [w_derived] after [a.set(lambda x: x + 1)]. *)
Definition w_derived_updated : @world Z :=
  mkWorld [mkState (VInt 4) [0] [WEffect 0 "on_a"; WSourceChange 2 [0; 1] 1] (Some "a");
           mkState (VInt 4) [0] [WSourceChange 2 [0; 1] 1] (Some "b");
           mkState (VInt 8) [0] [WEffect 0 "on_sum"] (Some "sum")]
          [mkWidget [SumView_class] None NotProvider]
          [Called 0 (WEffect 0 "on_a") (VInt 3) (VInt 4);
           Called 0 (WSourceChange 2 [0; 1] 1) (VInt 3) (VInt 4);
           Called 2 (WEffect 0 "on_sum") (VInt 7) (VInt 8);
           Posted 0 2 (VInt 7) (VInt 8); Posted 0 0 (VInt 3) (VInt 4)].

(** A second universe of user code, for a derivation whose other source
    depends on the source that is set. *)
Definition tangle_call (f : fn_id) (args : list (@value Z)) : @value Z + exn :=
  match f, args with
  | 0, [VInt x] => inl (VInt x)                    (* lambda x: x *)
  | 1, [VInt x] => inl (VInt (-2 * x))             (* lambda x: -2 * x *)
  | 2, [VInt x; VInt y] => inl (VInt (x + y))      (* lambda x, y: x + y *)
  | _, _ => inr (UserError f)
  end.

(** [a = use_state(view, 0)], [p = use_derived(view, a, lambda x: x)],
    [q = use_derived(view, a, lambda x: -2 * x)],
    [b = use_derived(view, [p, q], lambda x, y: x + y)] and
    [d = use_derived(view, [a, b], lambda x, y: x + y)]: the cells [0]
    to [4]. *)
Definition tangle_script : list (@api Z) :=
  [ ApiNewWidget [Label_class];
    ApiUseState 0 (VInt 0) None;
    ApiUseDerived 0 [0] 0 None;
    ApiUseDerived 0 [0] 1 None;
    ApiUseDerived 0 [1; 2] 2 None;
    ApiUseDerived 0 [0; 3] 2 None ].

Definition w_tangle : @world Z :=
  Eval vm_compute in
    default empty_world
      (run_all demo_dump_eq tangle_call demo_raises tangle_script empty_world).

(** The world [w_tangle] after [a.set(1)]. *)
Definition w_tangle_after : @world Z :=
  Eval vm_compute in
    default empty_world
      (final (State_set demo_dump_eq tangle_call demo_raises 5 0 (VInt 1) w_tangle)).

Lemma set_equal_value_is_noop_witness :
  demo_set 1 0 (VInt 5) w_five = Returned tt w_five.
Proof.
  apply (set_equal_value_is_noop demo_dump_eq demo_call demo_raises 0 0 (VInt 5) five);
    reflexivity.
Defined.

(** C2, as stated, fails for a callable: a cell created with the function
    [lambda x: 1] as its value and then given that same function through
    [set] has the function applied to itself; the result [1] differs from
    the function, the value is replaced, the watcher is called and the
    subscriber is notified. *)
Lemma set_equal_callable_is_not_noop :
  unchanged demo_dump_eq (VFn 3) (VFn 3) = true /\
  (let! s := new_State (VFn 3) None in
   State_watch s (WCallback 1) >>
   State_subscribe s 0 >>
   demo_set 1 s (VFn 3)) empty_world =
  Returned tt
    (mkWorld [mkState (VInt 1) [0] [WCallback 1] None] []
       [Called 0 (WCallback 1) (VFn 3) (VInt 1); Posted 0 0 (VFn 3) (VInt 1)]).
Proof. split; reflexivity. Qed.

(** C3, as stated, fails for a selector: in [w_derived] the sum of the
    cells [a] and [b] is derived; [a.set("seven")] makes the selector
    raise, the exception reaches the caller of [set], and the cell does
    not hold its pre-call value [3]: the source is assigned, its first
    watcher has run, the derived cell still holds [7], and the
    subscriber of [a] is not notified. *)
Lemma raising_selector_leaves_source_assigned :
  demo_call 1 [VStr "seven"; VInt 4] = inr (UserError 1) /\
  State_get 0 w_derived = Returned (VInt 3) w_derived /\
  demo_set 2 0 (VStr "seven") w_derived = Raised (UserError 1) w_derived_failed /\
  State_get 0 w_derived_failed = Returned (VStr "seven") w_derived_failed /\
  State_get 2 w_derived_failed = Returned (VInt 7) w_derived_failed.
Proof. repeat split; reflexivity. Qed.

Lemma w_derived_well_formed : well_formed w_derived.
Proof.
  intros i st d srcs sel Hi Hin.
  destruct i as [|[|[|i]]]; simpl in Hi; try done; injection Hi as <-; simpl in Hin;
    repeat (apply elem_of_cons in Hin as [Hin|Hin]; [try discriminate|]);
    try (by apply elem_of_nil in Hin);
    injection Hin as -> -> ->; simpl;
    (split; [lia|]); (split; [lia|]); repeat constructor; lia.
Defined.

Lemma raising_function_is_not_applied_witness :
  demo_set 1 0 (VFn 2) w_derived = Raised (UserError 2) w_derived /\
  dispatch demo_dump_eq demo_call demo_raises 1 (ReducerDispatch 0 2) (VInt 1) w_derived
    = Raised (UserError 2) w_derived /\
  use_derived demo_call 0 [0; 1] 2 None w_derived = Raised (UserError 2) w_derived /\
  demo_set 2 0 (VStr "seven") w_derived = Raised (UserError 1) w_derived_failed /\
  State_get 0 w_derived_failed = Returned (VStr "seven") w_derived_failed /\
  cells w_derived_failed = alter (set__value (VStr "seven")) 0 (cells w_derived).
Proof.
  pose proof (raising_function_is_not_applied demo_dump_eq demo_call demo_raises
                1 0 (mkState (VInt 3) [0] [WEffect 0 "on_a"; WSourceChange 2 [0; 1] 1]
                       (Some "a"))
                w_derived eq_refl) as (Hset & Hdispatch & _ & Hcreate & Hsource).
  pose proof (Hsource (VStr "seven") 2 [0; 1] 1 [WEffect 0 "on_a"] []
                (add_events [Called 0 (WEffect 0 "on_a") (VInt 3) (VStr "seven")]
                   (with_cells (alter (set__value (VStr "seven")) 0) w_derived))
                [VStr "seven"; VInt 4] (UserError 1)
                w_derived_well_formed eq_refl eq_refl eq_refl eq_refl eq_refl eq_refl)
    as (Hraise & Hget & _ & Hquiet).
  split; [|split; [|split; [|split; [|split]]]].
  - apply (Hset 2 (UserError 2)). reflexivity.
  - apply (Hdispatch 2 (VInt 1)). reflexivity.
  - apply (Hcreate 0 [0; 1] 2 None [VInt 3; VInt 4]); reflexivity.
  - exact Hraise.
  - exact Hget.
  - apply Hquiet. constructor; [by split|constructor].
Defined.

(** C9, as stated, fails when the updater returns a callable: from a cell
    holding [0], [set(lambda x: f0)] stores the function [f0]. *)
Lemma set_can_store_a_callable :
  callable (Model:=Z) (VFn 4) = true /\
  (let! s := new_State (VInt 0) None in
   demo_set 1 s (VFn 4) >>
   State_get s) empty_world =
  Returned (VFn 0) (mkWorld [mkState (VFn 0) [] [] None] [] []).
Proof. split; reflexivity. Qed.

Lemma w_five_well_formed : well_formed w_five.
Proof.
  intros i st d srcs sel Hi Hin. destruct i; simpl in Hi; [|done].
  injection Hi as <-. simpl in Hin.
  apply list_elem_of_singleton in Hin. discriminate.
Defined.

Lemma set_callable_runs_updater_witness :
  (forall r, demo_call 0 [VInt 5] = inl r ->
     demo_set 1 0 (VFn 0) w_five = demo_setter 1 0 r w_five /\
     (unchanged demo_dump_eq (VInt 5) r = false ->
      exists w', final (demo_set 1 0 (VFn 0) w_five) = Some w' /\
                 State_get 0 w' = Returned r w')) /\
  (unchanged demo_dump_eq (VInt 5) (VFn 0) = false ->
   exists w', final (demo_setter 1 0 (VFn 0) w_five) = Some w' /\
              State_get 0 w' = Returned (VFn 0) w').
Proof.
  apply (set_callable_runs_updater demo_dump_eq demo_call demo_raises 0 0 five 0 w_five).
  - exact w_five_well_formed.
  - reflexivity.
  - simpl. lia.
Defined.

Lemma w_watched_well_formed : well_formed w_watched.
Proof.
  intros i st d srcs sel Hi Hin. destruct i; simpl in Hi; [|done].
  injection Hi as <-. simpl in Hin.
  repeat (apply elem_of_cons in Hin as [Hin|Hin]; [discriminate|]).
  by apply elem_of_nil in Hin.
Defined.

Lemma watcher_failure_after_commit_witness :
  demo_set 1 0 (VInt 5) w_watched = Raised (UserError 9) w_watched_failed /\
  State_get 0 w_watched_failed = Returned (VInt 5) w_watched_failed /\
  about 0 (since w_watched w_watched_failed)
    = map (fun x => Called 0 x (VInt 0) (VInt 5)) ([WCallback 1] ++ [WCallback 9]).
Proof.
  apply (watcher_failure_after_commit demo_dump_eq demo_call demo_raises
           0 0 (VInt 5) watched [WCallback 1] (WCallback 9) [WCallback 2]
           (UserError 9) w_watched
           (mkWorld [mkState (VInt 5) [7] [WCallback 1; WCallback 9; WCallback 2] None] []
              [Called 0 (WCallback 1) (VInt 0) (VInt 5)])).
  - exact w_watched_well_formed.
  - reflexivity.
  - reflexivity.
  - reflexivity.
  - reflexivity.
  - reflexivity.
  - reflexivity.
Defined.

(** C5, as stated, fails: the closure returned by [watch] is not
    idempotent.  Called a second time it raises [ValueError]; and when the
    same callback has been registered again in between, the second call
    removes that later registration.  Nor does it remove exactly its own
    registration: with callback [1] registered, then callback [2], then
    callback [1] again, the closure of the last registration removes the
    first entry and leaves [[2; 1]]. *)
Lemma unwatch_twice_raises_or_removes_later :
  (let! s := new_State (Model:=Z) (VInt 0) None in
   let! u := State_watch s (WCallback 1) in
   u >> u) empty_world
  = Raised (ValueError "list.remove(x): x not in list")
      (mkWorld [mkState (VInt 0) [] [] None] [] []) /\
  (let! s := new_State (Model:=Z) (VInt 0) None in
   let! u := State_watch s (WCallback 1) in
   u >>
   let! later_registration := State_watch s (WCallback 1) in
   u) empty_world
  = Returned tt (mkWorld [mkState (VInt 0) [] [] None] [] []) /\
  (let! s := new_State (Model:=Z) (VInt 0) None in
   let! first_registration := State_watch s (WCallback 1) in
   let! other := State_watch s (WCallback 2) in
   let! u := State_watch s (WCallback 1) in
   u) empty_world
  = Returned tt (mkWorld [mkState (VInt 0) [] [WCallback 2; WCallback 1] None] [] []).
Proof. repeat split; reflexivity. Qed.

Lemma unwatch_removes_first_equal_witness :
  exists u w1,
    State_watch 0 (WCallback 2) w_pair = Returned u w1 /\
    _watchers <$> cells w1 !! 0 = Some [WCallback 2; WCallback 1; WCallback 2] /\
    u w1 = Returned tt w_pair_later /\
    (u >> u) w1 = Returned tt w_pair_none /\
    (u >> u >> u) w1 = Raised (ValueError "list.remove(x): x not in list") w_pair_none.
Proof.
  destruct (unwatch_removes_first_equal 0 (mkState (VInt 0) [] [WCallback 2; WCallback 1] None)
              (WCallback 2) w_pair eq_refl)
    as (u & w1 & Hw & -> & Hrm & Hnone & Hbefore & _).
  exists u, (with_cells (alter (add_watchers [WCallback 2]) 0) w_pair).
  assert (WCallback 2 ∉ [WCallback 1]) as Hne
    by (apply not_elem_of_cons; split; [done|apply not_elem_of_nil]).
  pose proof (Hbefore [] [WCallback 1] eq_refl ltac:(apply not_elem_of_nil)) as E1.
  change (u (with_cells (alter (add_watchers [WCallback 2]) 0) w_pair) =
          Returned tt w_pair_later) in E1.
  pose proof (Hrm w_pair_later _ [WCallback 1] [] eq_refl eq_refl Hne) as E2.
  change (u w_pair_later = Returned tt w_pair_none) in E2.
  pose proof (Hnone w_pair_none _ eq_refl Hne) as E3.
  split; [exact Hw|]. split; [reflexivity|]. split; [exact E1|].
  split.
  - unfold bind. rewrite E1. exact E2.
  - unfold bind at 1. rewrite E1. unfold bind. rewrite E2. exact E3.
Defined.

Lemma inherited_effect_is_connected_witness :
  exists w' st',
    connect_effects 0 "n" 0 w_child = Returned tt w' /\
    cells w' !! 0 = Some st' /\
    WEffect 0 "on_n" ∈ _watchers st'.
Proof.
  apply (inherited_effect_is_connected 0 Child_class [Base_class] None NotProvider
           "on_n" [TName "n"] "n" 0 (mkState (VInt 0) [0] [] (Some "n")) w_child);
    try reflexivity.
  by left.
Defined.

(** The same through [use_state]: the state named ["n"] of a [Child]
    widget gets the inherited method as a watcher, and a change calls
    it. *)
Lemma inherited_effect_runs :
  (let! widget := new_widget [Child_class; Base_class] NotProvider in
   let! h := use_state widget (VInt 0) (Some "n") in
   demo_set 1 (state h) (VInt 1)) empty_world
  = Returned tt
      (mkWorld [mkState (VInt 1) [0] [WEffect 0 "on_n"] (Some "n")]
               [mkWidget [Child_class; Base_class] None NotProvider]
               [Called 0 (WEffect 0 "on_n") (VInt 0) (VInt 1);
                Posted 0 0 (VInt 0) (VInt 1)]).
Proof. reflexivity. Qed.

Lemma use_context_plain_default_raises_witness :
  exists w',
    use_context 1 0 ThemeContext true false w_label =
    Raised (AttributeError "ContextHandle" "_rx_context") w'.
Proof.
  apply (use_context_plain_default_raises 1 0 ThemeContext true w_label); reflexivity.
Defined.

Lemma _find_provider_nearest_witness :
  _find_provider 4 3 ThemeContext w_nested
  = Returned (nearest (provides_context ThemeContext) (widgets w_nested) [3; 2; 1; 0])
             w_nested /\
  forall p, nearest (provides_context ThemeContext) (widgets w_nested) [3; 2; 1; 0]
            = Some p ->
    exists l1 l2 c st,
      [3; 2; 1; 0] = l1 ++ p :: l2 /\
      kind <$> widgets w_nested !! p = Some (IsContextProvider c st) /\
      context_ref c = context_ref ThemeContext /\
      forall x wdx, x ∈ l1 -> widgets w_nested !! x = Some wdx ->
        provides_context ThemeContext wdx = false.
Proof.
  apply (_find_provider_nearest 4 3 ThemeContext [3; 2; 1; 0] w_nested).
  - repeat (eapply chain_step; [reflexivity|reflexivity|]).
    eapply chain_root; reflexivity.
  - simpl. lia.
Defined.

(** Below two nested providers of one context the walk stops at the
    inner one, past the provider of another context, and never sees the
    sibling branch. *)
Lemma find_provider_nested_runs :
  _find_provider 4 3 ThemeContext w_nested = Returned (Some 1) w_nested /\
  _find_provider 4 3 SettingsContext w_nested = Returned (Some 2) w_nested /\
  _find_provider 4 4 ThemeContext w_nested = Returned (Some 4) w_nested.
Proof. repeat split. Qed.

(** What [use_context] does where it works: the not-found error of a
    required context, and the default-sourced handle of a model
    context. *)
Lemma use_context_runs :
  use_context 1 0 ThemeContext true true w_label
  = Raised (ContextNotFoundError 0 0
      "Context 'theme' not found in widget tree for Label. Make sure a ContextProvider is mounted above this widget.")
      w_label /\
  (let! h := use_context 1 0 SettingsContext true false in
   let! v := ContextHandle_value h in
   ret (is_default h, v)) w_label
  = Returned (true, VModel 3%Z)
      (mkWorld [mkState (VModel 3%Z) [0] [] (Some "settings")]
               [mkWidget [Label_class] None NotProvider] []).
Proof. split; reflexivity. Qed.

Lemma w_mounted_twice_reachable :
  reachable demo_dump_eq demo_call demo_raises w_mounted_twice.
Proof.
  apply (reachable_run_all demo_dump_eq demo_call demo_raises
           mounted_twice_script empty_world).
  - apply reachable_empty.
  - reflexivity.
Defined.

Lemma store_providers_are_independent_witness :
  0 <> 1 /\
  exists w',
    final (for_each (dispatch demo_dump_eq demo_call demo_raises 5
                       (ProviderDispatch 1 CounterStore))
             [VInt 1; VInt 2; VInt 3] w_mounted_twice) = Some w' /\
    cells w' !! 1 = cells w_mounted_twice !! 1 /\
    State_get 1 w' = match State_get 1 w_mounted_twice with
                     | Returned v _ => Returned v w'
                     | o => o
                     end /\
    about 1 (since w_mounted_twice w') = [].
Proof.
  apply (store_providers_are_independent demo_dump_eq demo_call demo_raises
           5 CounterStore 1 2
           (mkWidget [StoreProvider_class] (Some 0) (IsStoreProvider CounterStore 0))
           (mkWidget [StoreProvider_class] (Some 0) (IsStoreProvider CounterStore 1))
           0 1 [VInt 1; VInt 2; VInt 3] w_mounted_twice).
  - apply (reachable_inv demo_dump_eq demo_call demo_raises).
    exact w_mounted_twice_reachable.
  - reflexivity.
  - reflexivity.
  - reflexivity.
  - reflexivity.
  - discriminate.
  - simpl. lia.
Defined.

(** The same run, evaluated: the display under the first provider
    resolves to that provider, three dispatches take its cell to [6] and
    call its effect each time, and the second provider's cell still holds
    the initial [0]. *)
Lemma store_mounted_twice_runs :
  (let! h := Store_use 3 CounterStore 3 true in
   for_each (StoreHandle_dispatch demo_dump_eq demo_call demo_raises 5 h)
            [VInt 1; VInt 2; VInt 3] >>
   let! mine := State_get (store_state h) in
   let! other := State_get 1 in
   ret (store_state h, mine, other)) w_mounted_twice
  = Returned (0, VInt 6, VInt 0)
      (mkWorld
         [mkState (VInt 6) [3] [WEffect 3 "on_counter"] (Some "counter");
          mkState (VInt 0) [4] [WEffect 4 "on_counter"] (Some "counter")]
         (widgets w_mounted_twice)
         [Called 0 (WEffect 3 "on_counter") (VInt 0) (VInt 1);
          Posted 3 0 (VInt 0) (VInt 1);
          Called 0 (WEffect 3 "on_counter") (VInt 1) (VInt 3);
          Posted 3 0 (VInt 1) (VInt 3);
          Called 0 (WEffect 3 "on_counter") (VInt 3) (VInt 6);
          Posted 3 0 (VInt 3) (VInt 6)]).
Proof. reflexivity. Qed.

Lemma w_sources_built :
  returned ((let! view := new_widget [SumView_class] NotProvider in
             let! a := use_state view (VInt 3) (Some "a") in
             let! b := use_state view (VInt 4) (Some "b") in
             fun w => Returned (view, state a, state b, w) w) empty_world)
  = Some (0, 0, 1, w_sources).
Proof. reflexivity. Qed.

Lemma w_derived_reachable :
  reachable demo_dump_eq demo_call demo_raises w_derived.
Proof.
  apply (reachable_run_all demo_dump_eq demo_call demo_raises
           derived_script empty_world).
  - apply reachable_empty.
  - reflexivity.
Defined.

Lemma w_derived_depends k : depends w_derived 0 k -> k = 0 \/ k = 2.
Proof.
  induction 1 as [|i st d srcs sel _ IH Hi Hin]; [by left|]. right.
  destruct IH as [->| ->]; simpl in Hi; injection Hi as <-; simpl in Hin;
    repeat (apply elem_of_cons in Hin as [Hin|Hin]; [by simplify_eq|]);
    by apply elem_of_nil in Hin.
Defined.

Lemma derived_follows_source_witness :
  exists vb vd r,
    State_get 0 w_derived_after = Returned (VInt 10) w_derived_after /\
    State_get 1 w_derived_after = Returned vb w_derived_after /\
    State_get 2 w_derived_after = Returned vd w_derived_after /\
    demo_call 1 [VInt 10; vb] = inl r /\
    (vd = r \/ unchanged demo_dump_eq vd r = true) /\
    vb = VInt 4 /\
    vd = (if unchanged demo_dump_eq (VInt 7) r then VInt 7 else r) /\
    exists posts,
      about 2 (since w_derived w_derived_after) =
        (if unchanged demo_dump_eq (VInt 7) r then []
         else map (fun wt => Called 2 wt (VInt 7) r) [WEffect 0 "on_sum"] ++ posts) /\
      (posts ≡ₚ map (fun widget => Posted widget 2 (VInt 7) r) [0]).
Proof.
  destruct (derived_follows_source demo_dump_eq demo_call demo_raises
              2 0 1 2 1 (VInt 10) (VInt 10)
              (mkState (VInt 3) [0] [WEffect 0 "on_a"; WSourceChange 2 [0; 1] 1] (Some "a"))
              (mkState (VInt 4) [0] [WSourceChange 2 [0; 1] 1] (Some "b"))
              (mkState (VInt 7) [0] [WEffect 0 "on_sum"] (Some "sum"))
              w_derived w_derived_after)
    as (vb & vd & r & Ha & Hb & Hd & Hcall & Hval & Honce).
  - apply w_derived_reachable.
  - exists 1, (mkState (VInt 4) [0] [WSourceChange 2 [0; 1] 1] (Some "b")).
    split; [reflexivity|]. apply elem_of_cons. by left.
  - lia.
  - intros args r Hcall.
    destruct args as [|[] [|[] [|]]]; simpl in Hcall; by simplify_eq.
  - reflexivity.
  - reflexivity.
  - reflexivity.
  - reflexivity.
  - reflexivity.
  - reflexivity.
  - exists vb, vd, r. repeat (split; [assumption|]). apply Honce.
    intros Hdep. by destruct (w_derived_depends 1 Hdep).
Defined.

(** C6, as stated, fails in two ways.  A callable handed to [set] is an
    updater: after [a.set(lambda x: x + 1)] on [a = 3], [b = 4] the sum
    holds [8], the selector's result for the value assigned, while the
    selector applied to the argument of [set] raises.  And when the
    other source itself depends on [a], the derivation is recomputed
    with values in between: in [w_tangle] ([p = a], [q = -2 * a],
    [b = p + q], [d = a + b], all [0]) the call [a.set(1)] leaves [d] at
    [0], the value it held and the value of [f(1, b.get())], and yet the
    subscriber of [d] is notified twice, of [0 -> 2] and of [2 -> 0]. *)
Lemma derived_follows_assigned_value_and_may_fire_twice :
  (demo_set 2 0 (VFn 0) w_derived = Returned tt w_derived_updated /\
   State_get 2 w_derived_updated = Returned (VInt 8) w_derived_updated /\
   State_get 1 w_derived_updated = Returned (VInt 4) w_derived_updated /\
   demo_call 1 [VFn 0; VInt 4] = inr (UserError 1)) /\
  (run_all demo_dump_eq tangle_call demo_raises tangle_script empty_world
     = Some w_tangle /\
   State_set demo_dump_eq tangle_call demo_raises 5 0 (VInt 1) w_tangle
     = Returned tt w_tangle_after /\
   State_get 4 w_tangle = Returned (VInt 0) w_tangle /\
   State_get 3 w_tangle_after = Returned (VInt (-1)) w_tangle_after /\
   tangle_call 2 [VInt 1; VInt (-1)] = inl (VInt 0) /\
   State_get 4 w_tangle_after = Returned (VInt 0) w_tangle_after /\
   about 4 (since w_tangle w_tangle_after) =
     [Posted 0 4 (VInt 0) (VInt 2); Posted 0 4 (VInt 2) (VInt 0)]).
Proof. repeat split; reflexivity. Qed.

(** The scenario of the specification, evaluated: [a=3], [b=4] and
    [f = x + y] give [7]; after [a.set(10)] the derivation holds [14];
    after [b.set(20)] it holds [30]. *)
Lemma derived_sum_runs :
  returned ((let! d0 := State_get 2 in
             demo_set 2 0 (VInt 10) >>
             let! d1 := State_get 2 in
             demo_set 2 1 (VInt 20) >>
             let! d2 := State_get 2 in
             ret (d0, d1, d2)) w_derived)
  = Some (VInt 7, VInt 14, VInt 30).
Proof. reflexivity. Qed.

(** A selector that returns a callable: the derivation is created
    holding the function [f0] that the selector returned for [(3, 4)];
    after [a.set(10)] the selector returns the function [lambda x: 1],
    which the recomputation hands to [set], where it is applied to the
    derivation's previous value: the derivation holds [1]. *)
Lemma derived_callable_result_is_applied :
  returned ((let! view := new_widget [Label_class] NotProvider in
             let! a := use_state view (VInt 3) None in
             let! b := use_state view (VInt 4) None in
             let! d := use_derived demo_call view [state a; state b] 6 None in
             let! before := State_get (state d) in
             demo_set 2 (state a) (VInt 10) >>
             let! after := State_get (state d) in
             let! vb := State_get (state b) in
             ret (before, after, demo_call 6 [VInt 10; vb])) empty_world)
  = Some (VFn 0, VInt 1, inl (VFn 3)).
Proof. reflexivity. Qed.

(** ** Further worked runs *)

Lemma set_then_get_witness :
  exists w',
    final (demo_set 1 0 (VInt 7) w_five) = Some w' /\
    State_get 0 w' =
      Returned (if unchanged demo_dump_eq (_value five) (VInt 7)
                then _value five else VInt 7) w'.
Proof.
  apply (set_then_get demo_dump_eq demo_call demo_raises 0 0 (VInt 7) five w_five).
  - apply w_five_well_formed.
  - reflexivity.
  - reflexivity.
  - simpl. lia.
Defined.

Lemma w_shared_well_formed : well_formed w_shared.
Proof.
  intros i st d srcs sel Hi Hin.
  destruct i as [|[|i]]; simpl in Hi; [| |done]; injection Hi as <-; simpl in Hin.
  - repeat (apply elem_of_cons in Hin as [Hin|Hin]; [try discriminate|]).
    + injection Hin as -> -> ->. simpl. split; [lia|]. split; [lia|].
      constructor; [lia|constructor].
    + by apply elem_of_nil in Hin.
  - by apply elem_of_nil in Hin.
Defined.

Lemma change_calls_watchers_then_posts_witness :
  exists posts,
    about 0 (since w_shared w_shared_after) =
      map (fun wt => Called 0 wt (VInt 3) (VInt 7))
        [WCallback 1; WSourceChange 1 [0] 0; WCallback 2] ++ posts /\
    (posts ≡ₚ map (fun widget => Posted widget 0 (VInt 3) (VInt 7)) [4; 0; 2]).
Proof.
  apply (change_calls_watchers_then_posts demo_dump_eq demo_call demo_raises
           1 0 (VInt 7) shared w_shared w_shared_after).
  - apply w_shared_well_formed.
  - reflexivity.
  - reflexivity.
  - reflexivity.
  - reflexivity.
Defined.

Lemma set_reaches_only_derived_cells_witness :
  widgets w_derived_after = widgets w_derived /\
  map shape (cells w_derived_after) = map shape (cells w_derived) /\
  (forall k, ~ depends w_derived 0 k ->
     cells w_derived_after !! k = cells w_derived !! k) /\
  trace w_derived_after = trace w_derived ++ since w_derived w_derived_after /\
  Forall (fun ev => depends w_derived 0 (cell_of ev))
         (since w_derived w_derived_after).
Proof.
  apply (set_reaches_only_derived_cells demo_dump_eq demo_call demo_raises
           2 0 (VInt 10) w_derived w_derived_after).
  reflexivity.
Defined.

Lemma derivations_point_forward_witness :
  0 < 2 /\ 2 < length (cells w_derived) /\
  Forall (fun s => s < length (cells w_derived)) [0; 1].
Proof.
  apply (derivations_point_forward demo_dump_eq demo_call demo_raises
           w_derived 0
           (mkState (VInt 3) [0] [WEffect 0 "on_a"; WSourceChange 2 [0; 1] 1] (Some "a"))
           2 [0; 1] 1).
  - apply w_derived_reachable.
  - reflexivity.
  - apply elem_of_cons. right. apply elem_of_cons. by left.
Defined.

Lemma cascades_terminate_witness :
  exists w', final (demo_set 3 0 (VInt 10) w_derived) = Some w'.
Proof.
  apply (cascades_terminate demo_dump_eq demo_call demo_raises 3 0 (VInt 10) w_derived).
  - apply w_derived_reachable.
  - simpl. lia.
  - simpl. lia.
Defined.

Lemma provider_cells_are_exclusive_witness :
  0 < length (cells w_mounted_twice) /\
  (forall i st srcs sel, cells w_mounted_twice !! i = Some st ->
     WSourceChange 0 srcs sel ∉ _watchers st) /\
  (forall p' pw' s', widgets w_mounted_twice !! p' = Some pw' ->
     kind pw' = IsStoreProvider s' 0 -> p' = 1).
Proof.
  apply (provider_cells_are_exclusive demo_dump_eq demo_call demo_raises
           w_mounted_twice 1
           (mkWidget [StoreProvider_class] (Some 0) (IsStoreProvider CounterStore 0))
           CounterStore 0).
  - apply w_mounted_twice_reachable.
  - reflexivity.
  - reflexivity.
Defined.

Lemma connect_registers_effect_methods_witness :
  exists ms,
    connect 0 (TName "n") 0 w_child =
      Returned tt (with_cells (alter (add_watchers (map (WEffect 0) ms)) 0) w_child) /\
    StronglySorted (fun a b => String.compare a b = Lt) ms /\
    forall m, m ∈ ms <->
      startswith_underscore m = false /\
      exists targets,
        class_getattr (mro Child_widget) m = Some (Function (Some targets)) /\
        TName "n" ∈ targets.
Proof.
  apply (connect_registers_effect_methods 0 Child_widget (TName "n") 0 w_child).
  reflexivity.
Defined.

Lemma private_or_overridden_method_is_not_connected_witness :
  exists w' st',
    connect_effects 0 "n" 0 w_quiet = Returned tt w' /\
    cells w' !! 0 = Some st' /\
    WEffect 0 "on_n" ∉ _watchers st'.
Proof.
  apply (private_or_overridden_method_is_not_connected 0 Quiet_class [Base_class]
           None NotProvider "on_n" "n" 0 (mkState (VInt 0) [0] [] (Some "n")) w_quiet).
  - reflexivity.
  - reflexivity.
  - right. exists (Function None). split; [reflexivity|]. intros targets H. discriminate.
  - apply not_elem_of_nil.
Defined.

Lemma effect_accumulates_targets_witness :
  (forall method,
     effect [] method = inr (ValueError "@effect requires at least one target")) /\
  exists method1,
    effect [TName "count"] (Function None) = inl method1 /\
    effect [TName "name"] method1 =
      inl (Function (Some (default [] None ++ [TName "count"] ++ [TName "name"]))).
Proof.
  apply (effect_accumulates_targets [TName "count"] [TName "name"] None);
    discriminate.
Defined.

Lemma hooks_create_one_cell_witness :
  use_state 0 (VFn 0) (Some "n") w_child =
    Returned (mkStateHandle 1 (Some "n"))
      (with_cells (fun cs => cs ++ [mkState (VFn 0) [0] [WEffect 0 "on_n"] (Some "n")])
         w_child) /\
  use_reducer 0 5 (VFn 0) (Some "n") w_child =
    Returned (mkReducerHandle 1 (ReducerDispatch 1 5) (Some "n"))
      (with_cells (fun cs => cs ++ [mkState (VFn 0) [0] [WEffect 0 "on_n"] (Some "n")])
         w_child) /\
  use_model_reducer 0 5 (VFn 0) (Some "n") w_child =
    Returned (mkReducerHandle 1 (ModelReducerDispatch 1 5) (Some "n"))
      (with_cells (fun cs => cs ++ [mkState (VFn 0) [0] [WEffect 0 "on_n"] (Some "n")])
         w_child).
Proof.
  apply (hooks_create_one_cell 0 Child_widget 5 (VFn 0) (Some "n") w_child).
  reflexivity.
Defined.

Lemma dispatch_folds_reducer_witness :
  exists w',
    final (for_each (dispatch demo_dump_eq demo_call demo_raises 1 (ReducerDispatch 0 5))
             [VInt 1; VInt 2] w_five) = Some w' /\
    (for_each (dispatch demo_dump_eq demo_call demo_raises 1 (ReducerDispatch 0 5))
       [VInt 1; VInt 2] w_five = Returned tt w' ->
     exists v, reduce demo_dump_eq demo_call true 5 (_value five) [VInt 1; VInt 2] = inl v /\
               State_get 0 w' = Returned v w').
Proof.
  apply (dispatch_folds_reducer demo_dump_eq demo_call demo_raises
           0 (ReducerDispatch 0 5) 0 5 true [VInt 1; VInt 2] five w_five).
  - apply w_five_well_formed.
  - reflexivity.
  - reflexivity.
  - simpl. lia.
Defined.

Lemma dispatch_raises_what_the_reducer_raises_witness :
  (exists w',
     for_each (dispatch demo_dump_eq demo_call demo_raises 1 (ReducerDispatch 0 5))
       [VInt 1; VInt 2] w_five = Returned tt w' /\
     State_get 0 w' = Returned (VInt 8) w') /\
  (exists w',
     for_each (dispatch demo_dump_eq demo_call demo_raises 1 (ReducerDispatch 0 5))
       [VInt 1; VStr "x"; VInt 2] w_five = Raised (UserError 5) w').
Proof.
  assert (forall old_value new_value,
            Forall (quiet demo_raises old_value new_value) (_watchers five)) as Hq.
  { intros old_value new_value. repeat constructor. }
  split.
  - apply (dispatch_raises_what_the_reducer_raises demo_dump_eq demo_call demo_raises
             0 (ReducerDispatch 0 5) 0 5 true [VInt 1; VInt 2] five w_five
             eq_refl eq_refl Hq).
  - apply (dispatch_raises_what_the_reducer_raises demo_dump_eq demo_call demo_raises
             0 (ReducerDispatch 0 5) 0 5 true [VInt 1; VStr "x"; VInt 2] five w_five
             eq_refl eq_refl Hq).
Defined.

Lemma Store_use_without_provider_witness :
  Store_use 1 CounterStore 0 true w_label =
  Raised (RuntimeError (Store_not_found_message CounterStore Label_widget)) w_label.
Proof.
  apply (Store_use_without_provider 1 CounterStore 0 Label_widget true [0] w_label).
  - eapply chain_root; reflexivity.
  - simpl. lia.
  - intros x wdx Hx Hw. apply list_elem_of_singleton in Hx. subst x.
    simpl in Hw. injection Hw as <-. reflexivity.
  - reflexivity.
Defined.

Lemma Store_use_binds_nearest_provider_witness :
  exists w',
    Store_use 3 CounterStore 3 true w_mounted_twice =
      Returned (mkStoreHandle 0 (ProviderDispatch 1 CounterStore) CounterStore) w' /\
    widgets w' = widgets w_mounted_twice /\ trace w' = trace w_mounted_twice /\
    (forall k, k <> 0 -> cells w' !! k = cells w_mounted_twice !! k) /\
    cells w' !! 0 =
      Some (mkState (VInt 0) [3] [WEffect 3 "on_counter"] (Some "counter")).
Proof.
  apply (Store_use_binds_nearest_provider 3 CounterStore 3 Display_3 true [3; 1; 0] 1
           Provider_1 CounterStore 0 counter_cell w_mounted_twice).
  - eapply chain_step; [reflexivity|reflexivity|].
    eapply chain_step; [reflexivity|reflexivity|].
    eapply chain_root; reflexivity.
  - simpl. lia.
  - reflexivity.
  - reflexivity.
  - reflexivity.
  - reflexivity.
  - reflexivity.
Defined.

Lemma Store_use_twice_connects_effects_twice_witness :
  exists h w',
    (Store_use 3 CounterStore 3 true >> Store_use 3 CounterStore 3 true) w_mounted_twice =
      Returned h w' /\
    cells w' !! 0 =
      Some (mkState (VInt 0) [3] [WEffect 3 "on_counter"; WEffect 3 "on_counter"]
              (Some "counter")).
Proof.
  apply (Store_use_twice_connects_effects_twice 3 CounterStore 3 Display_3 [3; 1; 0] 1
           Provider_1 CounterStore 0 counter_cell w_mounted_twice).
  - eapply chain_step; [reflexivity|reflexivity|].
    eapply chain_step; [reflexivity|reflexivity|].
    eapply chain_root; reflexivity.
  - simpl. lia.
  - reflexivity.
  - reflexivity.
  - reflexivity.
  - reflexivity.
  - reflexivity.
  - apply not_elem_of_nil.
Defined.

Lemma use_context_required_raises_not_found_witness :
  use_context 1 0 ThemeContext true true w_label =
  Raised (ContextNotFoundError 0 0
            (ContextNotFoundError_message ThemeContext Label_widget)) w_label.
Proof.
  apply (use_context_required_raises_not_found 1 0 Label_widget ThemeContext true [0]
           w_label).
  - eapply chain_root; reflexivity.
  - simpl. lia.
  - intros x wdx Hx Hw. apply list_elem_of_singleton in Hx. subst x.
    simpl in Hw. injection Hw as <-. reflexivity.
  - reflexivity.
Defined.

Lemma use_context_model_default_creates_local_cell_witness :
  use_context 1 0 SettingsContext true false w_label =
  Returned (mkContextHandle "ModelContextHandle" 0 0 SettingsContext true)
    (with_cells
       (fun cs => cs ++ [mkState (VModel 3%Z) [0] [] (Some "settings")]) w_label).
Proof.
  apply (use_context_model_default_creates_local_cell 1 0 SettingsContext true [0]
           w_label).
  - eapply chain_root; reflexivity.
  - simpl. lia.
  - intros x wdx Hx Hw. apply list_elem_of_singleton in Hx. subst x.
    simpl in Hw. injection Hw as <-. reflexivity.
  - reflexivity.
Defined.

Lemma use_context_connects_no_effect_witness :
  trace (mkWorld [mkState (VModel 3%Z) [0] [] (Some "settings")] [Label_widget] []) =
    trace w_label /\
  forall c st',
    cells (mkWorld [mkState (VModel 3%Z) [0] [] (Some "settings")] [Label_widget] [])
      !! c = Some st' ->
    match cells w_label !! c with
    | Some st => _value st' = _value st /\ _watchers st' = _watchers st
    | None => _value st' = _default_value SettingsContext /\ _watchers st' = []
    end.
Proof.
  apply (use_context_connects_no_effect 1 0 SettingsContext true false w_label).
  reflexivity.
Defined.

Lemma w_settings_well_formed :
  well_formed w_settings.
Proof.
  intros i st d srcs sel Hi Hin. destruct i; simpl in Hi; [|done].
  injection Hi as <-. simpl in Hin.
  apply list_elem_of_singleton in Hin. discriminate.
Defined.

Lemma update_assigns_the_copy_witness :
  (forall h, handle_state h = 0 ->
     ModelContextHandle_update demo_dump_eq demo_call demo_raises demo_copy 1 h
       [("count", VInt 4)] w_settings =
     ModelState_update demo_dump_eq demo_call demo_raises demo_copy 1 0
       [("count", VInt 4)] w_settings) /\
  exists w',
    final (ModelState_update demo_dump_eq demo_call demo_raises demo_copy 1 0
             [("count", VInt 4)] w_settings) = Some w' /\
    State_get 0 w' = Returned (VModel 4%Z) w'.
Proof.
  apply (update_assigns_the_copy demo_dump_eq demo_call demo_raises demo_copy
           0 0 settings [("count", VInt 4)] w_settings).
  - apply w_settings_well_formed.
  - reflexivity.
  - simpl. lia.
Defined.

Lemma w_todos_built :
  (let! app := new_widget [App_class] NotProvider in
   let! h := use_reducer app 5 (VInt 0) (Some "todos") in
   let! made := ReducerProvider__init__ [ReducerProvider_class] TodoContext h [] in
   let! list := new_widget [TodoList_class] NotProvider in
   mount app (fst made) >> mount (fst made) list >>
   ret (h, snd made)) empty_world
  = Returned (todos_handle, todo_providers) w_todos.
Proof. reflexivity. Qed.

Lemma use_reducer_context_returns_the_provided_handle_witness :
  reducer_context_ref (provider_context (mkReducerProvider TodoContext todos_handle)) =
    reducer_context_ref TodoContext /\
  (exists l1 l2, [2; 1; 0] = l1 ++ 1 :: l2 /\
     forall y, y ∈ l1 -> provides_reducer todo_providers TodoContext y = false) /\
  exists w',
    use_reducer_context 3 todo_providers 2 TodoContext true w_todos =
      Returned todos_handle w' /\
    widgets w' = widgets w_todos /\ trace w' = trace w_todos /\
    (forall k, k <> 0 -> cells w' !! k = cells w_todos !! k) /\
    cells w' !! 0 =
      Some (mkState (VInt 0) [0; 2] [WEffect 2 "on_todos"] (Some "todos")).
Proof.
  apply (use_reducer_context_returns_the_provided_handle 3 todo_providers 2
           TodoList_widget TodoContext true [2; 1; 0] 1
           (mkReducerProvider TodoContext todos_handle) todos w_todos).
  - eapply chain_step; [reflexivity|reflexivity|].
    eapply chain_step; [reflexivity|reflexivity|].
    eapply chain_root; reflexivity.
  - simpl. lia.
  - reflexivity.
  - reflexivity.
  - reflexivity.
  - reflexivity.
Defined.

Lemma use_reducer_context_without_provider_witness :
  use_reducer_context 3 todo_providers 2 OtherContext true w_todos =
  Raised (RuntimeError
            "ReducerContext 'unnamed' not found. Make sure a ReducerProvider is mounted above TodoList.")
    w_todos.
Proof.
  apply (use_reducer_context_without_provider 3 todo_providers 2 TodoList_widget
           OtherContext true [2; 1; 0] w_todos).
  - eapply chain_step; [reflexivity|reflexivity|].
    eapply chain_step; [reflexivity|reflexivity|].
    eapply chain_root; reflexivity.
  - simpl. lia.
  - intros y Hy. repeat (apply elem_of_cons in Hy as [->|Hy]; [reflexivity|]).
    by apply elem_of_nil in Hy.
  - reflexivity.
Defined.

Lemma derivations_stay_up_to_date_witness :
  up_to_date demo_dump_eq demo_call w_derived_after 2 [0; 1] 1.
Proof.
  apply (derivations_stay_up_to_date demo_dump_eq demo_call demo_raises
           2 0 (VInt 10) 2 [0; 1] 1 w_derived w_derived_after).
  - apply w_derived_reachable.
  - exists 1, (mkState (VInt 4) [0] [WSourceChange 2 [0; 1] 1] (Some "b")).
    split; [reflexivity|]. apply elem_of_cons. by left.
  - lia.
  - intros args r Hcall.
    destruct args as [|[] [|[] [|]]]; simpl in Hcall; by simplify_eq.
  - exists [VInt 3; VInt 4], (VInt 7),
      (mkState (VInt 7) [0] [WEffect 0 "on_sum"] (Some "sum")).
    repeat split. by left.
  - reflexivity.
Defined.

Lemma use_derived_registers_on_every_source_witness :
  mkStateHandle 2 (Some "sum") = mkStateHandle 2 (Some "sum") /\
  length (cells w_doubled) = 3 /\ widgets w_doubled = widgets w_sources /\
  trace w_doubled = trace w_sources /\
  (forall k st, cells w_sources !! k = Some st ->
     cells w_doubled !! k =
       Some (add_watchers
               (replicate (count_occ Nat.eq_dec [0; 0] k) (WSourceChange 2 [0; 0] 1))
               st)) /\
  (exists values r,
     get_values [0; 0] w_sources = Returned values w_sources /\
     apply_selector demo_call 1 [0; 0] values w_sources = Returned r w_sources /\
     cells w_doubled !! 2 =
       Some (mkState r [0]
               (named_effects 0 SumView_widget (Some "sum"))
               (Some "sum"))) /\
  up_to_date demo_dump_eq demo_call w_doubled 2 [0; 0] 1.
Proof.
  apply (use_derived_registers_on_every_source demo_dump_eq demo_call
           0 SumView_widget [0; 0] 1 (Some "sum")
           (mkStateHandle 2 (Some "sum")) w_sources w_doubled).
  - reflexivity.
  - reflexivity.
Defined.

Lemma provided_reducer_handle_is_consumed_witness :
  exists w',
    (let! made := ReducerProvider__init__ [ReducerProvider_class] TodoContext
                    todos_handle [] in
     mount (fst made) 0 >>
     use_reducer_context 2 (snd made) 0 TodoContext true)
      (mkWorld [todos] [TodoList_widget] []) =
    Returned todos_handle w'.
Proof.
  apply (provided_reducer_handle_is_consumed 0 [ReducerProvider_class] TodoContext
           todos_handle [] 0 TodoList_widget true
           (mkWorld [todos] [TodoList_widget] [])).
  - reflexivity.
  - reflexivity.
Defined.

Lemma derivations_are_registered_on_their_sources_witness :
  (forall d srcs f s,
     derivation w_derived d srcs f -> s ∈ srcs ->
     exists st, cells w_derived !! s = Some st /\ WSourceChange d srcs f ∈ _watchers st) /\
  (forall d srcs f srcs' f',
     derivation w_derived d srcs f -> derivation w_derived d srcs' f' ->
     srcs = srcs' /\ f = f').
Proof.
  apply (derivations_are_registered_on_their_sources demo_dump_eq demo_call demo_raises
           w_derived).
  apply w_derived_reachable.
Defined.

Lemma subscribe_unsubscribe_round_trip_witness :
  (3 ∈ _subscribers five -> State_subscribe 0 3 w_five = Returned tt w_five) /\
  ((State_subscribe 0 3 >> State_subscribe 0 3) w_five = State_subscribe 0 3 w_five) /\
  (3 ∉ _subscribers five ->
     State_unsubscribe 0 3 w_five = Returned tt w_five /\
     (State_subscribe 0 3 >> State_unsubscribe 0 3) w_five = Returned tt w_five) /\
  exists w' st',
    State_unsubscribe 0 3 w_five = Returned tt w' /\
    cells w' !! 0 = Some st' /\
    (3 ∉ _subscribers st') /\
    (forall x, x <> 3 -> (x ∈ _subscribers st' <-> x ∈ _subscribers five)).
Proof.
  apply (subscribe_unsubscribe_round_trip 0 3 five w_five).
  reflexivity.
Defined.

Lemma widgets_are_subscribed_once_witness :
  NoDup (_subscribers (mkState (Model:=Z) (VInt 0) [4] [WEffect 4 "on_counter"]
                         (Some "counter"))).
Proof.
  apply (widgets_are_subscribed_once demo_dump_eq demo_call demo_raises
           w_mounted_twice 1).
  - apply w_mounted_twice_reachable.
  - reflexivity.
Defined.
